(** * tox-pipenv: the plugin module [tox_pipenv/plugin.py]

    A shallow embedding of the four tox hooks of the plugin and of the
    helpers they share, followed by the properties of the specification
    that concern them.

    The process state a hook works on is made explicit: the process
    environment ([os.environ]), the file system as far as the Pipfiles
    and the directories leading to them are concerned, and the test
    environment object ([venv]) the host hands to the hook.  Every
    effect is also recorded as an event, in program order, so that
    statements about what was invoked, logged or written, and in which
    order, can be made about the list of events of a run. *)

From Stdlib Require Import Ascii String.
From stdpp Require Import gmap strings list pretty.

(** ** Python strings *)

Definition dash : ascii := "-"%char.
Definition newline : ascii := "010"%char.

(** [s.startswith(p)] *)
Fixpoint startswith (s p : string) {struct p} : bool :=
  match p with
  | EmptyString => true
  | String b p' =>
      match s with
      | EmptyString => false
      | String a s' => if decide (a = b) then startswith s' p' else false
      end
  end.

(** [s.lstrip(c)] for a one-character [c]. *)
Fixpoint lstrip (c : ascii) (s : string) : string :=
  match s with
  | String a s' => if decide (a = c) then lstrip c s' else s
  | EmptyString => EmptyString
  end.

(** [sep.join(l)] *)
Definition str_join (sep : string) (l : list string) : string :=
  String.concat sep l.

(** [s.split(c)] for a one-character separator [c]: the pieces between
    the occurrences of [c], the empty pieces included. *)
Fixpoint str_split (c : ascii) (s : string) : list string :=
  match s with
  | EmptyString => [EmptyString]
  | String a s' =>
      if decide (a = c) then EmptyString :: str_split c s'
      else match str_split c s' with
           | piece :: pieces => String a piece :: pieces
           | [] => [String a EmptyString]
           end
  end.

(** How often [c] occurs in [s]. *)
Fixpoint str_count (c : ascii) (s : string) : nat :=
  match s with
  | EmptyString => 0
  | String a s' => (if decide (a = c) then 1 else 0) + str_count c s'
  end.

(** ** Paths ([py.path.local])

    A path is the list of its components below the file system root. *)

Definition path := list string.

(** [p.join(name)] *)
Definition path_join (p : path) (name : string) : path := p ++ [name].

(** [p.dirpath()]; the root is its own parent. *)
Definition dirpath (p : path) : path := removelast p.

(** [p.basename] *)
Definition basename (p : path) : string := List.last p EmptyString.

(** [str(p)] *)
Definition path_str (p : path) : string :=
  match p with
  | [] => "/"
  | _ => fold_right (fun name acc => "/" +:+ name +:+ acc) EmptyString p
  end.

(** ** The file system *)

Inductive node :=
| File (content : string)
| Dir.

#[global] Instance node_eq_dec : EqDecision node.
Proof. solve_decision. Defined.

Abbreviation FS := (gmap path node).

(** The root directory always exists. *)
Definition is_dir (fs : FS) (p : path) : bool :=
  match p with
  | [] => true
  | _ => bool_decide (fs !! p = Some Dir)
  end.

(** [p.exists()] and [p.check()] without arguments. *)
Definition path_exists (fs : FS) (p : path) : bool :=
  match p with
  | [] => true
  | _ => bool_decide (is_Some (fs !! p))
  end.

(** The non-empty prefixes of a path, shortest first: the directories
    [ensure(dir=1)] goes through. *)
Definition path_prefixes (p : path) : list path :=
  (fun n => take n p) <$> seq 1 (length p).

(** [p.ensure(dir=1)] creates the missing directories from the top
    down and fails at a component that exists and is not a directory,
    leaving behind what it created so far. *)
Fixpoint ensure_dirs (ps : list path) (fs : FS) : bool * FS :=
  match ps with
  | [] => (true, fs)
  | p :: ps' =>
      match fs !! p with
      | None => ensure_dirs ps' (<[p := Dir]> fs)
      | Some Dir => ensure_dirs ps' fs
      | Some (File _) => (false, fs)
      end
  end.

(** ** The test environment object

    [venv] with the attributes the plugin reads ([venv.path],
    [venv.session.config.toxinidir], the fields of [venv.envconfig])
    and the one it assigns ([venv.status]).  [commands] is the list
    [venv.envconfig.commands]; its elements are lists that the test
    hook updates in place. *)

Record VirtualEnv := {
  venv_path : path;
  toxinidir : path;
  sitepackages : bool;
  pip_pre : bool;
  ignore_outcome : bool;
  ignore_errors : bool;
  changedir : path;
  commands : list (list string);
  status : string
}.

Definition set_status (st : string) (v : VirtualEnv) : VirtualEnv :=
  {| venv_path := venv_path v; toxinidir := toxinidir v;
     sitepackages := sitepackages v; pip_pre := pip_pre v;
     ignore_outcome := ignore_outcome v; ignore_errors := ignore_errors v;
     changedir := changedir v; commands := commands v; status := st |}.

Definition set_commands (cs : list (list string)) (v : VirtualEnv) : VirtualEnv :=
  {| venv_path := venv_path v; toxinidir := toxinidir v;
     sitepackages := sitepackages v; pip_pre := pip_pre v;
     ignore_outcome := ignore_outcome v; ignore_errors := ignore_errors v;
     changedir := changedir v; commands := cs; status := status v |}.

(** ** Exceptions and results *)

Inductive exn :=
| InvocationError (msg : string)   (* [tox.exception.InvocationError]; [msg] is [str(err)] *)
| KeyboardInterrupt
| IndexError                       (* [argv[0]] on an empty list *)
| OSError (p : path)               (* a failing file system call on [p] *)
| OtherError (msg : string).       (* any other exception of the host *)

Inductive result (A : Type) :=
| Ok (a : A)
| Raise (e : exn).
Arguments Ok {A} a.
Arguments Raise {A} e.

(** ** Events *)

(** The keyword arguments of a [venv._pcall] call; [None] is an argument
    that is not passed. *)
Record pcall_request := {
  pc_args : list string;
  pc_venv : bool;
  pc_cwd : path;
  pc_action : string;
  pc_redirect : option bool;
  pc_ignore_ret : option bool
}.

Inductive level := Warning | Error.

Inductive event :=
| EvSetenv (k v : string)                       (* [os.environ[k] = v] *)
| EvEnsureDir (p : path)                        (* [p.ensure(dir=1)] *)
| EvTouch (p : path)                            (* [open(p, "a")] and [os.utime] *)
| EvCopy (src dst : path)                       (* [src.copy(dst)] *)
| EvMakeEmptyDir (p : path)                     (* [venv.session.make_emptydir(p)] *)
| EvNewAction (name : string)                   (* [venv.session.newaction(venv, name)] *)
| EvSetActivity (action name msg : string)      (* [action.setactivity(name, msg)] *)
| EvReport (lvl : level) (msg : string)         (* [venv.session.report.warning/error] *)
| EvSetStatus (st : string)                     (* [venv.status = st] *)
| EvSetArgv (i : nat) (argv : list string)      (* in-place update of [commands[i]] *)
| EvPcall (req : pcall_request) (r : result string).  (* [venv._pcall(...)] and how it ended *)

(** The [_pcall] invocations among the events, in order. *)
Definition calls (evs : list event) : list (pcall_request * result string) :=
  omap (fun ev => match ev with EvPcall req r => Some (req, r) | _ => None end) evs.

(** ** The process state and the monad of the hooks *)

Record State := {
  environ : gmap string string;
  fs : FS;
  venv : VirtualEnv
}.

Record outcome (A : Type) := Out {
  out_res : result A;
  out_st : State;
  out_evs : list event
}.
Arguments Out {A} _ _ _.
Arguments out_res {A} _.
Arguments out_st {A} _.
Arguments out_evs {A} _.

Definition M (A : Type) : Type := State -> outcome A.

Definition ret {A} (a : A) : M A := fun s => Out (Ok a) s [].

Definition raise {A} (e : exn) : M A := fun s => Out (Raise e) s [].

(** The events [evs] happened before the run that ended as [o]. *)
Definition after {A} (evs : list event) (o : outcome A) : outcome A :=
  Out (out_res o) (out_st o) (evs ++ out_evs o).

Definition bind {A B} (m : M A) (k : A -> M B) : M B := fun s =>
  match m s with
  | Out (Ok a) s1 evs => after evs (k a s1)
  | Out (Raise e) s1 evs => Out (Raise e) s1 evs
  end.

Notation "x <- m ;; k" := (bind m (fun x => k))
  (at level 100, m at next level, right associativity).
Notation "m ;; k" := (bind m (fun _ => k))
  (at level 100, right associativity).

(** [try: m except ...]: the result of [m], raised or not, as a value. *)
Definition try {A} (m : M A) : M (result A) := fun s =>
  match m s with
  | Out r s1 evs => Out (Ok r) s1 evs
  end.

Definition emit (ev : event) : M unit := fun s => Out (Ok tt) s [ev].

(** ** Primitive operations *)

Definition with_environ (e : gmap string string) (s : State) : State :=
  {| environ := e; fs := fs s; venv := venv s |}.

Definition with_fs (f : FS) (s : State) : State :=
  {| environ := environ s; fs := f; venv := venv s |}.

Definition with_venv (v : VirtualEnv) (s : State) : State :=
  {| environ := environ s; fs := fs s; venv := v |}.

(** [os.environ[k] = v] *)
Definition setenv (k v : string) : M unit := fun s =>
  Out (Ok tt) (with_environ (<[k := v]> (environ s)) s) [EvSetenv k v].

(** [os.environ.get(k, None)] *)
Definition getenv (k : string) : M (option string) := fun s =>
  Out (Ok (environ s !! k)) s [].

(** The object [venv] refers to, as it is now. *)
Definition get_venv : M VirtualEnv := fun s => Out (Ok (venv s)) s [].

(** [venv.status = st] *)
Definition assign_status (st : string) : M unit := fun s =>
  Out (Ok tt) (with_venv (set_status st (venv s)) s) [EvSetStatus st].

(** The list [venv.envconfig.commands[i]] becomes [argv]: what
    [del argv[0]] and [argv[0] = ...] do to the list the loop variable
    [argv] refers to. *)
Definition assign_argv (i : nat) (argv : list string) : M unit := fun s =>
  Out (Ok tt)
      (with_venv (set_commands (<[i := argv]> (commands (venv s))) (venv s)) s)
      [EvSetArgv i argv].

(** [p.ensure(dir=1)] *)
Definition ensure_dir (p : path) : M unit := fun s =>
  let r := ensure_dirs (path_prefixes p) (fs s) in
  Out (if r.1 then Ok tt else Raise (OSError p)) (with_fs r.2 s) [EvEnsureDir p].

(** [p.exists()], [p.check()] *)
Definition exists_ (p : path) : M bool := fun s =>
  Out (Ok (path_exists (fs s) p)) s [].

(** [with open(str(p), "a"): os.utime(str(p), None)]: creates [p] as an
    empty file when nothing is there, in a directory that exists; the
    content of an existing file is left as it is (time stamps are not
    part of the model). *)
Definition touch (p : path) : M unit := fun s =>
  if is_dir (fs s) p then Out (Raise (OSError p)) s [EvTouch p]
  else match fs s !! p with
       | Some _ => Out (Ok tt) s [EvTouch p]
       | None =>
           if is_dir (fs s) (dirpath p)
           then Out (Ok tt) (with_fs (<[p := File EmptyString]> (fs s)) s) [EvTouch p]
           else Out (Raise (OSError p)) s [EvTouch p]
       end.

(** The entries of [f] below [p], and the same entries at the same
    places below [dst]. *)
Definition below (f : FS) (p : path) : FS :=
  filter (fun e => p `prefix_of` e.1 /\ e.1 <> p) f.

Definition copied_tree (f : FS) (src dst : path) : FS :=
  list_to_map ((fun e => (dst ++ drop (length src) e.1, e.2))
                 <$> map_to_list (below f src)).

(** [src.copy(dst)].  For a regular file [src], the content is written
    to [dst], or to [dst/basename] when [dst] is a directory; the target
    must lie in an existing directory and differ from the source.  For
    a directory [src], py.path copies the tree: every entry below [src]
    is copied to the same place below [dst], after [ensure(dir=1)] on
    the directory it goes to; nothing is created, not even [dst], when
    there is no entry below [src].  The plugin copies only to a target
    that does not exist: what the model finds at the places the tree
    goes to, it keeps.  When [dst] lies below [src], what py.path finds
    depends on the order in which it lists the directories; the model
    copies the tree as it is when the call is made.  A source that is
    missing fails. *)
Definition copy (src dst : path) : M unit := fun s =>
  match fs s !! src with
  | Some (File c) =>
      let target := if is_dir (fs s) dst then path_join dst (basename src) else dst in
      if is_dir (fs s) (dirpath target) && negb (is_dir (fs s) target)
         && bool_decide (src <> target)
      then Out (Ok tt) (with_fs (<[target := File c]> (fs s)) s) [EvCopy src dst]
      else Out (Raise (OSError target)) s [EvCopy src dst]
  | Some Dir =>
      if decide (below (fs s) src = ∅) then Out (Ok tt) s [EvCopy src dst]
      else
        let r := ensure_dirs (path_prefixes dst) (fs s) in
        if r.1
        then Out (Ok tt) (with_fs (r.2 ∪ copied_tree (fs s) src dst) s) [EvCopy src dst]
        else Out (Raise (OSError dst)) (with_fs r.2 s) [EvCopy src dst]
  | None => Out (Raise (OSError src)) s [EvCopy src dst]
  end.

(** [action.setactivity(name, msg)] *)
Definition setactivity (action name msg : string) : M unit :=
  emit (EvSetActivity action name msg).

(** [venv.session.report.warning(msg)], [venv.session.report.error(msg)] *)
Definition report (lvl : level) (msg : string) : M unit :=
  emit (EvReport lvl msg).

(** ** The host

    What the plugin uses of tox and of the Python runtime without
    defining it: [sys.executable]; the formatting ["%r" % x] of a string
    or [None]; [venv.getsupportedinterpreter()] and
    [venv._getresolvedeps()], which return or raise;
    [venv.session.make_emptydir(p)], which acts on the file system; and
    [venv._pcall], which runs a child process: it is given the process
    environment, may change the file system, and returns the captured
    output or raises.  None of them assigns [os.environ] or the
    attributes of [venv]; that is what their types say. *)

Class Host := {
  sys_executable : string;
  py_repr : option string -> string;
  getsupportedinterpreter : VirtualEnv -> result string;
  _getresolvedeps : VirtualEnv -> result (list string);
  make_emptydir : path -> FS -> FS;
  _pcall : pcall_request -> gmap string string -> FS -> result string * FS
}.

Section Plugin.
Context `{Host}.

(** A call of the host that returns or raises and has no other effect. *)
Definition lift_result {A} (r : result A) : M A := fun s => Out r s [].

(** [venv.session.make_emptydir(p)] *)
Definition session_make_emptydir (p : path) : M unit := fun s =>
  Out (Ok tt) (with_fs (make_emptydir p (fs s)) s) [EvMakeEmptyDir p].

(** [venv._pcall(args, venv=..., cwd=..., action=..., ...)] *)
Definition pcall (req : pcall_request) : M string := fun s =>
  let r := _pcall req (environ s) (fs s) in
  Out r.1 (with_fs r.2 s) [EvPcall req r.1].

(** ** The plugin *)

Definition _init_pipenv_environ : M unit :=
  setenv "PIPENV_ACTIVE" "1" ;;
  setenv "PIPENV_IGNORE_VIRTUALENVS" "1" ;;
  setenv "PIPENV_YES" "1".

Definition _clone_pipfile (v : VirtualEnv) : M path :=
  let root_pipfile_path := path_join (toxinidir v) "Pipfile" in
  ensure_dir (venv_path v) ;;
  let venv_pipfile_path := path_join (venv_path v) "Pipfile" in
  root_exists <- exists_ root_pipfile_path ;;
  (if negb root_exists then touch root_pipfile_path else ret tt) ;;
  venv_exists <- exists_ venv_pipfile_path ;;
  (if negb venv_exists then copy root_pipfile_path venv_pipfile_path else ret tt) ;;
  ret venv_pipfile_path.

(** [if old:] for [old] a string or [None] *)
Definition truthy (old : option string) : bool :=
  match old with
  | Some (String _ _) => true
  | _ => false
  end.

(** The context manager: the code before [yield], the body of the
    [with] statement, the code after [yield].  An exception of the body
    is raised at the [yield], which no [try] encloses: the code after it
    does not run. *)
Definition wrap_pipenv_environment {A} (v : VirtualEnv) (pipfile_path : path)
    (body : M A) : M A :=
  old_pipfile <- getenv "PIPENV_PIPFILE" ;;
  old_pipvenv <- getenv "PIPENV_VIRTUALENV" ;;
  old_venv <- getenv "VIRTUAL_ENV" ;;
  setenv "PIPENV_PIPFILE" (path_str pipfile_path) ;;
  setenv "PIPENV_VIRTUALENV" (path_str (venv_path v)) ;;
  setenv "VIRTUAL_ENV" (path_str (venv_path v)) ;;
  a <- body ;;
  (if truthy old_pipfile then setenv "PIPENV_PIPFILE" (default EmptyString old_pipfile)
   else ret tt) ;;
  (if truthy old_pipvenv then setenv "PIPENV_VIRTUALENV" (default EmptyString old_pipvenv)
   else ret tt) ;;
  (if truthy old_venv then setenv "VIRTUAL_ENV" (default EmptyString old_venv)
   else ret tt) ;;
  ret a.

Definition mk_pcall (args : list string) (cwd : path) (action : string)
    (redirect ignore_ret : option bool) : pcall_request :=
  {| pc_args := args; pc_venv := false; pc_cwd := cwd; pc_action := action;
     pc_redirect := redirect; pc_ignore_ret := ignore_ret |}.

(** The hooks.  [venv] is the object the state holds; [v] is what it
    is when the hook starts, and the attributes read from [v] later are
    ones nothing assigns.  [action] stands for the action object of the
    host, [redirect] for the flag of the same name. *)
Definition tox_testenv_create (action : string) : M bool :=
  _init_pipenv_environ ;;
  v <- get_venv ;;
  config_interpreter <- lift_result (getsupportedinterpreter v) ;;
  let args := [sys_executable; "-m"; "pipenv"] in
  let args := if sitepackages v then args ++ ["--site-packages"] else args in
  let args := args ++ ["--python"; config_interpreter] in
  session_make_emptydir (venv_path v) ;;
  let basepath := dirpath (venv_path v) in
  ensure_dir basepath ;;
  pipfile_path <- _clone_pipfile v ;;
  wrap_pipenv_environment v pipfile_path
    (pcall (mk_pcall args basepath action None None)) ;;
  ret true.

(** [action.venv] is the [venv] of the hook. *)
Definition tox_testenv_install_deps (action : string) : M bool :=
  _init_pipenv_environ ;;
  v <- get_venv ;;
  deps <- lift_result (_getresolvedeps v) ;;
  let basepath := dirpath (venv_path v) in
  ensure_dir basepath ;;
  pipfile_path <- _clone_pipfile v ;;
  let args := [sys_executable; "-m"; "pipenv"; "install"; "--dev"] in
  let args := if pip_pre v then args ++ ["--pre"] else args in
  wrap_pipenv_environment v pipfile_path
    (args <- match deps with
             | [] => setactivity action "installdeps" "[]" ;; ret args
             | _ => setactivity action "installdeps" (str_join "," deps) ;;
                    ret (args ++ deps)
             end ;;
     pcall (mk_pcall args basepath action None None)) ;;
  ret true.

(** The lines 137 to 144 of the loop body: the flag [ignore_ret] and the
    list [argv] as they are afterwards. *)
Definition runtest_argv (i : nat) (argv : list string) : M (bool * list string) :=
  match argv with
  | [] => raise IndexError
  | tok :: rest =>
      if startswith tok "-" then
        if decide (tok = "-") then
          assign_argv i rest ;; ret (true, rest)
        else
          assign_argv i (lstrip dash tok :: rest) ;;
          ret (true, lstrip dash tok :: rest)
      else ret (false, argv)
  end.

(** How an iteration of the loop ends when it does not raise. *)
Inductive loop_ctl := Continue | Break.

Definition warning_text (err : string) : string :=
  "command failed but result from testenv is ignored" +:+
  String newline ("  cmd: " +:+ err).

(** The [except] clauses of the [try] statement, for the result [r] of
    the call: what is logged, the status, and how the iteration ends. *)
Definition runtest_except (r : result string) : M loop_ctl :=
  match r with
  | Ok _ => ret Continue
  | Raise (InvocationError err) =>
      v <- get_venv ;;
      if ignore_outcome v then
        report Warning (warning_text err) ;;
        assign_status "ignored failed command" ;;
        ret Continue
      else
        report Error err ;;
        assign_status "commands failed" ;;
        if negb (ignore_errors v) then ret Break else ret Continue
  | Raise KeyboardInterrupt =>
      assign_status "keyboardinterrupt" ;;
      v <- get_venv ;;
      report Error (status v) ;;
      raise KeyboardInterrupt
  | Raise e => raise e
  end.

(** One iteration of the [for] loop of [tox_runtest]. *)
Definition runtest_command (redirect : bool) (action : string) (i : nat)
    (argv : list string) : M loop_ctl :=
  v <- get_venv ;;
  let cwd := changedir v in
  let msg := "commands[" +:+ pretty i +:+ "] | " +:+ str_join " " argv in
  setactivity action "runtests" msg ;;
  c <- runtest_argv i argv ;;
  let args := [sys_executable; "-m"; "pipenv"; "run"] ++ c.2 in
  r <- try (pcall (mk_pcall args cwd action (Some redirect) (Some c.1))) ;;
  runtest_except r.

(** The [for] loop, at index [i], over the commands still to come. *)
Fixpoint runtest_loop (redirect : bool) (action : string) (i : nat)
    (pending : list (list string)) : M unit :=
  match pending with
  | [] => ret tt
  | argv :: rest =>
      c <- runtest_command redirect action i argv ;;
      match c with
      | Continue => runtest_loop redirect action (S i) rest
      | Break => ret tt
      end
  end.

Definition tox_runtest (redirect : bool) : M bool :=
  _init_pipenv_environ ;;
  v <- get_venv ;;
  pipfile_path <- _clone_pipfile v ;;
  emit (EvNewAction "runtests") ;;
  let action := "runtests" in
  wrap_pipenv_environment v pipfile_path
    (seed <- getenv "PYTHONHASHSEED" ;;
     setactivity action "runtests" ("PYTHONHASHSEED=" +:+ py_repr seed) ;;
     runtest_loop redirect action 0 (commands v)) ;;
  ret true.

Definition tox_runenvreport (action : string) : M (list string) :=
  _init_pipenv_environ ;;
  v <- get_venv ;;
  pipfile_path <- _clone_pipfile v ;;
  let basepath := dirpath (venv_path v) in
  ensure_dir basepath ;;
  wrap_pipenv_environment v pipfile_path
    (setactivity action "runenvreport" "" ;;
     let args := [sys_executable; "-m"; "pipenv"; "graph"] in
     output <- pcall (mk_pcall args basepath action None None) ;;
     ret (str_split newline output)).

End Plugin.

(** ** Vocabulary of the statements *)

(** [n] times the character [c]. *)
Fixpoint str_replicate (n : nat) (c : ascii) : string :=
  match n with
  | 0 => EmptyString
  | S n' => String c (str_replicate n' c)
  end.

(** The variables [_init_pipenv_environ] sets, and the ones the context
    manager overrides, with the value it gives each. *)
Definition flag_vars : list string :=
  ["PIPENV_ACTIVE"; "PIPENV_IGNORE_VIRTUALENVS"; "PIPENV_YES"].

Definition overlay_vars : list string :=
  ["PIPENV_PIPFILE"; "PIPENV_VIRTUALENV"; "VIRTUAL_ENV"].

Definition overlay_value (v : VirtualEnv) (pipfile_path : path) (k : string) : string :=
  if decide (k = "PIPENV_PIPFILE") then path_str pipfile_path
  else path_str (venv_path v).

Definition init_events : list event :=
  [EvSetenv "PIPENV_ACTIVE" "1"; EvSetenv "PIPENV_IGNORE_VIRTUALENVS" "1";
   EvSetenv "PIPENV_YES" "1"].

(** A run of [m] from a state with [P] ends in a state with [P]. *)
Definition preserves {A} (P : State -> Prop) (m : M A) : Prop :=
  forall s, P s -> P (out_st (m s)).

(** Every event of a run of [m] has [Q]. *)
Definition emits {A} (Q : event -> Prop) (m : M A) : Prop :=
  forall s, Forall Q (out_evs (m s)).

Definition not_call (ev : event) : Prop :=
  match ev with EvPcall _ _ => False | _ => True end.

(** An assignment to a flag variable assigns ["1"]. *)
Definition keeps_flags (ev : event) : Prop :=
  match ev with
  | EvSetenv k v => k ∈ flag_vars -> v = "1"
  | _ => True
  end.

Definition flags_set (s : State) : Prop :=
  forall k, k ∈ flag_vars -> environ s !! k = Some "1".

(** What the lines 137 to 144 make of a command: the flag and the
    tokens, as functions of the command. *)
Definition ignore_ret_of (argv : list string) : bool :=
  match argv with
  | tok :: _ => startswith tok "-"
  | [] => false
  end.

Definition stripped (argv : list string) : list string :=
  match argv with
  | tok :: rest =>
      if startswith tok "-" then
        if decide (tok = "-") then rest else lstrip dash tok :: rest
      else argv
  | [] => []
  end.

(** The [_pcall] request of [tox_runtest] for the command [argv]. *)
Definition run_request `{Host} (redirect : bool) (action : string) (v : VirtualEnv)
    (argv : list string) : pcall_request :=
  mk_pcall ([sys_executable; "-m"; "pipenv"; "run"] ++ stripped argv)
           (changedir v) action (Some redirect) (Some (ignore_ret_of argv)).

(** The state and the events after the lines 137 to 144, for a command
    that is not empty. *)
Definition argv_state (i : nat) (argv : list string) (s : State) : State :=
  if ignore_ret_of argv
  then with_venv (set_commands (<[i := stripped argv]> (commands (venv s))) (venv s)) s
  else s.

Definition argv_events (i : nat) (argv : list string) : list event :=
  if ignore_ret_of argv then [EvSetArgv i (stripped argv)] else [].

Definition command_msg (i : nat) (argv : list string) : string :=
  "commands[" +:+ pretty i +:+ "] | " +:+ str_join " " argv.

(** The status a failing command leaves. *)
Definition fail_status (v : VirtualEnv) : string :=
  if ignore_outcome v then "ignored failed command" else "commands failed".

Definition returned (r : result string) : Prop :=
  match r with
  | Ok _ => True
  | Raise _ => False
  end.

(** The call returned, or failed with an invocation error. *)
Definition returns_or_fails (r : result string) : Prop :=
  match r with
  | Ok _ | Raise (InvocationError _) => True
  | _ => False
  end.

(** The fields of [venv] other than [status] and [commands]. *)
Definition same_config (v v' : VirtualEnv) : Prop :=
  venv_path v' = venv_path v /\ toxinidir v' = toxinidir v /\
  sitepackages v' = sitepackages v /\ pip_pre v' = pip_pre v /\
  ignore_outcome v' = ignore_outcome v /\ ignore_errors v' = ignore_errors v /\
  changedir v' = changedir v.

(** Properties of the state that do not depend on the file system, on
    the environment, or on [venv]. *)
Definition fs_blind (P : State -> Prop) : Prop :=
  forall s f, P s -> P (with_fs f s).

Definition environ_blind (P : State -> Prop) : Prop :=
  forall s e, P s -> P (with_environ e s).

Definition venv_blind (P : State -> Prop) : Prop :=
  forall s v, P s -> P (with_venv v s).

(** What holds of the flag variables in a run of a hook: they are
    assigned first, nothing assigns them anything but ["1"], and they
    are ["1"] at the end. *)
Definition flags_ok {A} (o : outcome A) : Prop :=
  (exists evs, out_evs o = init_events ++ evs) /\
  Forall keeps_flags (out_evs o) /\
  flags_set (out_st o).

(** The state in which the body of the [with] statement starts. *)
Definition inside_overlay (v : VirtualEnv) (pipfile_path : path) (s : State) : State :=
  with_environ
    (<["VIRTUAL_ENV" := path_str (venv_path v)]>
       (<["PIPENV_VIRTUALENV" := path_str (venv_path v)]>
          (<["PIPENV_PIPFILE" := path_str pipfile_path]> (environ s)))) s.

Definition overlay_events (v : VirtualEnv) (pipfile_path : path) : list event :=
  [EvSetenv "PIPENV_PIPFILE" (path_str pipfile_path);
   EvSetenv "PIPENV_VIRTUALENV" (path_str (venv_path v));
   EvSetenv "VIRTUAL_ENV" (path_str (venv_path v))].

(** *** Runs of the loop of [tox_runtest]

    What the [except] clauses do for the result [r] of a call, as
    functions of [venv] before them: the events, [venv] afterwards and
    how the iteration ends. *)

Definition step_events (v : VirtualEnv) (r : result string) : list event :=
  match r with
  | Raise (InvocationError err) =>
      [EvReport (if ignore_outcome v then Warning else Error)
                (if ignore_outcome v then warning_text err else err);
       EvSetStatus (fail_status v)]
  | Raise KeyboardInterrupt =>
      [EvSetStatus "keyboardinterrupt"; EvReport Error "keyboardinterrupt"]
  | _ => []
  end.

Definition step_venv (v : VirtualEnv) (r : result string) : VirtualEnv :=
  match r with
  | Raise (InvocationError _) => set_status (fail_status v) v
  | Raise KeyboardInterrupt => set_status "keyboardinterrupt" v
  | _ => v
  end.

Definition step_ctl (v : VirtualEnv) (r : result string) : result loop_ctl :=
  match r with
  | Ok _ => Ok Continue
  | Raise (InvocationError _) =>
      Ok (if ignore_outcome v then Continue
          else if ignore_errors v then Continue else Break)
  | Raise e => Raise e
  end.

Section Runs.
Context `{Host}.
Variables (redirect : bool) (action : string).

(** The result of the call for the command [argv] at index [i] from
    the state [s], the events of the iteration and the state after it. *)
Definition command_result (i : nat) (argv : list string) (s : State) : result string :=
  let s1 := argv_state i argv s in
  (_pcall (run_request redirect action (venv s) argv) (environ s1) (fs s1)).1.

Definition command_events (i : nat) (argv : list string) (s : State) : list event :=
  let s1 := argv_state i argv s in
  let r := command_result i argv s in
  EvSetActivity action "runtests" (command_msg i argv)
    :: argv_events i argv
    ++ [EvPcall (run_request redirect action (venv s) argv) r]
    ++ step_events (venv s1) r.

Definition command_state (i : nat) (argv : list string) (s : State) : State :=
  let s1 := argv_state i argv s in
  let req := run_request redirect action (venv s) argv in
  with_venv (step_venv (venv s1) (command_result i argv s))
            (with_fs (_pcall req (environ s1) (fs s1)).2 s1).

(** [loop_run i pending s o]: the loop, at index [i] with the commands
    [pending] to come, runs from [s] and ends as [o]. *)
Inductive loop_run : nat -> list (list string) -> State -> outcome unit -> Prop :=
| run_done i s :
    loop_run i [] s (Out (Ok tt) s [])
| run_empty i rest s :
    loop_run i ([] :: rest) s
      (Out (Raise IndexError) s [EvSetActivity action "runtests" (command_msg i [])])
| run_continue i tok tl rest s o :
    step_ctl (venv s) (command_result i (tok :: tl) s) = Ok Continue ->
    loop_run (S i) rest (command_state i (tok :: tl) s) o ->
    loop_run i ((tok :: tl) :: rest) s (after (command_events i (tok :: tl) s) o)
| run_break i tok tl rest s :
    step_ctl (venv s) (command_result i (tok :: tl) s) = Ok Break ->
    loop_run i ((tok :: tl) :: rest) s
      (Out (Ok tt) (command_state i (tok :: tl) s) (command_events i (tok :: tl) s))
| run_raise i tok tl rest s e :
    step_ctl (venv s) (command_result i (tok :: tl) s) = Raise e ->
    loop_run i ((tok :: tl) :: rest) s
      (Out (Raise e) (command_state i (tok :: tl) s) (command_events i (tok :: tl) s)).

End Runs.

(** ** A host and states to run the hooks on *)

(** A host whose child processes end the way [run] says and leave the
    file system alone. *)
Definition script_host (run : pcall_request -> result string) : Host :=
  {| sys_executable := "python";
     py_repr := fun o => match o with
                         | None => "None"
                         | Some s => "'" +:+ s +:+ "'"
                         end;
     getsupportedinterpreter := fun _ => Ok "/usr/bin/python3";
     _getresolvedeps := fun _ => Ok [];
     make_emptydir := fun p f => <[p := Dir]> f;
     _pcall := fun req env f => (run req, f) |}.

Definition demo_venv (cmds : list (list string)) (io ie : bool) : VirtualEnv :=
  {| venv_path := ["proj"; ".tox"; "py"]; toxinidir := ["proj"];
     sitepackages := false; pip_pre := false;
     ignore_outcome := io; ignore_errors := ie;
     changedir := ["proj"]; commands := cmds; status := "" |}.

Definition demo_state (env : gmap string string) (v : VirtualEnv) : State :=
  {| environ := env; fs := {[ ["proj"] := Dir ]}; venv := v |}.

(** The child process of the command [bad] fails, interrupted when
    [interrupt] is set, with an invocation error otherwise; every other
    one returns. *)
Definition fails_on (bad : string) (interrupt : bool) (req : pcall_request)
    : result string :=
  if bool_decide (bad ∈ pc_args req) then
    if interrupt then Raise KeyboardInterrupt else Raise (InvocationError bad)
  else Ok "".

(** ** Vocabulary of the further properties *)

(** The argument vectors of the creation and of the installation call. *)
Definition create_args `{Host} (v : VirtualEnv) (interpreter : string) : list string :=
  [sys_executable; "-m"; "pipenv"]
    ++ (if sitepackages v then ["--site-packages"] else [])
    ++ ["--python"; interpreter].

Definition install_args `{Host} (v : VirtualEnv) (deps : list string) : list string :=
  [sys_executable; "-m"; "pipenv"; "install"; "--dev"]
    ++ (if pip_pre v then ["--pre"] else [])
    ++ deps.

(** The environment of a call in the overlay of the environment [v]:
    the overlay variables name its Pipfile and its directory, the flag
    variables are ["1"]. *)
Definition overlay_environment (v : VirtualEnv) (env : gmap string string) : Prop :=
  env !! "PIPENV_PIPFILE" = Some (path_str (path_join (venv_path v) "Pipfile")) /\
  env !! "PIPENV_VIRTUALENV" = Some (path_str (venv_path v)) /\
  env !! "VIRTUAL_ENV" = Some (path_str (venv_path v)) /\
  env !! "PIPENV_ACTIVE" = Some "1" /\
  env !! "PIPENV_IGNORE_VIRTUALENVS" = Some "1" /\
  env !! "PIPENV_YES" = Some "1".

(** What a hook with one call ends with, for the result [r] of the call. *)
Definition call_outcome {A} (r : result string) (a : string -> A) : result A :=
  match r with
  | Ok out => Ok (a out)
  | Raise e => Raise e
  end.

(** Every exception a run of [m] raises has [Q]. *)
Definition raises {A} (Q : exn -> Prop) (m : M A) : Prop :=
  forall s e, out_res (m s) = Raise e -> Q e.

Definition not_invocation_error (e : exn) : Prop :=
  match e with
  | InvocationError _ => False
  | _ => True
  end.

(** A host that cannot resolve the interpreter nor the dependencies,
    and one with the dependencies [deps]. *)
Definition unresolved_host (e : exn) : Host :=
  {| sys_executable := "python";
     py_repr := fun _ => "None";
     getsupportedinterpreter := fun _ => Raise e;
     _getresolvedeps := fun _ => Raise e;
     make_emptydir := fun p f => <[p := Dir]> f;
     _pcall := fun req env f => (Ok EmptyString, f) |}.

Definition deps_host (deps : list string) (run : pcall_request -> result string) : Host :=
  {| sys_executable := "python";
     py_repr := fun _ => "None";
     getsupportedinterpreter := fun _ => Ok "/usr/bin/python3";
     _getresolvedeps := fun _ => Ok deps;
     make_emptydir := fun p f => <[p := Dir]> f;
     _pcall := fun req env f => (run req, f) |}.

(** A directory with nothing in it. *)
Definition empty_dir (f : FS) (p : path) : Prop :=
  f !! p = Some Dir /\ forall q, p `prefix_of` q -> q <> p -> f !! q = None.

(** * Properties *)

(** ** Strings *)

Lemma startswith_dash_inv (s : string) :
  startswith s "-" = true -> exists s', s = String dash s'.
Proof.
  destruct s as [|a s']; simpl; [done|].
  destruct (decide (a = "-"%char)) as [->|]; [eauto|done].
Qed.

Lemma startswith_dash_cons (a : ascii) (s : string) :
  startswith (String a s) "-" = bool_decide (a = dash).
Proof.
  simpl. unfold dash. destruct (decide (a = "-"%char)) as [->|Hne].
  - by rewrite bool_decide_eq_true_2.
  - by rewrite bool_decide_eq_false_2.
Qed.

(** [lstrip] removes a run of [c] at the front, and all of it. *)
Lemma lstrip_spec (c : ascii) (s : string) :
  exists n, s = str_replicate n c +:+ lstrip c s /\
            forall t, lstrip c s <> String c t.
Proof.
  induction s as [|a s IH]; simpl.
  - exists 0. done.
  - destruct (decide (a = c)) as [->|Hne].
    + destruct IH as (n & Hn & Hl). exists (S n).
      split; [exact (f_equal (String c) Hn)|done].
    + exists 0. split; [done|]. intros t [= -> _]. done.
Qed.

Lemma str_split_cons (c a : ascii) (s : string) :
  str_split c (String a s) =
    if decide (a = c) then EmptyString :: str_split c s
    else match str_split c s with
         | piece :: pieces => String a piece :: pieces
         | [] => [String a EmptyString]
         end.
Proof. reflexivity. Qed.

Lemma str_split_not_nil (c : ascii) (s : string) : str_split c s <> [].
Proof.
  induction s as [|a s IH]; [done|].
  rewrite str_split_cons. destruct (decide (a = c)); [done|].
  by destruct (str_split c s).
Qed.

(** Joining the pieces with the separator gives the text back. *)
Lemma str_join_split (c : ascii) (s : string) :
  str_join (String c EmptyString) (str_split c s) = s.
Proof.
  unfold str_join. induction s as [|a s IH]; [done|].
  rewrite str_split_cons. pose proof (str_split_not_nil c s) as Hnil.
  destruct (decide (a = c)) as [->|Hne].
  - destruct (str_split c s) as [|p ps] eqn:E; [done|].
    change (String c (String.concat (String c EmptyString) (p :: ps)) = String c s).
    by rewrite IH.
  - destruct (str_split c s) as [|p ps] eqn:E; [done|].
    destruct ps as [|q qs].
    + simpl in IH. simpl. by rewrite IH.
    + change (String a (String.concat (String c EmptyString) (p :: q :: qs)) = String a s).
      by rewrite IH.
Qed.

(** No piece contains the separator. *)
Lemma str_split_pieces (c : ascii) (s : string) :
  Forall (fun piece => str_count c piece = 0) (str_split c s).
Proof.
  induction s as [|a s IH]; [by repeat constructor|].
  rewrite str_split_cons. destruct (decide (a = c)) as [->|Hne].
  - by constructor.
  - destruct (str_split c s) as [|p ps].
    + repeat constructor. simpl. by rewrite decide_False.
    + inversion IH as [|? ? Hp Hps]; subst. constructor; [|done].
      simpl. by rewrite decide_False.
Qed.

(** There is one piece more than there are separators. *)
Lemma str_split_length (c : ascii) (s : string) :
  length (str_split c s) = S (str_count c s).
Proof.
  induction s as [|a s IH]; [done|].
  rewrite str_split_cons. simpl str_count.
  destruct (decide (a = c)) as [->|Hne]; simpl; [by rewrite IH|].
  pose proof (str_split_not_nil c s).
  destruct (str_split c s); [done|]. simpl in *. lia.
Qed.

(** A separator at the end leaves an empty last piece. *)
Lemma str_split_trailing (c : ascii) (s : string) :
  str_split c (s +:+ String c EmptyString) = str_split c s ++ [EmptyString].
Proof.
  induction s as [|a s IH].
  - simpl. by rewrite decide_True.
  - change (String a s +:+ String c EmptyString)
      with (String a (s +:+ String c EmptyString)).
    rewrite !str_split_cons, IH.
    destruct (decide (a = c)); [done|].
    pose proof (str_split_not_nil c s).
    by destruct (str_split c s).
Qed.

(** ** Rules for runs *)

Lemma calls_app (evs1 evs2 : list event) :
  calls (evs1 ++ evs2) = calls evs1 ++ calls evs2.
Proof. apply omap_app. Qed.

Lemma calls_not_call (evs : list event) : Forall not_call evs -> calls evs = [].
Proof.
  induction 1 as [|ev evs Hev _ IH]; [done|].
  destruct ev; simpl in *; done.
Qed.

Section Rules.
Context {A B : Type}.
Implicit Types (P : State -> Prop) (Q : event -> Prop).

Lemma bind_ok (m : M A) (k : A -> M B) s a s1 evs :
  m s = Out (Ok a) s1 evs -> bind m k s = after evs (k a s1).
Proof. unfold bind. by intros ->. Qed.

Lemma bind_raise (m : M A) (k : A -> M B) s e s1 evs :
  m s = Out (Raise e) s1 evs -> bind m k s = Out (Raise e) s1 evs.
Proof. unfold bind. by intros ->. Qed.

Lemma preserves_bind P (m : M A) (k : A -> M B) :
  preserves P m -> (forall a, preserves P (k a)) -> preserves P (bind m k).
Proof.
  intros Hm Hk s Hs. unfold bind. specialize (Hm s Hs).
  destruct (m s) as [[a|e] s1 evs]; simpl in *; [by apply Hk|done].
Qed.

Lemma emits_bind Q (m : M A) (k : A -> M B) :
  emits Q m -> (forall a, emits Q (k a)) -> emits Q (bind m k).
Proof.
  intros Hm Hk s. unfold bind. specialize (Hm s).
  destruct (m s) as [[a|e] s1 evs]; simpl in *; [|done].
  apply Forall_app. split; [done|apply Hk].
Qed.

(** Whatever [m] establishes and the rest preserves holds at the end. *)
Lemma establishes_bind P (m : M A) (k : A -> M B) s :
  P (out_st (m s)) -> (forall a, preserves P (k a)) -> P (out_st (bind m k s)).
Proof.
  intros Hm Hk. unfold bind.
  destruct (m s) as [[a|e] s1 evs]; simpl in *; [by apply Hk|done].
Qed.

Lemma bind_evs_prefix (m : M A) (k : A -> M B) s :
  exists evs, out_evs (bind m k s) = out_evs (m s) ++ evs.
Proof.
  unfold bind. destruct (m s) as [[a|e] s1 evs]; simpl.
  - eauto.
  - exists []. by rewrite app_nil_r.
Qed.

Lemma preserves_ret P (a : A) : preserves P (ret a).
Proof. by intros s Hs. Qed.

Lemma emits_ret Q (a : A) : emits Q (ret a).
Proof. intros s. constructor. Qed.

Lemma preserves_raise P e : preserves P (@raise A e).
Proof. by intros s Hs. Qed.

Lemma emits_raise Q e : emits Q (@raise A e).
Proof. intros s. constructor. Qed.

Lemma preserves_lift P (r : result A) : preserves P (lift_result r).
Proof. by intros s Hs. Qed.

Lemma emits_lift Q (r : result A) : emits Q (lift_result r).
Proof. intros s. constructor. Qed.

Lemma preserves_try P (m : M A) : preserves P m -> preserves P (try m).
Proof. intros Hm s Hs. specialize (Hm s Hs). unfold try. by destruct (m s). Qed.

Lemma emits_try Q (m : M A) : emits Q m -> emits Q (try m).
Proof. intros Hm s. specialize (Hm s). unfold try. by destruct (m s). Qed.

End Rules.

Lemma emits_emit Q ev : Q ev -> emits Q (emit ev).
Proof. intros Hev s. by repeat constructor. Qed.

Lemma preserves_emit P ev : preserves P (emit ev).
Proof. by intros s Hs. Qed.

Lemma preserves_getenv P k : preserves P (getenv k).
Proof. by intros s Hs. Qed.

Lemma emits_getenv Q k : emits Q (getenv k).
Proof. intros s. constructor. Qed.

Lemma preserves_get_venv P : preserves P get_venv.
Proof. by intros s Hs. Qed.

Lemma emits_get_venv Q : emits Q get_venv.
Proof. intros s. constructor. Qed.

Lemma preserves_exists P p : preserves P (exists_ p).
Proof. by intros s Hs. Qed.

Lemma emits_exists Q p : emits Q (exists_ p).
Proof. intros s. constructor. Qed.

Lemma emits_setenv Q k v : Q (EvSetenv k v) -> emits Q (setenv k v).
Proof. intros Hev s. by repeat constructor. Qed.

Lemma emits_assign_status Q st : Q (EvSetStatus st) -> emits Q (assign_status st).
Proof. intros Hev s. by repeat constructor. Qed.

Lemma emits_assign_argv Q i argv : Q (EvSetArgv i argv) -> emits Q (assign_argv i argv).
Proof. intros Hev s. by repeat constructor. Qed.

Lemma emits_ensure_dir Q p : Q (EvEnsureDir p) -> emits Q (ensure_dir p).
Proof. intros Hev s. by repeat constructor. Qed.

Lemma emits_touch Q p : Q (EvTouch p) -> emits Q (touch p).
Proof. intros Hev s. unfold touch. repeat case_match; by repeat constructor. Qed.

Lemma emits_copy Q src dst : Q (EvCopy src dst) -> emits Q (copy src dst).
Proof. intros Hev s. unfold copy. repeat case_match; by repeat constructor. Qed.

Lemma preserves_setenv P k v : environ_blind P -> preserves P (setenv k v).
Proof. intros HP s Hs. by apply HP. Qed.

Lemma preserves_assign_status P st : venv_blind P -> preserves P (assign_status st).
Proof. intros HP s Hs. by apply HP. Qed.

Lemma preserves_assign_argv P i argv : venv_blind P -> preserves P (assign_argv i argv).
Proof. intros HP s Hs. by apply HP. Qed.

Lemma preserves_ensure_dir P p : fs_blind P -> preserves P (ensure_dir p).
Proof. intros HP s Hs. by apply HP. Qed.

Lemma preserves_touch P p : fs_blind P -> preserves P (touch p).
Proof.
  intros HP s Hs. unfold touch. repeat case_match; simpl; try done; by apply HP.
Qed.

Lemma preserves_copy P src dst : fs_blind P -> preserves P (copy src dst).
Proof.
  intros HP s Hs. unfold copy. repeat case_match; simpl; try done; by apply HP.
Qed.

Ltac blind := first [assumption | intros ? ? Hblind; exact Hblind].

Lemma not_flag (k : string) :
  bool_decide (k ∈ flag_vars) = false -> k ∈ flag_vars -> False.
Proof. intros Hk Hin. by apply bool_decide_eq_false in Hk. Qed.

Lemma preserves_flags_setenv k v :
  (k ∈ flag_vars -> v = "1") -> preserves flags_set (setenv k v).
Proof.
  intros Hkv s Hs k' Hk'. simpl.
  destruct (decide (k = k')) as [<-|Hne].
  - rewrite lookup_insert_eq. by rewrite Hkv.
  - rewrite lookup_insert_ne by done. by apply Hs.
Qed.

Ltac flag_side :=
  first [ by intros _
        | let Hin := fresh in
          intros Hin; exfalso; revert Hin; apply not_flag; reflexivity ].

(** One step of a proof that a run preserves a property of the state
    or emits events of one kind only. *)
Ltac frame_step :=
  first
    [ apply preserves_bind; [|intros ?]
    | apply emits_bind; [|intros ?]
    | apply preserves_ret | apply emits_ret
    | apply preserves_raise | apply emits_raise
    | apply preserves_lift | apply emits_lift
    | apply preserves_try | apply emits_try
    | apply preserves_emit
    | apply preserves_getenv | apply emits_getenv
    | apply preserves_get_venv | apply emits_get_venv
    | apply preserves_exists | apply emits_exists
    | apply emits_emit; [done]
    | apply emits_setenv; [done]
    | apply emits_assign_status; [done]
    | apply emits_assign_argv; [done]
    | apply emits_ensure_dir; [done]
    | apply emits_touch; [done]
    | apply emits_copy; [done]
    | apply preserves_setenv; [blind]
    | apply preserves_assign_status; [blind]
    | apply preserves_assign_argv; [blind]
    | apply preserves_ensure_dir; [blind]
    | apply preserves_touch; [blind]
    | apply preserves_copy; [blind]
    | apply preserves_flags_setenv; [flag_side]
    | apply emits_setenv; [flag_side]
    | assumption
    | solve [auto]
    | progress case_match ].

Ltac frame := repeat frame_step.

Section PluginRules.
Context `{Host}.
Implicit Types (P : State -> Prop) (Q : event -> Prop).

Lemma preserves_pcall P req : fs_blind P -> preserves P (pcall req).
Proof. intros HP s Hs. by apply HP. Qed.

Lemma preserves_make_emptydir P p : fs_blind P -> preserves P (session_make_emptydir p).
Proof. intros HP s Hs. by apply HP. Qed.

Lemma emits_make_emptydir Q p :
  Q (EvMakeEmptyDir p) -> emits Q (session_make_emptydir p).
Proof. intros Hev s. by repeat constructor. Qed.

Lemma emits_pcall Q req : (forall r, Q (EvPcall req r)) -> emits Q (pcall req).
Proof. intros Hev s. by repeat constructor. Qed.

Lemma preserves_clone_pipfile P v : fs_blind P -> preserves P (_clone_pipfile v).
Proof. intros HP. unfold _clone_pipfile. frame. Qed.

Lemma emits_clone_pipfile Q v :
  (forall p, Q (EvEnsureDir p)) -> (forall p, Q (EvTouch p)) ->
  (forall p q, Q (EvCopy p q)) -> emits Q (_clone_pipfile v).
Proof. intros H1 H2 H3. unfold _clone_pipfile. frame. Qed.

Lemma clone_pipfile_no_calls v s : calls (out_evs (_clone_pipfile v s)) = [].
Proof. apply calls_not_call. by apply emits_clone_pipfile. Qed.

End PluginRules.

(** ** The flag variables *)

Section Flags.
Context `{Host}.

Lemma init_pipenv_environ_run s :
  exists s', _init_pipenv_environ s = Out (Ok tt) s' init_events /\
             flags_set s' /\ fs s' = fs s /\ venv s' = venv s.
Proof.
  eexists. split; [reflexivity|]. split; [|done].
  intros k Hk. simpl.
  unfold flag_vars in Hk. rewrite !elem_of_cons in Hk.
  destruct Hk as [->|[->|[->|Hk]]]; [by simplify_map_eq..|by apply elem_of_nil in Hk].
Qed.

Lemma emits_init_pipenv_environ : emits keeps_flags _init_pipenv_environ.
Proof. unfold _init_pipenv_environ. frame. Qed.

Lemma preserves_flags_wrap {A} v pipfile_path (body : M A) :
  preserves flags_set body ->
  preserves flags_set (wrap_pipenv_environment v pipfile_path body).
Proof. intros Hbody. unfold wrap_pipenv_environment. frame. Qed.

Lemma emits_flags_wrap {A} v pipfile_path (body : M A) :
  emits keeps_flags body ->
  emits keeps_flags (wrap_pipenv_environment v pipfile_path body).
Proof. intros Hbody. unfold wrap_pipenv_environment. frame. Qed.

Lemma preserves_flags_command redirect action i argv :
  preserves flags_set (runtest_command redirect action i argv).
Proof.
  unfold runtest_command, runtest_except, runtest_argv, report, setactivity.
  frame; apply preserves_pcall; blind.
Qed.

Lemma emits_flags_command redirect action i argv :
  emits keeps_flags (runtest_command redirect action i argv).
Proof.
  unfold runtest_command, runtest_except, runtest_argv, report, setactivity.
  frame; by apply emits_pcall.
Qed.

Lemma preserves_flags_loop redirect action pending :
  forall i, preserves flags_set (runtest_loop redirect action i pending).
Proof.
  induction pending as [|argv rest IH]; intros i; simpl.
  - apply preserves_ret.
  - apply preserves_bind; [apply preserves_flags_command|].
    intros []; [apply IH|apply preserves_ret].
Qed.

Lemma emits_flags_loop redirect action pending :
  forall i, emits keeps_flags (runtest_loop redirect action i pending).
Proof.
  induction pending as [|argv rest IH]; intros i; simpl.
  - apply emits_ret.
  - apply emits_bind; [apply emits_flags_command|].
    intros []; [apply IH|apply emits_ret].
Qed.

(** A hook that begins with [_init_pipenv_environ] and goes on with
    code that leaves the flags alone. *)
Lemma flags_ok_hook {A} (rest : M A) s :
  preserves flags_set rest -> emits keeps_flags rest ->
  flags_ok ((_init_pipenv_environ ;; rest) s).
Proof.
  intros Hp He. destruct (init_pipenv_environ_run s) as (s' & Hrun & Hs' & _).
  rewrite (bind_ok _ _ _ _ _ _ Hrun). repeat split.
  - by eexists.
  - unfold after. cbn [out_evs]. apply Forall_app. split; [|apply He].
    pose proof (emits_init_pipenv_environ s) as Hi. by rewrite Hrun in Hi.
  - by apply Hp.
Qed.

End Flags.

(** C9.  Each of the four hooks begins by assigning ["1"] to
    PIPENV_ACTIVE, PIPENV_IGNORE_VIRTUALENVS and PIPENV_YES, nothing in
    the run of a hook assigns them another value or removes them, and
    all three are ["1"] in the process environment when the hook ends,
    whether it returns or raises. *)
Theorem hooks_keep_flags `{Host} (action : string) (redirect : bool) (s : State) :
  flags_ok (tox_testenv_create action s) /\
  flags_ok (tox_testenv_install_deps action s) /\
  flags_ok (tox_runtest redirect s) /\
  flags_ok (tox_runenvreport action s).
Proof.
  split; [|split; [|split]]; apply flags_ok_hook.
  all: unfold setactivity; frame.
  all: try (apply preserves_clone_pipfile; blind).
  all: try (by apply emits_clone_pipfile).
  all: try (apply preserves_flags_wrap; frame).
  all: try (apply emits_flags_wrap; frame).
  all: try (apply preserves_make_emptydir; blind).
  all: try (by apply emits_make_emptydir).
  all: try (apply preserves_pcall; blind).
  all: try (by apply emits_pcall).
  all: try apply preserves_flags_loop.
  all: try apply emits_flags_loop.
Qed.

(** ** The context manager *)

Lemma path_str_not_empty (p : path) : path_str p <> EmptyString.
Proof. by destruct p. Qed.

Lemma overlay_value_not_empty v pipfile_path k :
  overlay_value v pipfile_path k <> EmptyString.
Proof. unfold overlay_value. case_decide; apply path_str_not_empty. Qed.

Lemma truthy_spec (old : option string) :
  truthy old = true <-> exists val, old = Some val /\ val <> EmptyString.
Proof.
  split.
  - destruct old as [[|a val]|]; try done. intros _. by eexists.
  - intros (val & -> & Hval). by destruct val.
Qed.

Lemma overlay_vars_cases (k : string) :
  k ∈ overlay_vars ->
  k = "PIPENV_PIPFILE" \/ k = "PIPENV_VIRTUALENV" \/ k = "VIRTUAL_ENV".
Proof.
  unfold overlay_vars. rewrite !elem_of_cons.
  intros [->|[->|[->|Hk]]]; auto. by apply elem_of_nil in Hk.
Qed.

(** The context manager runs the body in the overlay; when the body
    raises, that is the end of it. *)
Lemma wrap_enter {A} (v : VirtualEnv) (pipfile_path : path) (body : M A) (s : State) :
  exists rest : A -> M A,
    wrap_pipenv_environment v pipfile_path body s =
      after (overlay_events v pipfile_path)
            (bind body rest (inside_overlay v pipfile_path s)) /\
    rest = (fun a =>
      (if truthy (environ s !! "PIPENV_PIPFILE")
       then setenv "PIPENV_PIPFILE" (default EmptyString (environ s !! "PIPENV_PIPFILE"))
       else ret tt) ;;
      (if truthy (environ s !! "PIPENV_VIRTUALENV")
       then setenv "PIPENV_VIRTUALENV" (default EmptyString (environ s !! "PIPENV_VIRTUALENV"))
       else ret tt) ;;
      (if truthy (environ s !! "VIRTUAL_ENV")
       then setenv "VIRTUAL_ENV" (default EmptyString (environ s !! "VIRTUAL_ENV"))
       else ret tt) ;;
      ret a).
Proof.
  eexists. split; [|reflexivity].
  unfold wrap_pipenv_environment.
  cbn [bind getenv setenv after out_res out_st out_evs].
  change (with_environ _ (with_environ _ (with_environ _ s)))
    with (inside_overlay v pipfile_path s).
  by destruct (bind body _ (inside_overlay v pipfile_path s)).
Qed.

Lemma wrap_raise {A} (v : VirtualEnv) (pipfile_path : path) (body : M A) (s : State)
    e s2 evs :
  body (inside_overlay v pipfile_path s) = Out (Raise e) s2 evs ->
  wrap_pipenv_environment v pipfile_path body s =
    Out (Raise e) s2 (overlay_events v pipfile_path ++ evs).
Proof.
  intros Hbody. destruct (wrap_enter v pipfile_path body s) as (rest & -> & _).
  by rewrite (bind_raise _ _ _ _ _ _ Hbody).
Qed.

(** On a normal exit each overlay variable is assigned its old value
    when that was a non-empty string, and left as the body left it
    otherwise. *)
Lemma wrap_exit {A} (v : VirtualEnv) (pipfile_path : path) (body : M A)
    (s : State) (a : A) s2 evs :
  body (inside_overlay v pipfile_path s) = Out (Ok a) s2 evs ->
  exists s3 evs3,
    wrap_pipenv_environment v pipfile_path body s =
      Out (Ok a) s3 (overlay_events v pipfile_path ++ evs ++ evs3) /\
    Forall not_call evs3 /\ fs s3 = fs s2 /\ venv s3 = venv s2 /\
    forall k, k ∈ overlay_vars ->
      environ s3 !! k =
        if truthy (environ s !! k) then environ s !! k else environ s2 !! k.
Proof.
  intros Hbody. destruct (wrap_enter v pipfile_path body s) as (rest & -> & ->).
  rewrite (bind_ok _ _ _ _ _ _ Hbody).
  destruct (truthy (environ s !! "PIPENV_PIPFILE")) eqn:E1;
    destruct (truthy (environ s !! "PIPENV_VIRTUALENV")) eqn:E2;
    destruct (truthy (environ s !! "VIRTUAL_ENV")) eqn:E3;
    cbn [bind ret setenv after out_res out_st out_evs];
    (do 2 eexists; split; [reflexivity|]);
    (split; [by repeat constructor|]); (split; [done|]); (split; [done|]);
    intros k Hk; apply overlay_vars_cases in Hk;
    destruct Hk as [-> | [-> | ->]];
    rewrite ?E1, ?E2, ?E3;
    repeat match goal with
      | Ht : truthy ?o = true |- _ =>
          apply truthy_spec in Ht as (? & Ht & _); rewrite ?Ht
      end;
    by simplify_map_eq.
Qed.

(** C1, as amended.  After an overlay scope that exits normally, each of
    PIPENV_PIPFILE, PIPENV_VIRTUALENV and VIRTUAL_ENV that had a
    non-empty value before the scope was entered has that value again. *)
Theorem overlay_restores_nonempty {A} (v : VirtualEnv) (pipfile_path : path)
    (body : M A) (s : State) (k val : string) :
  let o := wrap_pipenv_environment v pipfile_path body s in
  k ∈ overlay_vars -> (exists a, out_res o = Ok a) ->
  environ s !! k = Some val -> val <> EmptyString ->
  environ (out_st o) !! k = environ s !! k.
Proof.
  intros o Hk [a Ha] Hold Hval. subst o.
  destruct (body (inside_overlay v pipfile_path s)) as [[a'|e] s2 evs] eqn:Hb.
  - destruct (wrap_exit _ _ _ _ _ _ _ Hb) as (s3 & evs3 & -> & _ & _ & _ & Henv).
    cbn [out_st]. rewrite (Henv k Hk).
    assert (truthy (environ s !! k) = true) as -> by (apply truthy_spec; eauto).
    done.
  - by rewrite (wrap_raise _ _ _ _ _ _ _ Hb) in Ha.
Qed.

Lemma overlay_restores_nonempty_witness :
  let s := demo_state {[ "VIRTUAL_ENV" := "/home/me/venv" ]} (demo_venv [] false false) in
  let o := wrap_pipenv_environment (venv s) ["proj"; ".tox"; "py"; "Pipfile"] (ret tt) s in
  environ s !! "VIRTUAL_ENV" = Some "/home/me/venv" /\
  environ (out_st o) !! "VIRTUAL_ENV" = environ s !! "VIRTUAL_ENV".
Proof.
  intros s o. split; [reflexivity|].
  apply (overlay_restores_nonempty (venv s) ["proj"; ".tox"; "py"; "Pipfile"]
           (ret tt) s "VIRTUAL_ENV" "/home/me/venv").
  - unfold overlay_vars. rewrite !elem_of_cons. auto.
  - exists tt. reflexivity.
  - reflexivity.
  - discriminate.
Defined.

(** C10.  After an overlay scope that exits normally, a variable among
    PIPENV_PIPFILE, PIPENV_VIRTUALENV and VIRTUAL_ENV that was the empty
    string before the scope holds the value the scope gave it (the body
    not having assigned it), not the empty string, exactly as a variable
    that was absent before the scope does. *)
Theorem overlay_stays_after_empty {A} (v : VirtualEnv) (pipfile_path : path)
    (body : M A) (s : State) (k : string) :
  let o := wrap_pipenv_environment v pipfile_path body s in
  k ∈ overlay_vars ->
  (forall t, environ (out_st (body t)) !! k = environ t !! k) ->
  (exists a, out_res o = Ok a) ->
  environ s !! k = Some EmptyString \/ environ s !! k = None ->
  environ (out_st o) !! k = Some (overlay_value v pipfile_path k) /\
  environ (out_st o) !! k <> Some EmptyString.
Proof.
  intros o Hk Hbody [a Ha] Hold. subst o.
  destruct (body (inside_overlay v pipfile_path s)) as [[a'|e] s2 evs] eqn:Hb.
  - destruct (wrap_exit _ _ _ _ _ _ _ Hb) as (s3 & evs3 & -> & _ & _ & _ & Henv).
    cbn [out_st]. rewrite (Henv k Hk).
    assert (truthy (environ s !! k) = false) as ->
      by (by destruct Hold as [-> | ->]).
    pose proof (Hbody (inside_overlay v pipfile_path s)) as Hk2.
    rewrite Hb in Hk2. cbn [out_st] in Hk2. rewrite Hk2.
    assert (environ (inside_overlay v pipfile_path s) !! k
            = Some (overlay_value v pipfile_path k)) as ->.
    { apply overlay_vars_cases in Hk. unfold overlay_value.
      destruct Hk as [-> | [-> | ->]]; by simplify_map_eq. }
    split; [done|]. intros [= Hempty].
    by apply overlay_value_not_empty in Hempty.
  - by rewrite (wrap_raise _ _ _ _ _ _ _ Hb) in Ha.
Qed.

Lemma overlay_stays_after_empty_witness :
  let s := demo_state {[ "VIRTUAL_ENV" := EmptyString ]} (demo_venv [] false false) in
  let o := wrap_pipenv_environment (venv s) ["proj"; ".tox"; "py"; "Pipfile"] (ret tt) s in
  environ s !! "VIRTUAL_ENV" = Some EmptyString /\
  environ (out_st o) !! "VIRTUAL_ENV" = Some "/proj/.tox/py" /\
  environ (out_st o) !! "VIRTUAL_ENV" <> Some EmptyString.
Proof.
  intros s o. split; [reflexivity|].
  apply (overlay_stays_after_empty (venv s) ["proj"; ".tox"; "py"; "Pipfile"]
           (ret tt) s "VIRTUAL_ENV").
  - unfold overlay_vars. rewrite !elem_of_cons. auto.
  - intros t. reflexivity.
  - exists tt. reflexivity.
  - left. reflexivity.
Defined.

(** C1 fails on two runs.  A variable that was absent before the scope
    is set after a normal exit; and when the invocation inside the scope
    raises, a variable that had a value before the scope is left with
    the value of the overlay. *)
Lemma overlay_not_restored :
  (let s := demo_state ∅ (demo_venv [] false false) in
   let o := wrap_pipenv_environment (venv s) ["proj"; ".tox"; "py"; "Pipfile"]
              (ret tt) s in
   out_res o = Ok tt /\
   environ s !! "PIPENV_PIPFILE" = None /\
   environ (out_st o) !! "PIPENV_PIPFILE" = Some "/proj/.tox/py/Pipfile" /\
   environ (out_st o) !! "PIPENV_PIPFILE" <> environ s !! "PIPENV_PIPFILE") /\
  (let s := demo_state {[ "PIPENV_PIPFILE" := "/home/me/Pipfile" ]}
              (demo_venv [] false false) in
   let o := @tox_testenv_create
              (script_host (fun _ => Raise (InvocationError "pipenv"))) "create" s in
   out_res o = Raise (InvocationError "pipenv") /\
   environ s !! "PIPENV_PIPFILE" = Some "/home/me/Pipfile" /\
   environ (out_st o) !! "PIPENV_PIPFILE" = Some "/proj/.tox/py/Pipfile" /\
   environ (out_st o) !! "PIPENV_PIPFILE" <> environ s !! "PIPENV_PIPFILE").
Proof. vm_compute. repeat split; discriminate. Qed.

(** ** Cloning the Pipfile *)

Lemma ensure_dirs_keeps (ps : list path) (f : FS) (q : path) (n : node) :
  f !! q = Some n -> (ensure_dirs ps f).2 !! q = Some n.
Proof.
  revert f. induction ps as [|p ps IH]; intros f Hq; simpl; [done|].
  destruct (f !! p) as [[c|]|] eqn:Hp; simpl; [done|by apply IH|].
  apply IH. rewrite lookup_insert_ne; [done|]. intros ->. congruence.
Qed.

Lemma ensure_dirs_other (ps : list path) (f : FS) (q : path) :
  q ∉ ps -> (ensure_dirs ps f).2 !! q = f !! q.
Proof.
  revert f. induction ps as [|p ps IH]; intros f Hq; simpl; [done|].
  apply not_elem_of_cons in Hq as [Hne Hq].
  destruct (f !! p) as [[c|]|] eqn:Hp; simpl; [done|by apply IH|].
  rewrite IH by done. by rewrite lookup_insert_ne.
Qed.

Lemma ensure_dirs_ok (ps : list path) (f : FS) :
  (forall p c, p ∈ ps -> f !! p <> Some (File c)) ->
  (ensure_dirs ps f).1 = true /\
  forall p, p ∈ ps -> (ensure_dirs ps f).2 !! p = Some Dir.
Proof.
  revert f. induction ps as [|p ps IH]; intros f Hf; simpl.
  - split; [done|]. intros p Hp. by apply elem_of_nil in Hp.
  - destruct (f !! p) as [[c|]|] eqn:Hp.
    + exfalso. eapply Hf; [left|done].
    + destruct (IH f) as [Hok Hdirs].
      { intros p' c Hp'. apply Hf. by right. }
      split; [done|]. intros p' [->|Hp']%elem_of_cons; [|by apply Hdirs].
      by apply ensure_dirs_keeps.
    + destruct (IH (<[p := Dir]> f)) as [Hok Hdirs].
      { intros p' c Hp'. destruct (decide (p = p')) as [<-|Hne].
        - by rewrite lookup_insert_eq.
        - rewrite lookup_insert_ne by done. apply Hf. by right. }
      split; [done|]. intros p' [->|Hp']%elem_of_cons; [|by apply Hdirs].
      apply ensure_dirs_keeps. by rewrite lookup_insert_eq.
Qed.

Lemma elem_of_path_prefixes (p q : path) :
  q ∈ path_prefixes p <-> q <> [] /\ q `prefix_of` p.
Proof.
  unfold path_prefixes. rewrite list_elem_of_fmap. split.
  - intros (n & -> & Hn). apply elem_of_seq in Hn. split.
    + destruct p; simpl in *; [lia|]. destruct n; [lia|done].
    + exists (drop n p). by rewrite take_drop.
  - intros [Hq [r ->]]. exists (length q). split.
    + by rewrite take_app_length.
    + apply elem_of_seq. rewrite length_app. destruct q; simpl; [done|lia].
Qed.

Lemma path_join_not_prefix (p : path) (name : string) :
  ~ path_join p name `prefix_of` p.
Proof.
  unfold path_join. intros [r Hr]. apply (f_equal length) in Hr.
  rewrite !length_app in Hr. simpl in Hr. lia.
Qed.

Lemma dirpath_join (p : path) (name : string) : dirpath (path_join p name) = p.
Proof. unfold dirpath, path_join. apply removelast_last. Qed.

Lemma path_join_not_root (p : path) (name : string) : path_join p name <> [].
Proof. unfold path_join. by destruct p. Qed.

Lemma path_exists_join (f : FS) (p : path) (name : string) :
  path_exists f (path_join p name) = bool_decide (is_Some (f !! path_join p name)).
Proof.
  pose proof (path_join_not_root p name). unfold path_exists.
  by destruct (path_join p name).
Qed.

Lemma is_dir_join (f : FS) (p : path) (name : string) :
  is_dir f (path_join p name) = bool_decide (f !! path_join p name = Some Dir).
Proof.
  pose proof (path_join_not_root p name). unfold is_dir.
  by destruct (path_join p name).
Qed.

Lemma is_dir_keeps (f f' : FS) (p : path) :
  (forall n, f !! p = Some n -> f' !! p = Some n) ->
  is_dir f p = true -> is_dir f' p = true.
Proof.
  intros Hkeep. unfold is_dir. destruct p; [done|].
  rewrite !bool_decide_eq_true. apply Hkeep.
Qed.

Lemma touch_keeps (p : path) (s : State) (q : path) (n : node) :
  fs s !! q = Some n -> fs (out_st (touch p s)) !! q = Some n.
Proof.
  intros Hq. unfold touch. repeat case_match; simpl; try done.
  rewrite lookup_insert_ne; [done|]. intros ->. congruence.
Qed.

Lemma touch_new (p : path) (s : State) :
  fs s !! p = None -> p <> [] -> is_dir (fs s) (dirpath p) = true ->
  touch p s = Out (Ok tt) (with_fs (<[p := File EmptyString]> (fs s)) s) [EvTouch p].
Proof.
  intros Hp Hne Hdir. unfold touch.
  assert (is_dir (fs s) p = false) as ->.
  { unfold is_dir. destruct p; [done|]. by rewrite Hp, bool_decide_eq_false_2. }
  by rewrite Hp, Hdir.
Qed.

Lemma copy_new (src dst : path) (s : State) (c : string) :
  fs s !! src = Some (File c) -> fs s !! dst = None -> dst <> [] ->
  is_dir (fs s) (dirpath dst) = true ->
  copy src dst s = Out (Ok tt) (with_fs (<[dst := File c]> (fs s)) s) [EvCopy src dst].
Proof.
  intros Hsrc Hdst Hne Hdir. unfold copy. rewrite Hsrc.
  assert (is_dir (fs s) dst = false) as Hnd.
  { unfold is_dir. destruct dst; [done|]. by rewrite Hdst, bool_decide_eq_false_2. }
  cbv zeta. rewrite Hnd. cbv iota. rewrite Hnd, Hdir. cbn [andb negb].
  rewrite bool_decide_eq_true_2; [done|]. intros ->. congruence.
Qed.

Lemma clone_pipfile_keeps (v : VirtualEnv) (s : State) (n : node) :
  fs s !! path_join (venv_path v) "Pipfile" = Some n ->
  fs (out_st (_clone_pipfile v s)) !! path_join (venv_path v) "Pipfile" = Some n.
Proof.
  intros Hn. unfold _clone_pipfile.
  set (root := path_join (toxinidir v) "Pipfile").
  unfold ensure_dir, exists_.
  cbn [bind after out_res out_st out_evs].
  set (r := ensure_dirs (path_prefixes (venv_path v)) (fs s)).
  assert (Hr : fs (with_fs r.2 s) !! path_join (venv_path v) "Pipfile" = Some n)
    by by apply ensure_dirs_keeps.
  destruct (r.1); [|done].
  cbn [bind after out_res out_st out_evs].
  generalize dependent (with_fs r.2 s). intros s1 Hs1.
  assert (Hstep : forall s2, fs s2 !! path_join (venv_path v) "Pipfile" = Some n ->
    fs (out_st ((venv_exists <- exists_ (path_join (venv_path v) "Pipfile") ;;
                 (if negb venv_exists
                  then copy root (path_join (venv_path v) "Pipfile") else ret tt) ;;
                 ret (path_join (venv_path v) "Pipfile")) s2))
       !! path_join (venv_path v) "Pipfile" = Some n).
  { intros s2 Hs2. unfold exists_. cbn [bind after out_res out_st out_evs].
    rewrite path_exists_join, bool_decide_eq_true_2 by eauto. done. }
  destruct (negb (path_exists (fs s1) root)).
  - pose proof (touch_keeps root s1 _ n Hs1) as Ht.
    unfold bind at 1. destruct (touch root s1) as [[[]|e] s2 evs2]; [|done].
    cbn [after out_st]. by apply Hstep.
  - cbn [bind ret after out_res out_st out_evs]. by apply Hstep.
Qed.

Lemma with_fs_same (s : State) : with_fs (fs s) s = s.
Proof. by destruct s. Qed.

(** The second half of the cloning step, from a state in which the
    root Pipfile is a file. *)
Lemma clone_pipfile_copy (root vpf : path) (s : State) (c : string) :
  fs s !! root = Some (File c) -> vpf <> [] ->
  is_dir (fs s) (dirpath vpf) = true ->
  exists f evs,
    (venv_exists <- exists_ vpf ;;
     (if negb venv_exists then copy root vpf else ret tt) ;;
     ret vpf) s = Out (Ok vpf) (with_fs f s) evs /\
    f !! root = Some (File c) /\
    (fs s !! vpf = None -> f !! vpf = Some (File c)).
Proof.
  intros Hroot Hne Hdir. unfold exists_. cbn [bind after out_res out_st out_evs].
  assert (path_exists (fs s) vpf = bool_decide (is_Some (fs s !! vpf))) as ->
    by (by destruct vpf).
  destruct (fs s !! vpf) as [n|] eqn:Hv.
  - rewrite bool_decide_eq_true_2 by eauto.
    cbn [negb bind ret after out_res out_st out_evs app].
    exists (fs s), []. rewrite with_fs_same. done.
  - rewrite bool_decide_eq_false_2 by (by intros [? ?]). cbn [negb].
    rewrite (bind_ok _ _ _ _ _ _ (copy_new root vpf s c Hroot Hv Hne Hdir)).
    cbn [negb bind ret after out_res out_st out_evs app].
    do 2 eexists. split; [reflexivity|].
    split; [|intros _; by rewrite lookup_insert_eq].
    rewrite lookup_insert_ne; [done|]. intros <-. congruence.
Qed.

Lemma clone_pipfile_run (v : VirtualEnv) (s : State) :
  let root := path_join (toxinidir v) "Pipfile" in
  let venv_pipfile := path_join (venv_path v) "Pipfile" in
  is_dir (fs s) (toxinidir v) = true ->
  fs s !! root <> Some Dir ->
  ~ root `prefix_of` venv_path v ->
  (forall q c, q `prefix_of` venv_path v -> fs s !! q <> Some (File c)) ->
  exists f evs c,
    _clone_pipfile v s = Out (Ok venv_pipfile) (with_fs f s) evs /\
    f !! root = Some (File c) /\
    (fs s !! root = None -> c = EmptyString) /\
    (forall c0, fs s !! root = Some (File c0) -> c = c0) /\
    (fs s !! venv_pipfile = None -> f !! venv_pipfile = Some (File c)).
Proof.
  cbv zeta. intros Htox Hnd Hnp Hens. unfold _clone_pipfile.
  set (root := path_join (toxinidir v) "Pipfile") in *.
  set (vpf := path_join (venv_path v) "Pipfile") in *.
  unfold ensure_dir. cbn [bind after out_res out_st out_evs].
  destruct (ensure_dirs_ok (path_prefixes (venv_path v)) (fs s)) as [Hok Hdirs].
  { intros p c Hp%elem_of_path_prefixes. apply Hens, Hp. }
  set (r := ensure_dirs (path_prefixes (venv_path v)) (fs s)) in *.
  rewrite Hok. cbn [bind after out_res out_st out_evs].
  assert (Froot : fs (with_fs r.2 s) !! root = fs s !! root).
  { apply ensure_dirs_other. intros Hin%elem_of_path_prefixes. by apply Hnp, Hin. }
  assert (Fvpf : fs (with_fs r.2 s) !! vpf = fs s !! vpf).
  { apply ensure_dirs_other. intros Hin%elem_of_path_prefixes.
    by apply (path_join_not_prefix (venv_path v) "Pipfile"), Hin. }
  assert (Fvdir : is_dir (fs (with_fs r.2 s)) (venv_path v) = true).
  { unfold is_dir. destruct (venv_path v) as [|x p] eqn:Hp; [done|].
    apply bool_decide_eq_true_2, Hdirs, elem_of_path_prefixes. done. }
  assert (Ftdir : is_dir (fs (with_fs r.2 s)) (toxinidir v) = true).
  { eapply is_dir_keeps; [|done]. intros n. apply ensure_dirs_keeps. }
  assert (Hrv : root <> venv_path v) by (intros Heq; apply Hnp; by rewrite Heq).
  assert (Hs1 : exists f1, with_fs r.2 s = with_fs f1 s) by eauto.
  generalize dependent (with_fs r.2 s). intros s1 Froot Fvpf Fvdir Ftdir [f1 Hf1].
  unfold exists_ at 1. cbn [bind after out_res out_st out_evs].
  unfold root at 1. rewrite path_exists_join. fold root.
  assert (Hvne : vpf <> []) by apply path_join_not_root.
  destruct (fs s !! root) as [[c0|]|] eqn:Hr0; [|done|].
  - rewrite bool_decide_eq_true_2 by (rewrite Froot; eauto). cbn [negb].
    unfold bind at 1. cbn [ret].
    destruct (clone_pipfile_copy root vpf s1 c0) as (f & evs & -> & Hfr & Hfv);
      [congruence|done|by unfold vpf; rewrite dirpath_join|].
    subst s1. do 3 eexists. split; [reflexivity|]. split; [done|].
    split; [done|]. split; [by intros c1 [= ->]|].
    intros Hv. apply Hfv. by rewrite Fvpf.
  - rewrite bool_decide_eq_false_2 by (rewrite Froot; by intros [? ?]). cbn [negb].
    assert (Hnew : touch root s1 = Out (Ok tt)
              (with_fs (<[root := File EmptyString]> (fs s1)) s1) [EvTouch root]).
    { apply touch_new; [congruence|apply path_join_not_root|].
      by unfold root; rewrite dirpath_join. }
    rewrite (bind_ok _ _ _ _ _ _ Hnew).
    destruct (clone_pipfile_copy root vpf
                (with_fs (<[root := File EmptyString]> (fs s1)) s1) EmptyString)
      as (f & evs & -> & Hfr & Hfv).
    { cbn [with_fs fs]. by rewrite lookup_insert_eq. }
    { done. }
    { unfold vpf. rewrite dirpath_join. eapply is_dir_keeps; [|exact Fvdir].
      intros n Hn. cbn [with_fs fs]. by rewrite lookup_insert_ne. }
    subst s1. do 3 eexists. split; [reflexivity|]. split; [done|].
    split; [done|]. split; [done|].
    intros Hv. destruct (decide (root = vpf)) as [Heq|Hneq].
    + by rewrite <- Heq.
    + apply Hfv. cbn [with_fs fs]. rewrite lookup_insert_ne by done.
      etrans; [exact Fvpf|exact Hv].
Qed.

(** C2.  After the cloning step a per-environment Pipfile that was
    there before is as it was.  Moreover, when the project root is a
    directory, the root Pipfile is not one, and nothing stands in the
    way of the environment directory: the step returns the path of the
    per-environment Pipfile; a root Pipfile that was absent exists and
    is empty; and a per-environment Pipfile that was absent exists with
    the content of the root Pipfile, which is the content the root
    Pipfile had before, or empty when it had to be created. *)
Theorem clone_pipfile_spec (v : VirtualEnv) (s : State) :
  let root := path_join (toxinidir v) "Pipfile" in
  let venv_pipfile := path_join (venv_path v) "Pipfile" in
  let o := _clone_pipfile v s in
  (forall n, fs s !! venv_pipfile = Some n -> fs (out_st o) !! venv_pipfile = Some n) /\
  (is_dir (fs s) (toxinidir v) = true ->
   fs s !! root <> Some Dir ->
   ~ root `prefix_of` venv_path v ->
   (forall q c, q `prefix_of` venv_path v -> fs s !! q <> Some (File c)) ->
   out_res o = Ok venv_pipfile /\
   (fs s !! root = None -> fs (out_st o) !! root = Some (File EmptyString)) /\
   (fs s !! venv_pipfile = None ->
    exists c, fs (out_st o) !! venv_pipfile = Some (File c) /\
              fs (out_st o) !! root = Some (File c) /\
              (forall c0, fs s !! root = Some (File c0) -> c = c0))).
Proof.
  cbv zeta. split; [intros n; apply clone_pipfile_keeps|].
  intros Htox Hnd Hnp Hens.
  destruct (clone_pipfile_run v s Htox Hnd Hnp Hens)
    as (f & evs & c & -> & Hroot & Hnew & Hold & Hvpf).
  cbn [out_res out_st with_fs fs]. split; [done|]. split.
  - intros Hr. by rewrite Hroot, (Hnew Hr).
  - intros Hv. exists c. auto.
Qed.


Lemma clone_pipfile_spec_witness :
  let v := demo_venv [] false false in
  let s := with_fs {[ ["proj"] := Dir; ["proj"; "Pipfile"] := File "[packages]" ]}
             (demo_state ∅ v) in
  let o := _clone_pipfile v s in
  out_res o = Ok ["proj"; ".tox"; "py"; "Pipfile"] /\
  fs s !! ["proj"; ".tox"; "py"; "Pipfile"] = None /\
  fs (out_st o) !! ["proj"; ".tox"; "py"; "Pipfile"] = Some (File "[packages]") /\
  fs (out_st o) !! ["proj"; "Pipfile"] = Some (File "[packages]").
Proof.
  intros v s o. destruct (clone_pipfile_spec v s) as [_ Hspec].
  destruct Hspec as (Hres & _ & Hcopy).
  - reflexivity.
  - vm_compute. discriminate.
  - intros [k Hk]. discriminate Hk.
  - intros q c [k Hk].
    destruct q as [|a [|b [|d [|e q]]]]; simplify_eq/=; vm_compute; discriminate.
  - split; [exact Hres|]. split; [reflexivity|].
    destruct Hcopy as (c & Hv & Hr & Hc); [reflexivity|].
    rewrite (Hc "[packages]" eq_refl) in Hv, Hr. by split.
Defined.

(** ** The test commands *)

Section Commands.
Context `{Host}.

Lemma runtest_argv_cons (i : nat) (tok : string) (rest : list string) (s : State) :
  let argv := tok :: rest in
  runtest_argv i argv s =
    Out (Ok (ignore_ret_of argv, stripped argv)) (argv_state i argv s)
        (argv_events i argv).
Proof.
  unfold runtest_argv, argv_state, argv_events, ignore_ret_of, stripped.
  destruct (startswith tok "-"); [|done].
  by destruct (decide (tok = "-")).
Qed.

Lemma except_returned (out : string) (s : State) :
  runtest_except (Ok out) s = Out (Ok Continue) s [].
Proof. reflexivity. Qed.

Lemma except_invocation_error (err : string) (s : State) :
  runtest_except (Raise (InvocationError err)) s =
    Out (Ok (if ignore_outcome (venv s) then Continue
             else if ignore_errors (venv s) then Continue else Break))
        (with_venv (set_status (fail_status (venv s)) (venv s)) s)
        [EvReport (if ignore_outcome (venv s) then Warning else Error)
                  (if ignore_outcome (venv s) then warning_text err else err);
         EvSetStatus (fail_status (venv s))].
Proof.
  unfold runtest_except, fail_status.
  cbn [bind get_venv after out_res out_st out_evs].
  destruct (ignore_outcome (venv s)); [done|].
  by destruct (ignore_errors (venv s)).
Qed.

Lemma except_interrupt (s : State) :
  runtest_except (Raise KeyboardInterrupt) s =
    Out (Raise KeyboardInterrupt)
        (with_venv (set_status "keyboardinterrupt" (venv s)) s)
        [EvSetStatus "keyboardinterrupt"; EvReport Error "keyboardinterrupt"].
Proof. reflexivity. Qed.

Lemma except_other (e : exn) (s : State) :
  ~ returns_or_fails (Raise e) -> e <> KeyboardInterrupt ->
  runtest_except (Raise e) s = Out (Raise e) s [].
Proof. by destruct e. Qed.

Lemma runtest_command_nil (redirect : bool) (action : string) (i : nat) (s : State) :
  runtest_command redirect action i [] s =
    Out (Raise IndexError) s [EvSetActivity action "runtests" (command_msg i [])].
Proof. reflexivity. Qed.

Lemma runtest_command_cons (redirect : bool) (action : string) (i : nat)
    (tok : string) (rest : list string) (s : State) :
  let argv := tok :: rest in
  let s1 := argv_state i argv s in
  let req := run_request redirect action (venv s) argv in
  let r := _pcall req (environ s1) (fs s1) in
  runtest_command redirect action i argv s =
    after (EvSetActivity action "runtests" (command_msg i argv)
             :: argv_events i argv ++ [EvPcall req r.1])
          (runtest_except r.1 (with_fs r.2 s1)).
Proof.
  cbv zeta. unfold runtest_command.
  cbn [bind get_venv setactivity emit after out_res out_st out_evs].
  rewrite (bind_ok _ _ _ _ _ _ (runtest_argv_cons i tok rest s)).
  unfold try, pcall.
  cbn [bind after out_res out_st out_evs fst snd].
  unfold after, run_request, command_msg. cbn [out_res out_st out_evs app].
  f_equal. f_equal. by rewrite <- app_assoc.
Qed.

Lemma emits_except Q (r : result string) :
  (forall lvl msg, Q (EvReport lvl msg)) -> (forall st, Q (EvSetStatus st)) ->
  emits Q (runtest_except r).
Proof. intros Hr Hs. unfold runtest_except, report. frame. Qed.

Lemma except_no_calls (r : result string) (s : State) :
  calls (out_evs (runtest_except r s)) = [].
Proof. apply calls_not_call. by apply emits_except. Qed.

Lemma argv_events_no_calls (i : nat) (argv : list string) :
  calls (argv_events i argv) = [].
Proof. unfold argv_events. by destruct (ignore_ret_of argv). Qed.

(** A command that is not empty is invoked once. *)
Lemma runtest_command_calls (redirect : bool) (action : string) (i : nat)
    (tok : string) (rest : list string) (s : State) :
  let argv := tok :: rest in
  let s1 := argv_state i argv s in
  let req := run_request redirect action (venv s) argv in
  calls (out_evs (runtest_command redirect action i argv s)) =
    [(req, (_pcall req (environ s1) (fs s1)).1)].
Proof.
  cbv zeta. rewrite runtest_command_cons. unfold after. cbn [out_evs].
  rewrite calls_app, except_no_calls, app_nil_r.
  change (EvSetActivity ?a ?n ?m :: ?l) with ([EvSetActivity a n m] ++ l).
  by rewrite !calls_app, argv_events_no_calls.
Qed.

(** The three cases of the first token [tok] of a command: what is
    left of the command, and the request made for it. *)
Lemma stripped_cases (tok : string) (rest : list string) :
  (tok = "-" -> stripped (tok :: rest) = rest) /\
  (startswith tok "-" = true -> tok <> "-" ->
   exists n t, tok = str_replicate (S n) dash +:+ t /\ startswith t "-" = false /\
               stripped (tok :: rest) = t :: rest) /\
  (startswith tok "-" = false -> stripped (tok :: rest) = tok :: rest).
Proof.
  unfold stripped. split; [|split].
  - intros ->. simpl startswith. by rewrite decide_True.
  - intros Hdash Hne. rewrite Hdash, decide_False by done.
    destruct (startswith_dash_inv _ Hdash) as [tok' ->].
    destruct (lstrip_spec dash (String dash tok')) as (n & Hn & Hstrip).
    destruct n as [|n].
    { exfalso. simpl in Hn. by apply (Hstrip tok'). }
    exists n, (lstrip dash (String dash tok')).
    split; [done|]. split; [|done].
    destruct (lstrip dash (String dash tok')) as [|a t] eqn:E; [done|].
    rewrite startswith_dash_cons. apply bool_decide_eq_false_2.
    intros ->. by apply (Hstrip t).
  - by intros ->.
Qed.

Lemma run_request_cases (redirect : bool) (action : string) (v : VirtualEnv)
    (tok : string) (rest : list string) :
  let call ignore_ret argv :=
    mk_pcall ([sys_executable; "-m"; "pipenv"; "run"] ++ argv)
             (changedir v) action (Some redirect) (Some ignore_ret) in
  let req := run_request redirect action v (tok :: rest) in
  (tok = "-" -> req = call true rest) /\
  (startswith tok "-" = true -> tok <> "-" ->
   exists n t, tok = str_replicate (S n) dash +:+ t /\ startswith t "-" = false /\
               req = call true (t :: rest)) /\
  (startswith tok "-" = false -> req = call false (tok :: rest)).
Proof.
  cbv zeta. unfold run_request, ignore_ret_of.
  destruct (stripped_cases tok rest) as (Hone & Hmore & Hnone).
  split; [|split].
  - intros Htok. rewrite (Hone Htok). by subst tok.
  - intros Hdash Hne. destruct (Hmore Hdash Hne) as (n & t & Htok & Ht & ->).
    exists n, t. by rewrite Hdash.
  - intros Hdash. by rewrite (Hnone Hdash), Hdash.
Qed.

(** The loop body, for a command with first token [tok]: the flag and
    the tokens [runtest_argv] gives, and the one call made for them. *)
Lemma runtest_command_dash_prefix (redirect : bool) (action : string) (i : nat)
    (tok : string) (rest : list string) (s : State) :
  let o := runtest_command redirect action i (tok :: rest) s in
  let call ignore_ret argv r :=
    (mk_pcall ([sys_executable; "-m"; "pipenv"; "run"] ++ argv)
              (changedir (venv s)) action (Some redirect) (Some ignore_ret), r) in
  (tok = "-" ->
   out_res (runtest_argv i (tok :: rest) s) = Ok (true, rest) /\
   exists r, calls (out_evs o) = [call true rest r]) /\
  (startswith tok "-" = true -> tok <> "-" ->
   exists n t r,
     tok = str_replicate (S n) dash +:+ t /\ startswith t "-" = false /\
     out_res (runtest_argv i (tok :: rest) s) = Ok (true, t :: rest) /\
     calls (out_evs o) = [call true (t :: rest) r]) /\
  (startswith tok "-" = false ->
   out_res (runtest_argv i (tok :: rest) s) = Ok (false, tok :: rest) /\
   exists r, calls (out_evs o) = [call false (tok :: rest) r]).
Proof.
  cbv zeta. rewrite runtest_command_calls, runtest_argv_cons.
  unfold run_request, ignore_ret_of, stripped. cbn [out_res].
  split; [|split].
  - intros ->. simpl startswith. rewrite decide_True by done. eauto.
  - intros Hdash Hne. rewrite Hdash, decide_False by done.
    destruct (startswith_dash_inv _ Hdash) as [tok' ->].
    destruct (lstrip_spec dash (String dash tok')) as (n & Hn & Hstrip).
    destruct n as [|n].
    { exfalso. simpl in Hn. by apply (Hstrip tok'). }
    exists n, (lstrip dash (String dash tok')). eexists.
    split; [done|]. split; [|done].
    destruct (lstrip dash (String dash tok')) as [|a t] eqn:E; [done|].
    rewrite startswith_dash_cons. apply bool_decide_eq_false_2.
    intros ->. by apply (Hstrip t).
  - intros Hdash. rewrite Hdash. eauto.
Qed.

End Commands.

(** ** Runs of the loop *)

Lemma with_venv_same (s : State) : with_venv (venv s) s = s.
Proof. by destruct s. Qed.

Lemma set_status_config (st : string) (v : VirtualEnv) :
  same_config v (set_status st v).
Proof. by repeat split. Qed.

Lemma set_commands_config (cs : list (list string)) (v : VirtualEnv) :
  same_config v (set_commands cs v).
Proof. by repeat split. Qed.

Lemma same_config_refl (v : VirtualEnv) : same_config v v.
Proof. by repeat split. Qed.

Lemma same_config_trans (v1 v2 v3 : VirtualEnv) :
  same_config v1 v2 -> same_config v2 v3 -> same_config v1 v3.
Proof.
  unfold same_config. intros (?&?&?&?&?&?&?) (?&?&?&?&?&?&?).
  repeat split; congruence.
Qed.

Lemma same_config_fail_status (v v' : VirtualEnv) :
  same_config v v' -> fail_status v' = fail_status v.
Proof. unfold same_config, fail_status. intros (?&?&?&?&->&?&?). done. Qed.

Lemma argv_state_config (i : nat) (argv : list string) (s : State) :
  same_config (venv s) (venv (argv_state i argv s)).
Proof.
  unfold argv_state. destruct (ignore_ret_of argv);
    [apply set_commands_config|apply same_config_refl].
Qed.

Lemma argv_state_status (i : nat) (argv : list string) (s : State) :
  status (venv (argv_state i argv s)) = status (venv s).
Proof. unfold argv_state. by destruct (ignore_ret_of argv). Qed.

Lemma step_venv_config (v : VirtualEnv) (r : result string) :
  same_config v (step_venv v r).
Proof.
  destruct r as [out|[]]; simpl;
    first [apply same_config_refl | apply set_status_config].
Qed.

Lemma step_venv_commands (v : VirtualEnv) (r : result string) :
  commands (step_venv v r) = commands v.
Proof. by destruct r as [out|[]]. Qed.

Lemma step_ctl_config (v v' : VirtualEnv) (r : result string) :
  same_config v v' -> step_ctl v' r = step_ctl v r.
Proof.
  unfold same_config. intros (?&?&?&?&Hio&Hie&?).
  destruct r as [out|[]]; simpl; try done. by rewrite Hio, Hie.
Qed.

Lemma step_events_config (v v' : VirtualEnv) (r : result string) :
  same_config v v' -> step_events v' r = step_events v r.
Proof.
  intros Hc. pose proof (same_config_fail_status _ _ Hc) as Hf.
  destruct Hc as (_&_&_&_&Hio&_&_).
  destruct r as [out|[]]; simpl; try done. by rewrite Hio, Hf.
Qed.

Lemma step_events_no_calls (v : VirtualEnv) (r : result string) :
  calls (step_events v r) = [].
Proof. by destruct r as [out|[]]. Qed.

Lemma except_run (r : result string) (s : State) :
  runtest_except r s =
    Out (step_ctl (venv s) r) (with_venv (step_venv (venv s) r) s)
        (step_events (venv s) r).
Proof.
  destruct r as [out|[err| | | |]].
  - simpl. by rewrite with_venv_same.
  - rewrite except_invocation_error. unfold step_ctl, step_venv, step_events.
    done.
  - done.
  - simpl. by rewrite with_venv_same.
  - simpl. by rewrite with_venv_same.
  - simpl. by rewrite with_venv_same.
Qed.

Section RunLemmas.
Context `{Host}.
Variables (redirect : bool) (action : string).

Lemma runtest_command_run (i : nat) (tok : string) (tl : list string) (s : State) :
  runtest_command redirect action i (tok :: tl) s =
    Out (step_ctl (venv s) (command_result redirect action i (tok :: tl) s))
        (command_state redirect action i (tok :: tl) s)
        (command_events redirect action i (tok :: tl) s).
Proof.
  rewrite runtest_command_cons. cbv zeta. rewrite except_run.
  unfold after, command_state, command_events, command_result.
  cbn [out_res out_st out_evs with_fs venv]. f_equal.
  - apply step_ctl_config, argv_state_config.
  - cbn [app]. f_equal. by rewrite <- app_assoc.
Qed.

Lemma loop_runs (pending : list (list string)) :
  forall i s, loop_run redirect action i pending s
                (runtest_loop redirect action i pending s).
Proof.
  induction pending as [|[|tok tl] rest IH]; intros i s.
  - apply run_done.
  - apply run_empty.
  - simpl runtest_loop. unfold bind at 1. rewrite runtest_command_run.
    destruct (step_ctl _ _) as [[|]|e] eqn:Hctl.
    + by apply run_continue.
    + unfold after, ret. cbn [out_res out_st out_evs]. rewrite app_nil_r.
      by apply run_break.
    + by apply run_raise.
Qed.

Lemma run_request_config (v v' : VirtualEnv) (argv : list string) :
  same_config v v' ->
  run_request redirect action v' argv = run_request redirect action v argv.
Proof. unfold same_config, run_request. intros (?&?&?&?&?&?&->). done. Qed.

Lemma command_calls (i : nat) (argv : list string) (s : State) :
  calls (command_events redirect action i argv s) =
    [(run_request redirect action (venv s) argv,
      command_result redirect action i argv s)].
Proof.
  unfold command_events. cbv zeta.
  change (EvSetActivity ?a ?n ?m :: ?l) with ([EvSetActivity a n m] ++ l).
  by rewrite !calls_app, argv_events_no_calls, step_events_no_calls.
Qed.

Lemma command_state_config (i : nat) (argv : list string) (s : State) :
  same_config (venv s) (venv (command_state redirect action i argv s)).
Proof.
  unfold command_state. cbn [with_venv venv].
  eapply same_config_trans; [apply argv_state_config|apply step_venv_config].
Qed.

Lemma command_state_commands (i : nat) (argv : list string) (s : State) :
  commands (venv (command_state redirect action i argv s)) =
    if ignore_ret_of argv then <[i := stripped argv]> (commands (venv s))
    else commands (venv s).
Proof.
  unfold command_state. cbn [with_venv venv]. rewrite step_venv_commands.
  unfold argv_state. by destruct (ignore_ret_of argv).
Qed.

Lemma command_state_status (i : nat) (argv : list string) (s : State) :
  status (venv (command_state redirect action i argv s)) =
    match command_result redirect action i argv s with
    | Raise (InvocationError _) => fail_status (venv s)
    | Raise KeyboardInterrupt => "keyboardinterrupt"
    | _ => status (venv s)
    end.
Proof.
  unfold command_state. cbn [with_venv venv].
  pose proof (same_config_fail_status _ _ (argv_state_config i argv s)) as Hf.
  pose proof (argv_state_status i argv s) as Hs.
  destruct (command_result redirect action i argv s) as [out|[]]; simpl; congruence.
Qed.

(** The events of an iteration, around the call. *)
Lemma command_events_split (i : nat) (argv : list string) (s : State) :
  exists pre,
    calls pre = [] /\
    command_events redirect action i argv s =
      pre ++ [EvPcall (run_request redirect action (venv s) argv)
                      (command_result redirect action i argv s)]
          ++ step_events (venv s) (command_result redirect action i argv s).
Proof.
  exists (EvSetActivity action "runtests" (command_msg i argv) :: argv_events i argv).
  split; [apply argv_events_no_calls|].
  unfold command_events. cbv zeta. cbn [app]. do 3 f_equal.
  apply step_events_config, argv_state_config.
Qed.

Lemma run_config i pending s o :
  loop_run redirect action i pending s o -> same_config (venv s) (venv (out_st o)).
Proof.
  induction 1; cbn [after out_st];
    first [ apply same_config_refl
          | apply command_state_config
          | eapply same_config_trans; [apply command_state_config|done] ].
Qed.

(** The call number [k] of the loop is the call for the command
    number [k] of the commands to come. *)
Lemma run_requests i pending s o :
  loop_run redirect action i pending s o ->
  forall k req r, calls (out_evs o) !! k = Some (req, r) ->
  exists argv, pending !! k = Some argv /\
               req = run_request redirect action (venv s) argv.
Proof.
  induction 1 as [i s|i rest s|i tok tl rest s o Hctl Hrun IH|i tok tl rest s Hctl
                 |i tok tl rest s e Hctl]; intros k req r Hk; cbn [after out_evs] in Hk.
  - done.
  - done.
  - rewrite calls_app, command_calls in Hk. destruct k as [|k]; simpl in Hk.
    + injection Hk as <- <-. eauto.
    + destruct (IH _ _ _ Hk) as (argv & Hargv & ->). exists argv. split; [done|].
      apply run_request_config, command_state_config.
  - rewrite command_calls in Hk. destruct k as [|k]; [|done].
    injection Hk as <- <-. eauto.
  - rewrite command_calls in Hk. destruct k as [|k]; [|done].
    injection Hk as <- <-. eauto.
Qed.

Ltac run_induction Hk :=
  induction 1 as [i s|i rest s|i tok tl rest s o Hctl Hrun IH|i tok tl rest s Hctl
                 |i tok tl rest s e Hctl];
  intros *; intros Hk; cbn [after out_res out_st out_evs] in *;
  rewrite ?calls_app, ?command_calls in *.

(** An interrupted call ends the loop: the status is assigned and
    logged, the interrupt is raised, nothing follows. *)
Lemma run_interrupt i pending s o :
  loop_run redirect action i pending s o ->
  forall k req, calls (out_evs o) !! k = Some (req, Raise KeyboardInterrupt) ->
  out_res o = Raise KeyboardInterrupt /\
  status (venv (out_st o)) = "keyboardinterrupt" /\
  length (calls (out_evs o)) = S k /\
  exists pre, out_evs o =
    pre ++ [EvPcall req (Raise KeyboardInterrupt);
            EvSetStatus "keyboardinterrupt"; EvReport Error "keyboardinterrupt"].
Proof.
  run_induction Hk; try done.
  - destruct k as [|k]; simpl in Hk.
    + injection Hk as <- Hr. by rewrite Hr in Hctl.
    + destruct (IH _ _ Hk) as (Hres & Hst & Hlen & pre & Hpre).
      repeat split; [done|done|by simpl; rewrite Hlen|].
      exists (command_events redirect action i (tok :: tl) s ++ pre).
      by rewrite Hpre, app_assoc.
  - destruct k as [|k]; [|done]. injection Hk as <- Hr. by rewrite Hr in Hctl.
  - destruct k as [|k]; [|done]. injection Hk as <- Hr.
    rewrite Hr in Hctl. injection Hctl as <-.
    rewrite command_state_status, Hr. repeat split; try done.
    destruct (command_events_split i (tok :: tl) s) as (pre & _ & ->).
    rewrite Hr. by exists pre.
Qed.

(** A call that fails with an invocation error is followed by the log
    entry and the status. *)
Lemma run_failure i pending s o :
  loop_run redirect action i pending s o ->
  forall k req err,
  calls (out_evs o) !! k = Some (req, Raise (InvocationError err)) ->
  exists pre post,
    out_evs o = pre ++ [EvPcall req (Raise (InvocationError err))]
                    ++ step_events (venv s) (Raise (InvocationError err)) ++ post /\
    length (calls pre) = k.
Proof.
  run_induction Hk; try done.
  - destruct k as [|k]; simpl in Hk.
    + injection Hk as <- Hr.
      destruct (command_events_split i (tok :: tl) s) as (pre & Hpre & ->).
      rewrite Hr. exists pre, (out_evs o).
      split; [by rewrite <- !app_assoc|by rewrite Hpre].
    + destruct (IH _ _ _ Hk) as (pre & post & -> & Hlen).
      exists (command_events redirect action i (tok :: tl) s ++ pre), post.
      split.
      * rewrite <- !app_assoc. do 4 f_equal.
        apply step_events_config, command_state_config.
      * by rewrite calls_app, command_calls, length_app, Hlen.
  - destruct k as [|k]; [|done]. injection Hk as <- Hr.
    destruct (command_events_split i (tok :: tl) s) as (pre & Hpre & ->).
    rewrite Hr. exists pre, []. by rewrite app_nil_r, Hpre.
  - destruct k as [|k]; [|done]. injection Hk as <- Hr. by rewrite Hr in Hctl.
Qed.

(** Without [ignore_outcome] and [ignore_errors], a call that fails
    with an invocation error is the last one. *)
Lemma run_failure_stops i pending s o :
  loop_run redirect action i pending s o ->
  forall k req err,
  calls (out_evs o) !! k = Some (req, Raise (InvocationError err)) ->
  ignore_outcome (venv s) = false -> ignore_errors (venv s) = false ->
  length (calls (out_evs o)) = S k /\ out_res o = Ok tt /\
  status (venv (out_st o)) = "commands failed".
Proof.
  run_induction Hk; intros Hio Hie; try done.
  - destruct k as [|k]; simpl in Hk.
    + injection Hk as <- Hr. rewrite Hr in Hctl. simpl in Hctl.
      by rewrite Hio, Hie in Hctl.
    + destruct (command_state_config i (tok :: tl) s) as (_&_&_&_&Hio'&Hie'&_).
      destruct (IH _ _ _ Hk) as (Hlen & Hres & Hst); [congruence..|].
      cbn [app length]. by rewrite Hlen.
  - destruct k as [|k]; [|done]. injection Hk as <- Hr.
    rewrite command_state_status, Hr. unfold fail_status. by rewrite Hio.
  - destruct k as [|k]; [|done]. injection Hk as <- Hr. by rewrite Hr in Hctl.
Qed.

(** With [ignore_outcome] or [ignore_errors], when no command is empty
    and no call raises anything but an invocation error, every command
    is invoked and the loop ends normally. *)
Lemma run_all i pending s o :
  loop_run redirect action i pending s o ->
  ignore_outcome (venv s) = true \/ ignore_errors (venv s) = true ->
  Forall (fun argv => argv <> []) pending ->
  (forall c, c ∈ calls (out_evs o) -> returns_or_fails c.2) ->
  out_res o = Ok tt /\ length (calls (out_evs o)) = length pending.
Proof.
  induction 1 as [i s|i rest s|i tok tl rest s o Hctl Hrun IH|i tok tl rest s Hctl
                 |i tok tl rest s e Hctl];
    intros Hflags Hne Hcalls; cbn [after out_res out_st out_evs] in *;
    rewrite ?calls_app, ?command_calls in *.
  - done.
  - by inversion Hne.
  - destruct (command_state_config i (tok :: tl) s) as (_&_&_&_&Hio'&Hie'&_).
    destruct IH as [Hres Hlen].
    + by rewrite Hio', Hie'.
    + by inversion Hne.
    + intros c Hc. apply Hcalls. rewrite elem_of_app. by right.
    + by rewrite length_app, Hlen.
  - exfalso. destruct (command_result redirect action i (tok :: tl) s) as [out|[]];
      simpl in Hctl; try done.
    destruct Hflags as [Hf|Hf]; rewrite Hf in Hctl; [done|].
    by destruct (ignore_outcome (venv s)).
  - exfalso. specialize (Hcalls _ (list_elem_of_here _ _)). simpl in Hcalls.
    destruct (command_result redirect action i (tok :: tl) s) as [out|[]];
      simpl in *; done.
Qed.

(** When no call raises anything but an invocation error, the status at
    the end is the one a failing command leaves, or every call returned
    and the status is as it was. *)
Lemma run_status i pending s o :
  loop_run redirect action i pending s o ->
  (forall c, c ∈ calls (out_evs o) -> returns_or_fails c.2) ->
  (Forall (fun c => returned c.2) (calls (out_evs o)) /\
   status (venv (out_st o)) = status (venv s)) \/
  status (venv (out_st o)) = fail_status (venv s).
Proof.
  induction 1 as [i s|i rest s|i tok tl rest s o Hctl Hrun IH|i tok tl rest s Hctl
                 |i tok tl rest s e Hctl];
    intros Hcalls; cbn [after out_res out_st out_evs] in *;
    rewrite ?calls_app, ?command_calls in *.
  - by left.
  - by left.
  - pose proof (command_state_status i (tok :: tl) s) as Hst.
    pose proof (same_config_fail_status _ _ (command_state_config i (tok :: tl) s))
      as Hf.
    destruct IH as [[Hall Hsame]|Hfail].
    + intros c Hc. apply Hcalls. rewrite elem_of_app. by right.
    + destruct (command_result redirect action i (tok :: tl) s) as [out|[]] eqn:Hr;
        try done.
      * left. split; [|congruence]. apply Forall_app. split; [|done].
        by repeat constructor.
      * right. congruence.
    + right. congruence.
  - right. rewrite command_state_status.
    destruct (command_result redirect action i (tok :: tl) s) as [out|[]]; done.
  - exfalso. specialize (Hcalls _ (list_elem_of_here _ _)). simpl in Hcalls.
    destruct (command_result redirect action i (tok :: tl) s) as [out|[]];
      simpl in *; done.
Qed.

Lemma stripped_no_dash (argv : list string) :
  ignore_ret_of argv = false -> stripped argv = argv.
Proof. destruct argv as [|tok tl]; [done|]. simpl. by intros ->. Qed.

(** The commands that were invoked are stored stripped, the others as
    they were. *)
Lemma run_commands_calls i pending s o :
  loop_run redirect action i pending s o ->
  forall before, commands (venv s) = before ++ pending -> length before = i ->
  commands (venv (out_st o)) =
    before ++ (stripped <$> take (length (calls (out_evs o))) pending)
           ++ drop (length (calls (out_evs o))) pending.
Proof.
  assert (Hstep : forall j tok tl rest t before,
    commands (venv t) = before ++ (tok :: tl) :: rest -> length before = j ->
    commands (venv (command_state redirect action j (tok :: tl) t)) =
      (before ++ [stripped (tok :: tl)]) ++ rest).
  { intros j tok tl rest t before Hcs Hlen. rewrite command_state_commands, Hcs.
    rewrite <- app_assoc. cbn [app].
    destruct (ignore_ret_of (tok :: tl)) eqn:Hdash.
    - rewrite insert_app_r_alt by lia. by rewrite Hlen, Nat.sub_diag.
    - by rewrite stripped_no_dash. }
  induction 1 as [i s|i rest s|i tok tl rest s o Hctl Hrun IH|i tok tl rest s Hctl
                 |i tok tl rest s e Hctl];
    intros before Hcs Hlen; cbn [after out_res out_st out_evs];
    rewrite ?calls_app, ?command_calls.
  - by rewrite Hcs.
  - by rewrite Hcs.
  - rewrite (IH (before ++ [stripped (tok :: tl)])).
    + by rewrite <- app_assoc.
    + by apply Hstep.
    + rewrite length_app. simpl. lia.
  - rewrite (Hstep _ _ _ _ _ _ Hcs Hlen). by rewrite <- app_assoc.
  - rewrite (Hstep _ _ _ _ _ _ Hcs Hlen). by rewrite <- app_assoc.
Qed.

(** When every call returns and no command is empty, the loop goes
    through all the commands and leaves the status alone. *)
Lemma run_returned i pending s o :
  loop_run redirect action i pending s o ->
  Forall (fun argv => argv <> []) pending ->
  Forall (fun c => returned c.2) (calls (out_evs o)) ->
  out_res o = Ok tt /\ length (calls (out_evs o)) = length pending /\
  status (venv (out_st o)) = status (venv s).
Proof.
  induction 1 as [i s|i rest s|i tok tl rest s o Hctl Hrun IH|i tok tl rest s Hctl
                 |i tok tl rest s e Hctl];
    intros Hne Hret; cbn [after out_res out_st out_evs] in *;
    rewrite ?calls_app, ?command_calls in *.
  - done.
  - by inversion Hne.
  - apply Forall_app in Hret as [Hhead Htail].
    apply Forall_cons in Hhead as [Hhead _]. cbn [snd] in Hhead.
    destruct IH as (Hres & Hlen & Hst); [by inversion Hne|done|].
    split; [done|]. split; [by rewrite length_app, Hlen|].
    rewrite Hst, command_state_status.
    by destruct (command_result redirect action i (tok :: tl) s).
  - exfalso. apply Forall_cons in Hret as [Hhead _]. cbn [snd] in Hhead.
    by destruct (command_result redirect action i (tok :: tl) s) as [out|[]].
  - exfalso. apply Forall_cons in Hret as [Hhead _]. cbn [snd] in Hhead.
    by destruct (command_result redirect action i (tok :: tl) s) as [out|[]].
Qed.

(** A call is made for a command that is not empty. *)
Lemma run_calls_nonempty i pending s o :
  loop_run redirect action i pending s o ->
  forall k c, calls (out_evs o) !! k = Some c ->
  exists tok rest, pending !! k = Some (tok :: rest).
Proof.
  induction 1 as [i s|i rest s|i tok tl rest s o Hctl Hrun IH|i tok tl rest s Hctl
                 |i tok tl rest s e Hctl];
    intros k c Hk; cbn [after out_res out_st out_evs] in *;
    rewrite ?calls_app, ?command_calls in *; try done.
  - destruct k as [|k]; simpl in *; [eauto|]. by apply (IH k c).
  - destruct k as [|k]; [simpl; eauto|done].
  - destruct k as [|k]; [simpl; eauto|done].
Qed.

(** When the loop ends normally, every command has been invoked, or a
    call before it has failed with [ignore_outcome] and [ignore_errors]
    both off. *)
Lemma run_progress i pending s o :
  loop_run redirect action i pending s o ->
  out_res o = Ok tt ->
  forall k argv, pending !! k = Some argv ->
  (exists req r, calls (out_evs o) !! k = Some (req, r)) \/
  (exists j req err,
     j < k /\ calls (out_evs o) !! j = Some (req, Raise (InvocationError err)) /\
     ignore_outcome (venv s) = false /\ ignore_errors (venv s) = false).
Proof.
  induction 1 as [i s|i rest s|i tok tl rest s o Hctl Hrun IH|i tok tl rest s Hctl
                 |i tok tl rest s e Hctl];
    intros Hres k argv Hk; cbn [after out_res out_st out_evs] in *;
    rewrite ?calls_app, ?command_calls in *; try done.
  - destruct k as [|k]; [left; simpl; eauto|]. simpl in Hk.
    destruct (command_state_config i (tok :: tl) s) as (_&_&_&_&Hio&Hie&_).
    destruct (IH Hres k argv Hk) as [Hc|(j & req & err & Hj & Hc & Hio' & Hie')].
    + by left.
    + right. exists (S j), req, err. split; [lia|]. split; [done|]. split; congruence.
  - destruct k as [|k]; [left; simpl; eauto|]. right.
    destruct (command_result redirect action i (tok :: tl) s) as [out|[err| | | |]] eqn:Hr;
      simpl in Hctl; try done.
    exists 0, (run_request redirect action (venv s) (tok :: tl)), err.
    split; [lia|]. split; [done|].
    destruct (ignore_outcome (venv s)); [done|].
    by destruct (ignore_errors (venv s)).
Qed.

End RunLemmas.

(** ** The test hook *)

Section RunTest.
Context `{Host}.

(** The hook either fails before the loop, in the cloning step, or
    runs the loop in the overlay and restores afterwards. *)
Lemma tox_runtest_view (redirect : bool) (s : State) :
  let o := tox_runtest redirect s in
  (exists e, out_res o = Raise e /\ calls (out_evs o) = [] /\
             venv (out_st o) = venv s) \/
  (exists s1 pre post,
     let ol := runtest_loop redirect "runtests" 0 (commands (venv s)) s1 in
     venv s1 = venv s /\
     out_evs o = pre ++ out_evs ol ++ post /\
     calls pre = [] /\ calls post = [] /\
     venv (out_st o) = venv (out_st ol) /\
     out_res o = match out_res ol with Ok _ => Ok true | Raise e => Raise e end /\
     (forall e, out_res ol = Raise e -> post = [])).
Proof.
  cbv zeta. unfold tox_runtest.
  destruct (init_pipenv_environ_run s) as (s0 & Hinit & _ & _ & Hv0).
  rewrite (bind_ok _ _ _ _ _ _ Hinit).
  cbn [bind get_venv after out_res out_st out_evs]. rewrite Hv0.
  pose proof (clone_pipfile_no_calls (venv s) s0) as Hcalls.
  pose proof (preserves_clone_pipfile (fun t => venv t = venv s) (venv s)
                ltac:(blind) s0 Hv0) as Hv1.
  destruct (_clone_pipfile (venv s) s0) as [[pipfile_path|e] s1 evs1] eqn:Hclone;
    cbn [out_res out_st out_evs] in *.
  2:{ left. rewrite (bind_raise _ _ _ _ _ _ Hclone). cbn [out_res out_st out_evs].
      exists e. by rewrite !calls_app, Hcalls. }
  right. rewrite (bind_ok _ _ _ _ _ _ Hclone).
  cbn [bind emit after out_res out_st out_evs].
  set (body := (seed <- getenv "PYTHONHASHSEED" ;;
                setactivity "runtests" "runtests" ("PYTHONHASHSEED=" +:+ py_repr seed) ;;
                runtest_loop redirect "runtests" 0 (commands (venv s)))).
  set (s_in := inside_overlay (venv s) pipfile_path s1).
  set (hashseed := EvSetActivity "runtests" "runtests"
                     ("PYTHONHASHSEED=" +:+ py_repr (environ s_in !! "PYTHONHASHSEED"))).
  exists s_in.
  destruct (runtest_loop redirect "runtests" 0 (commands (venv s)) s_in)
    as [[[]|e] s2 evs2] eqn:Hloop; cbn [out_res out_st out_evs].
  - assert (Hbody : body s_in = Out (Ok tt) s2 ([hashseed] ++ evs2)).
    { unfold body. cbn [bind getenv setactivity emit after out_res out_st out_evs].
      by rewrite Hloop. }
    destruct (wrap_exit _ _ _ _ _ _ _ Hbody) as (s3 & evs3 & Hwrap & Hevs3 & _ & Hv3 & _).
    rewrite (bind_ok _ _ _ _ _ _ Hwrap).
    cbn [ret after out_res out_st out_evs].
    exists (init_events ++ evs1 ++ [EvNewAction "runtests"]
              ++ overlay_events (venv s) pipfile_path ++ [hashseed]), evs3.
    repeat split; try done.
    + rewrite <- !app_assoc. cbn [app]. by rewrite app_nil_r.
    + by rewrite !calls_app, Hcalls.
    + by apply calls_not_call.
  - assert (Hbody : body s_in = Out (Raise e) s2 ([hashseed] ++ evs2)).
    { unfold body. cbn [bind getenv setactivity emit after out_res out_st out_evs].
      by rewrite Hloop. }
    rewrite (bind_raise _ _ _ _ _ _ (wrap_raise _ _ _ _ _ _ _ Hbody)).
    cbn [out_res out_st out_evs].
    exists (init_events ++ evs1 ++ [EvNewAction "runtests"]
              ++ overlay_events (venv s) pipfile_path ++ [hashseed]), [].
    repeat split; try done.
    + rewrite <- !app_assoc. cbn [app]. by rewrite app_nil_r.
    + by rewrite !calls_app, Hcalls.
Qed.

(** The calls of the hook are the calls of its loop. *)
Lemma tox_runtest_loop (redirect : bool) (s : State) (i : nat)
    (c : pcall_request * result string) :
  let o := tox_runtest redirect s in
  calls (out_evs o) !! i = Some c ->
  exists s1 pre post ol,
    loop_run redirect "runtests" 0 (commands (venv s)) s1 ol /\
    venv s1 = venv s /\
    out_evs o = pre ++ out_evs ol ++ post /\
    calls pre = [] /\ calls post = [] /\
    calls (out_evs o) = calls (out_evs ol) /\
    venv (out_st o) = venv (out_st ol) /\
    out_res o = match out_res ol with Ok _ => Ok true | Raise e => Raise e end /\
    (forall e, out_res ol = Raise e -> post = []).
Proof.
  cbv zeta. intros Hc.
  destruct (tox_runtest_view redirect s)
    as [(e & _ & Hnone & _)|(s1 & pre & post & Hv & Hevs & Hpre & Hpost & Hrest)].
  { by rewrite Hnone in Hc. }
  exists s1, pre, post, (runtest_loop redirect "runtests" 0 (commands (venv s)) s1).
  split; [apply loop_runs|]. split; [done|]. split; [done|].
  split; [done|]. split; [done|]. split; [|done].
  by rewrite Hevs, !calls_app, Hpre, Hpost, app_nil_r.
Qed.

(** The stored commands after the hook. *)
Lemma tox_runtest_stored (redirect : bool) (s : State) :
  let o := tox_runtest redirect s in
  commands (venv (out_st o)) =
    (stripped <$> take (length (calls (out_evs o))) (commands (venv s)))
      ++ drop (length (calls (out_evs o))) (commands (venv s)).
Proof.
  cbv zeta.
  destruct (tox_runtest_view redirect s)
    as [(e & _ & -> & ->)|(s1 & pre & post & Hv & Hevs & Hpre & Hpost & -> & _)].
  - done.
  - pose proof (loop_runs redirect "runtests" (commands (venv s)) 0 s1) as Hrun.
    rewrite Hevs, !calls_app, Hpre, Hpost, app_nil_r. cbn [app].
    apply (run_commands_calls _ _ _ _ _ _ Hrun []); [by rewrite Hv|done].
Qed.

(** C3.  Every call of the test hook is the call for the command of
    the same index in the command list, which is not empty, with first
    token [tok]: when [tok] is ["-"], the call gets the command without
    that token and [ignore_ret] true; when [tok] starts with a dash and
    is longer, the call gets the command with the dashes at the front of
    [tok] removed, all of them, and [ignore_ret] true; otherwise the
    call gets the command as it is and [ignore_ret] false.  And the
    hook does call: when it returns, every command has been invoked,
    unless a call before it failed with [ignore_outcome] and
    [ignore_errors] both off. *)
Theorem runtest_dash_prefix (redirect : bool) (s : State) :
  let o := tox_runtest redirect s in
  let cmds := commands (venv s) in
  let call ignore_ret argv :=
    mk_pcall ([sys_executable; "-m"; "pipenv"; "run"] ++ argv)
             (changedir (venv s)) "runtests" (Some redirect) (Some ignore_ret) in
  (forall k req r, calls (out_evs o) !! k = Some (req, r) ->
     exists tok rest,
       cmds !! k = Some (tok :: rest) /\
       (tok = "-" -> req = call true rest) /\
       (startswith tok "-" = true -> tok <> "-" ->
        exists n t, tok = str_replicate (S n) dash +:+ t /\
                    startswith t "-" = false /\ req = call true (t :: rest)) /\
       (startswith tok "-" = false -> req = call false (tok :: rest))) /\
  (forall b, out_res o = Ok b ->
     forall k argv, cmds !! k = Some argv ->
       (exists req r, calls (out_evs o) !! k = Some (req, r)) \/
       (exists j req err,
          j < k /\
          calls (out_evs o) !! j = Some (req, Raise (InvocationError err)) /\
          ignore_outcome (venv s) = false /\ ignore_errors (venv s) = false)).
Proof.
  cbv zeta. split.
  - intros k req r Hk.
    destruct (tox_runtest_loop _ _ _ _ Hk)
      as (s1 & pre & post & ol & Hrun & Hv & _ & _ & _ & Hcalls & _).
    rewrite Hcalls in Hk.
    destruct (run_calls_nonempty _ _ _ _ _ _ Hrun _ _ Hk) as (tok & rest & Hcmd).
    destruct (run_requests _ _ _ _ _ _ Hrun _ _ _ Hk) as (argv & Hargv & ->).
    assert (argv = tok :: rest) as -> by congruence.
    exists tok, rest. split; [done|]. rewrite Hv.
    apply (run_request_cases redirect "runtests" (venv s) tok rest).
  - intros b Hres k argv Hk.
    destruct (tox_runtest_view redirect s)
      as [(e & He & _)|(s1 & pre & post & Hv & Hevs & Hpre & Hpost & _ & Hout & _)].
    { congruence. }
    pose proof (loop_runs redirect "runtests" (commands (venv s)) 0 s1) as Hrun.
    assert (Hcalls : calls (out_evs (tox_runtest redirect s)) =
                     calls (out_evs (runtest_loop redirect "runtests" 0
                                       (commands (venv s)) s1)))
      by (by rewrite Hevs, !calls_app, Hpre, Hpost, app_nil_r).
    rewrite Hcalls.
    assert (Hok : out_res (runtest_loop redirect "runtests" 0 (commands (venv s)) s1)
                  = Ok tt).
    { rewrite Hres in Hout.
      by destruct (out_res (runtest_loop redirect "runtests" 0 (commands (venv s)) s1))
        as [[]|e]. }
    destruct (run_progress _ _ _ _ _ _ Hrun Hok k argv Hk)
      as [Hc|(j & req & err & Hj & Hc & Hio & Hie)]; [by left|right].
    rewrite Hv in Hio, Hie. eauto 10.
Qed.

(** A call of the hook that fails with an invocation error is the call
    for the command of the same index, and is followed by the log entry
    and the status. *)
Lemma tox_runtest_failure (redirect : bool) (s : State) (i : nat)
    (req : pcall_request) (err : string) :
  let o := tox_runtest redirect s in
  calls (out_evs o) !! i = Some (req, Raise (InvocationError err)) ->
  (exists argv, commands (venv s) !! i = Some argv /\
                req = run_request redirect "runtests" (venv s) argv) /\
  exists pre post,
    out_evs o = pre ++ [EvPcall req (Raise (InvocationError err))]
                    ++ step_events (venv s) (Raise (InvocationError err)) ++ post /\
    length (calls pre) = i.
Proof.
  cbv zeta. intros Hi.
  destruct (tox_runtest_loop _ _ _ _ Hi)
    as (s1 & pre & post & ol & Hrun & Hv & Hevs & Hpre & Hpost & Hcalls & _).
  rewrite Hcalls in Hi. split.
  - destruct (run_requests _ _ _ _ _ _ Hrun _ _ _ Hi) as (argv & Hargv & ->).
    exists argv. by rewrite Hv.
  - destruct (run_failure _ _ _ _ _ _ Hrun _ _ _ Hi) as (pre' & post' & Hevs' & Hlen).
    exists (pre ++ pre'), (post' ++ post). split.
    + rewrite Hevs, Hevs', Hv, <- !app_assoc. done.
    + by rewrite calls_app, Hpre.
Qed.

(** With [ignore_outcome] or [ignore_errors], when no command is empty
    and no call raises anything but an invocation error, the hook
    returns, every command has been invoked, and the status is the one
    of a failed command once a call has failed. *)
Lemma tox_runtest_all (redirect : bool) (s : State) (i : nat)
    (req : pcall_request) (err : string) :
  let o := tox_runtest redirect s in
  calls (out_evs o) !! i = Some (req, Raise (InvocationError err)) ->
  ignore_outcome (venv s) = true \/ ignore_errors (venv s) = true ->
  Forall (fun argv => argv <> []) (commands (venv s)) ->
  Forall (fun c => returns_or_fails c.2) (calls (out_evs o)) ->
  out_res o = Ok true /\
  status (venv (out_st o)) = fail_status (venv s) /\
  forall j argv, commands (venv s) !! j = Some argv ->
    exists r, calls (out_evs o) !! j =
                Some (run_request redirect "runtests" (venv s) argv, r).
Proof.
  cbv zeta. intros Hi Hflags Hne Hall.
  destruct (tox_runtest_loop _ _ _ _ Hi)
    as (s1 & pre & post & ol & Hrun & Hv & Hevs & Hpre & Hpost & Hcalls & Hvenv
        & Hres & _).
  rewrite Hcalls in *. rewrite Forall_forall in Hall.
  destruct (run_all _ _ _ _ _ _ Hrun) as [Hok Hlen]; [by rewrite Hv|done|done|].
  split; [by rewrite Hres, Hok|]. split.
  - rewrite Hvenv, <- Hv.
    destruct (run_status _ _ _ _ _ _ Hrun Hall) as [[Hret _]|Hst]; [|done].
    rewrite Forall_lookup in Hret. by apply Hret in Hi.
  - intros j argv Hj.
    destruct (lookup_lt_is_Some_2 (calls (out_evs ol)) j) as [[req' r] Hc].
    { rewrite Hlen. by apply lookup_lt_Some in Hj. }
    destruct (run_requests _ _ _ _ _ _ Hrun _ _ _ Hc) as (argv' & Hargv' & ->).
    exists r. rewrite Hc, Hv. congruence.
Qed.

(** C4.  With [ignore_outcome] set, when the call for the command at
    index [i] fails with an invocation error: a warning is logged and
    the status is set to "ignored failed command", right after the
    call; and, no command being empty and no call raising anything but
    an invocation error, the hook returns with that status and every
    command of the list has been invoked, those after index [i]
    included. *)
Theorem runtest_ignore_outcome (redirect : bool) (s : State) (i : nat)
    (req : pcall_request) (err : string) :
  let o := tox_runtest redirect s in
  ignore_outcome (venv s) = true ->
  calls (out_evs o) !! i = Some (req, Raise (InvocationError err)) ->
  (exists argv, commands (venv s) !! i = Some argv /\
                req = run_request redirect "runtests" (venv s) argv) /\
  (exists pre post,
     out_evs o = pre ++ [EvPcall req (Raise (InvocationError err));
                         EvReport Warning (warning_text err);
                         EvSetStatus "ignored failed command"] ++ post /\
     length (calls pre) = i) /\
  (Forall (fun argv => argv <> []) (commands (venv s)) ->
   Forall (fun c => returns_or_fails c.2) (calls (out_evs o)) ->
   out_res o = Ok true /\
   status (venv (out_st o)) = "ignored failed command" /\
   forall j argv, commands (venv s) !! j = Some argv ->
     exists r, calls (out_evs o) !! j =
                 Some (run_request redirect "runtests" (venv s) argv, r)).
Proof.
  cbv zeta. intros Hio Hi.
  destruct (tox_runtest_failure _ _ _ _ _ Hi) as [Hargv (pre & post & Hevs & Hlen)].
  split; [done|]. split.
  - exists pre, post. split; [|done]. rewrite Hevs. simpl.
    unfold fail_status. by rewrite Hio.
  - intros Hne Hall.
    destruct (tox_runtest_all _ _ _ _ _ Hi (or_introl Hio) Hne Hall)
      as (Hres & Hst & Hcmds).
    split; [done|]. split; [|done]. rewrite Hst. unfold fail_status. by rewrite Hio.
Qed.

(** C5.  Without [ignore_outcome], when the call for the command at
    index [i] fails with an invocation error: an error is logged and the
    status is set to "commands failed", right after the call.  Without
    [ignore_errors] that call is the last one, and the hook returns with
    that status.  With [ignore_errors], no command being empty and no
    call raising anything but an invocation error, the hook returns with
    that status and every command of the list has been invoked. *)
Theorem runtest_commands_failed (redirect : bool) (s : State) (i : nat)
    (req : pcall_request) (err : string) :
  let o := tox_runtest redirect s in
  ignore_outcome (venv s) = false ->
  calls (out_evs o) !! i = Some (req, Raise (InvocationError err)) ->
  (exists argv, commands (venv s) !! i = Some argv /\
                req = run_request redirect "runtests" (venv s) argv) /\
  (exists pre post,
     out_evs o = pre ++ [EvPcall req (Raise (InvocationError err));
                         EvReport Error err;
                         EvSetStatus "commands failed"] ++ post /\
     length (calls pre) = i) /\
  (ignore_errors (venv s) = false ->
   length (calls (out_evs o)) = S i /\
   out_res o = Ok true /\
   status (venv (out_st o)) = "commands failed") /\
  (ignore_errors (venv s) = true ->
   Forall (fun argv => argv <> []) (commands (venv s)) ->
   Forall (fun c => returns_or_fails c.2) (calls (out_evs o)) ->
   out_res o = Ok true /\
   status (venv (out_st o)) = "commands failed" /\
   forall j argv, commands (venv s) !! j = Some argv ->
     exists r, calls (out_evs o) !! j =
                 Some (run_request redirect "runtests" (venv s) argv, r)).
Proof.
  cbv zeta. intros Hio Hi.
  destruct (tox_runtest_failure _ _ _ _ _ Hi) as [Hargv (pre & post & Hevs & Hlen)].
  split; [done|]. split; [|split].
  - exists pre, post. split; [|done]. rewrite Hevs. simpl.
    unfold fail_status. by rewrite Hio.
  - intros Hie.
    destruct (tox_runtest_loop _ _ _ _ Hi)
      as (s1 & pre' & post' & ol & Hrun & Hv & _ & _ & _ & Hcalls & Hvenv & Hres & _).
    rewrite Hcalls in *.
    destruct (run_failure_stops _ _ _ _ _ _ Hrun _ _ _ Hi) as (Hl & Hok & Hst);
      [by rewrite Hv..|].
    by rewrite Hres, Hok, Hvenv.
  - intros Hie Hne Hall.
    destruct (tox_runtest_all _ _ _ _ _ Hi (or_intror Hie) Hne Hall)
      as (Hres & Hst & Hcmds).
    split; [done|]. split; [|done]. rewrite Hst. unfold fail_status. by rewrite Hio.
Qed.

(** C6.  When the call for the command at index [i] is interrupted,
    whatever [i] and the flags: the status is set to "keyboardinterrupt"
    and logged as an error, right after the call; nothing follows; and
    the hook raises the interrupt, with that status. *)
Theorem runtest_interrupt (redirect : bool) (s : State) (i : nat)
    (req : pcall_request) :
  let o := tox_runtest redirect s in
  calls (out_evs o) !! i = Some (req, Raise KeyboardInterrupt) ->
  (exists argv, commands (venv s) !! i = Some argv /\
                req = run_request redirect "runtests" (venv s) argv) /\
  out_res o = Raise KeyboardInterrupt /\
  status (venv (out_st o)) = "keyboardinterrupt" /\
  length (calls (out_evs o)) = S i /\
  exists pre,
    out_evs o = pre ++ [EvPcall req (Raise KeyboardInterrupt);
                        EvSetStatus "keyboardinterrupt";
                        EvReport Error "keyboardinterrupt"].
Proof.
  cbv zeta. intros Hi.
  destruct (tox_runtest_loop _ _ _ _ Hi)
    as (s1 & pre & post & ol & Hrun & Hv & Hevs & Hpre & Hpost & Hcalls & Hvenv
        & Hres & Hraise).
  rewrite Hcalls in *. split.
  - destruct (run_requests _ _ _ _ _ _ Hrun _ _ _ Hi) as (argv & Hargv & ->).
    exists argv. by rewrite Hv.
  - destruct (run_interrupt _ _ _ _ _ _ Hrun _ _ Hi) as (Hol & Hst & Hlen & pre' & Hevs').
    rewrite Hres, Hol, Hvenv. repeat split; try done.
    exists (pre ++ pre'). rewrite Hevs, (Hraise _ Hol), app_nil_r, Hevs'.
    by rewrite <- app_assoc.
Qed.

(** C8, as amended.  The hook leaves the fields of [venv] other than
    [status] and [commands] as they were.  Of the commands, those it
    has gone through, which are those it has made a call for, the first
    ones of the list, are stored stripped of a dash prefix (a lone ["-"]
    token removed, the dashes at the front of a longer token removed),
    and the others are stored as they were: the number of commands is
    unchanged, and so is every command whose first token does not start
    with a dash. *)
Theorem runtest_descriptor (redirect : bool) (s : State) :
  let o := tox_runtest redirect s in
  let v := venv s in
  let v' := venv (out_st o) in
  let invoked := length (calls (out_evs o)) in
  same_config v v' /\
  invoked <= length (commands v) /\
  (forall j req r, calls (out_evs o) !! j = Some (req, r) ->
     exists argv, commands v !! j = Some argv /\
                  req = run_request redirect "runtests" v argv) /\
  commands v' = (stripped <$> take invoked (commands v)) ++ drop invoked (commands v) /\
  (forall j tok rest, j < invoked -> commands v !! j = Some (tok :: rest) ->
     startswith tok "-" = true ->
     (tok = "-" -> commands v' !! j = Some rest) /\
     (tok <> "-" ->
      exists n t, tok = str_replicate (S n) dash +:+ t /\ startswith t "-" = false /\
                  commands v' !! j = Some (t :: rest))) /\
  length (commands v') = length (commands v) /\
  (forall j argv, commands v !! j = Some argv -> ignore_ret_of argv = false ->
     commands v' !! j = Some argv).
Proof.
  cbv zeta.
  pose proof (tox_runtest_stored redirect s) as Hcs. cbv zeta in Hcs.
  set (o := tox_runtest redirect s) in *.
  assert (Hreq : forall j req r, calls (out_evs o) !! j = Some (req, r) ->
            exists argv, commands (venv s) !! j = Some argv /\
                         req = run_request redirect "runtests" (venv s) argv).
  { intros j req r Hj.
    destruct (tox_runtest_loop _ _ _ _ Hj)
      as (s1 & pre & post & ol & Hrun & Hv & _ & _ & _ & Hcalls & _).
    fold o in Hcalls. rewrite Hcalls in Hj.
    destruct (run_requests _ _ _ _ _ _ Hrun _ _ _ Hj) as (argv & Hargv & ->).
    exists argv. by rewrite Hv. }
  assert (Hlen : length (calls (out_evs o)) <= length (commands (venv s))).
  { destruct (decide (length (calls (out_evs o)) <= length (commands (venv s))))
      as [|Hgt]; [done|]. exfalso.
    destruct (lookup_lt_is_Some_2 (calls (out_evs o)) (length (commands (venv s))))
      as [[req r] Hc]; [lia|].
    destruct (Hreq _ _ _ Hc) as (argv & Hargv & _).
    apply lookup_lt_Some in Hargv. lia. }
  assert (Hin : forall j argv, j < length (calls (out_evs o)) ->
            commands (venv s) !! j = Some argv ->
            commands (venv (out_st o)) !! j = Some (stripped argv)).
  { intros j argv Hj Hargv. rewrite Hcs.
    rewrite lookup_app_l by (rewrite length_fmap, length_take; lia).
    by rewrite list_lookup_fmap, lookup_take_lt, Hargv by done. }
  split.
  { subst o. destruct (tox_runtest_view redirect s)
      as [(e & _ & _ & Hv)|(s1 & pre & post & Hv & _ & _ & _ & Hv' & _)].
    - rewrite Hv. apply same_config_refl.
    - pose proof (loop_runs redirect "runtests" (commands (venv s)) 0 s1) as Hrun.
      rewrite Hv'. pose proof (run_config _ _ _ _ _ _ Hrun) as Hcfg.
      by rewrite Hv in Hcfg. }
  split; [done|]. split; [done|]. split; [done|]. split; [|split].
  - intros j tok rest Hj Hcmd Hdash. rewrite (Hin _ _ Hj Hcmd).
    destruct (stripped_cases tok rest) as (Hone & Hmore & _). split.
    + intros Htok. by rewrite (Hone Htok).
    + intros Hne. destruct (Hmore Hdash Hne) as (n & t & Htok & Ht & ->). eauto.
  - rewrite Hcs, length_app, length_fmap, length_take, length_drop. lia.
  - intros j argv Hj Hdash.
    destruct (decide (j < length (calls (out_evs o)))) as [Hlt|Hge].
    + rewrite (Hin _ _ Hlt Hj). by rewrite stripped_no_dash.
    + rewrite Hcs, lookup_app_r by (rewrite length_fmap, length_take; lia).
      rewrite length_fmap, length_take, lookup_drop, <- Hj. f_equal. lia.
Qed.

End RunTest.

Lemma runtest_ignore_outcome_witness :
  let host := script_host (fails_on "flake8" false) in
  let s := demo_state ∅ (demo_venv [["pytest"]; ["flake8"]; ["echo"; "done"]] true false) in
  let o := @tox_runtest host true s in
  out_res o = Ok true /\
  status (venv (out_st o)) = "ignored failed command" /\
  exists r, calls (out_evs o) !! 2 =
              Some (@run_request host true "runtests" (venv s) ["echo"; "done"], r).
Proof.
  intros host s o.
  destruct (@runtest_ignore_outcome host true s 1
              (@run_request host true "runtests" (venv s) ["flake8"]) "flake8")
    as (_ & _ & Hall).
  - reflexivity.
  - vm_compute. reflexivity.
  - destruct Hall as (Hres & Hst & Hcmds).
    + repeat constructor; discriminate.
    + vm_compute. repeat constructor.
    + split; [exact Hres|]. split; [exact Hst|]. apply (Hcmds 2). reflexivity.
Defined.

Lemma runtest_commands_failed_witness :
  let host := script_host (fails_on "flake8" false) in
  let cmds := [["pytest"]; ["flake8"]; ["echo"; "done"]] in
  let stop := @tox_runtest host true (demo_state ∅ (demo_venv cmds false false)) in
  let go_on := @tox_runtest host true (demo_state ∅ (demo_venv cmds false true)) in
  (length (calls (out_evs stop)) = 2 /\
   out_res stop = Ok true /\
   status (venv (out_st stop)) = "commands failed") /\
  (out_res go_on = Ok true /\
   status (venv (out_st go_on)) = "commands failed" /\
   exists r, calls (out_evs go_on) !! 2 =
               Some (@run_request host true "runtests" (demo_venv cmds false true)
                       ["echo"; "done"], r)).
Proof.
  intros host cmds stop go_on. split.
  - destruct (@runtest_commands_failed host true
                (demo_state ∅ (demo_venv cmds false false)) 1
                (@run_request host true "runtests" (demo_venv cmds false false)
                   ["flake8"]) "flake8")
      as (_ & _ & Hstop & _).
    + reflexivity.
    + vm_compute. reflexivity.
    + apply Hstop. reflexivity.
  - destruct (@runtest_commands_failed host true
                (demo_state ∅ (demo_venv cmds false true)) 1
                (@run_request host true "runtests" (demo_venv cmds false true)
                   ["flake8"]) "flake8")
      as (_ & _ & _ & Hgo).
    + reflexivity.
    + vm_compute. reflexivity.
    + destruct Hgo as (Hres & Hst & Hcmds).
      * reflexivity.
      * repeat constructor; discriminate.
      * vm_compute. repeat constructor.
      * split; [exact Hres|]. split; [exact Hst|]. apply (Hcmds 2). reflexivity.
Defined.

Lemma runtest_interrupt_witness :
  let host := script_host (fails_on "flake8" true) in
  let s := demo_state ∅ (demo_venv [["pytest"]; ["flake8"]; ["echo"; "done"]] true true) in
  let o := @tox_runtest host true s in
  out_res o = Raise KeyboardInterrupt /\
  status (venv (out_st o)) = "keyboardinterrupt" /\
  length (calls (out_evs o)) = 2.
Proof.
  intros host s o.
  destruct (@runtest_interrupt host true s 1
              (@run_request host true "runtests" (venv s) ["flake8"]))
    as (_ & Hres & Hst & Hlen & _).
  - vm_compute. reflexivity.
  - auto.
Defined.

Lemma runtest_dash_prefix_witness :
  let host := script_host (fun _ => Ok EmptyString) in
  let s := demo_state ∅ (demo_venv [["-"; "pytest"]; ["--flake8"; "x"]; ["pytest"; "-x"]]
                           false false) in
  let o := @tox_runtest host true s in
  let call ignore_ret argv :=
    mk_pcall ("python" :: "-m" :: "pipenv" :: "run" :: argv)
             ["proj"] "runtests" (Some true) (Some ignore_ret) in
  (exists r, calls (out_evs o) !! 0 = Some (call true ["pytest"], r)) /\
  (exists n t r, "--flake8" = str_replicate (S n) dash +:+ t /\
                 startswith t "-" = false /\
                 calls (out_evs o) !! 1 = Some (call true [t; "x"], r)) /\
  (exists r, calls (out_evs o) !! 2 = Some (call false ["pytest"; "-x"], r)).
Proof.
  intros host s o call.
  destruct (@runtest_dash_prefix host true s) as [Hcalls Hall].
  assert (Hinv : forall k argv, commands (venv s) !! k = Some argv ->
            exists req r, calls (out_evs o) !! k = Some (req, r)).
  { intros k argv Hk.
    destruct (Hall true eq_refl k argv Hk) as [Hc|(j & req & err & _ & Hc & _)];
      [exact Hc|].
    exfalso. destruct j as [|[|[|j]]]; vm_compute in Hc; discriminate Hc. }
  split; [|split].
  - destruct (Hinv 0 _ eq_refl) as (req & r & Hc).
    destruct (Hcalls 0 req r Hc) as (tok & rest & Hcmd & Hone & _ & _).
    injection Hcmd as <- <-. exists r. rewrite Hc, (Hone eq_refl). reflexivity.
  - destruct (Hinv 1 _ eq_refl) as (req & r & Hc).
    destruct (Hcalls 1 req r Hc) as (tok & rest & Hcmd & _ & Hmore & _).
    injection Hcmd as <- <-.
    destruct Hmore as (n & t & Htok & Ht & Hreq); [reflexivity|discriminate|].
    exists n, t, r. split; [exact Htok|]. split; [exact Ht|].
    rewrite Hc, Hreq. reflexivity.
  - destruct (Hinv 2 _ eq_refl) as (req & r & Hc).
    destruct (Hcalls 2 req r Hc) as (tok & rest & Hcmd & _ & _ & Hnone).
    injection Hcmd as <- <-. exists r. rewrite Hc, (Hnone eq_refl). reflexivity.
Defined.

Lemma runtest_descriptor_witness :
  let host := script_host (fun _ => Ok EmptyString) in
  let s := demo_state ∅ (demo_venv [["-"; "pytest"]; ["echo"; "done"]] false false) in
  let o := @tox_runtest host true s in
  commands (venv (out_st o)) = [["pytest"]; ["echo"; "done"]] /\
  commands (venv (out_st o)) !! 1 = Some ["echo"; "done"].
Proof.
  intros host s o.
  destruct (@runtest_descriptor host true s) as (_ & _ & _ & Hcs & _ & _ & Hsame).
  split; [exact Hcs|]. apply Hsame; reflexivity.
Defined.

(** C8 fails on a run: a command that begins with the token "-" is
    stored without it when the hook has returned. *)
Lemma runtest_rewrites_commands :
  let host := script_host (fun _ => Ok EmptyString) in
  let s := demo_state ∅ (demo_venv [["-"; "pytest"]] false false) in
  let o := @tox_runtest host true s in
  out_res o = Ok true /\
  commands (venv s) = [["-"; "pytest"]] /\
  commands (venv (out_st o)) = [["pytest"]] /\
  commands (venv (out_st o)) <> commands (venv s).
Proof. vm_compute. repeat split; discriminate. Qed.

(** ** The report hook *)

(** C7.  When the dependency-graph call of [tox_runenvreport] returns
    the text [out], the hook returns the pieces of [out] between its
    newline characters, in order: joined with newlines they give [out]
    back, none contains a newline, there is one more of them than there
    are newlines in [out], and a newline at the end of the text leaves
    an empty last piece. *)
Theorem runenvreport_lines `{Host} (action : string) (s : State)
    (req : pcall_request) (out : string) :
  let o := tox_runenvreport action s in
  (req, Ok out) ∈ calls (out_evs o) ->
  req = mk_pcall [sys_executable; "-m"; "pipenv"; "graph"]
                 (dirpath (venv_path (venv s))) action None None /\
  out_res o = Ok (str_split newline out) /\
  str_join (String newline EmptyString) (str_split newline out) = out /\
  Forall (fun line => str_count newline line = 0) (str_split newline out) /\
  length (str_split newline out) = S (str_count newline out) /\
  (forall text, str_split newline (text +:+ String newline EmptyString)
                = str_split newline text ++ [EmptyString]).
Proof.
  cbv zeta. intros Hcall.
  assert (Hmain :
    req = mk_pcall [sys_executable; "-m"; "pipenv"; "graph"]
                   (dirpath (venv_path (venv s))) action None None /\
    out_res (tox_runenvreport action s) = Ok (str_split newline out)).
  { revert Hcall. unfold tox_runenvreport.
    destruct (init_pipenv_environ_run s) as (s0 & Hinit & _ & _ & Hv0).
    rewrite (bind_ok _ _ _ _ _ _ Hinit).
    cbn [bind get_venv after out_res out_st out_evs]. rewrite Hv0.
    pose proof (clone_pipfile_no_calls (venv s) s0) as Hcalls.
    destruct (_clone_pipfile (venv s) s0) as [[pipfile_path|e] s1 evs1] eqn:Hclone;
      cbn [out_evs] in Hcalls.
    2:{ rewrite (bind_raise _ _ _ _ _ _ Hclone). cbn [out_res out_st out_evs].
        rewrite !calls_app, Hcalls. intros []%elem_of_nil. }
    rewrite (bind_ok _ _ _ _ _ _ Hclone).
    set (basepath := dirpath (venv_path (venv s))).
    pose proof (calls_not_call _
      (emits_ensure_dir not_call basepath I s1)) as Hcalls2.
    destruct (ensure_dir basepath s1) as [[[]|e] s2 evs2] eqn:Hens;
      cbn [out_evs] in Hcalls2.
    2:{ rewrite (bind_raise _ _ _ _ _ _ Hens). cbn [after out_res out_st out_evs].
        rewrite !calls_app, Hcalls, Hcalls2. intros []%elem_of_nil. }
    rewrite (bind_ok _ _ _ _ _ _ Hens).
    set (graph := mk_pcall [sys_executable; "-m"; "pipenv"; "graph"]
                           basepath action None None).
    set (body := (setactivity action "runenvreport" "" ;;
                  output <- pcall graph ;;
                  ret (str_split newline output))).
    set (s_in := inside_overlay (venv s) pipfile_path s2).
    set (r := _pcall graph (environ s_in) (fs s_in)).
    destruct (r.1) as [out'|e] eqn:Hr.
    - assert (Hbody : body s_in = Out (Ok (str_split newline out')) (with_fs r.2 s_in)
                ([EvSetActivity action "runenvreport" ""] ++ [EvPcall graph (Ok out')])).
      { unfold body, pcall.
        cbn [bind setactivity emit ret after out_res out_st out_evs].
        fold r. by rewrite Hr. }
      destruct (wrap_exit _ _ _ _ _ _ _ Hbody) as (s3 & evs3 & -> & Hevs3 & _).
      cbn [after out_res out_st out_evs].
      rewrite !calls_app, Hcalls, Hcalls2, (calls_not_call _ Hevs3).
      change (calls init_events) with (@nil (pcall_request * result string)).
      change (calls (overlay_events (venv s) pipfile_path))
        with (@nil (pcall_request * result string)).
      cbn [calls omap app]. intros Hin%list_elem_of_singleton.
      by injection Hin as -> ->.
    - assert (Hbody : body s_in = Out (Raise e) (with_fs r.2 s_in)
                ([EvSetActivity action "runenvreport" ""] ++ [EvPcall graph (Raise e)])).
      { unfold body, pcall.
        cbn [bind setactivity emit ret after out_res out_st out_evs].
        fold r. by rewrite Hr. }
      rewrite (wrap_raise _ _ _ _ _ _ _ Hbody).
      cbn [after out_res out_st out_evs].
      rewrite !calls_app, Hcalls, Hcalls2.
      change (calls init_events) with (@nil (pcall_request * result string)).
      change (calls (overlay_events (venv s) pipfile_path))
        with (@nil (pcall_request * result string)).
      cbn [calls omap app]. intros Hin%list_elem_of_singleton. done. }
  destruct Hmain as [Hreq Hres]. split; [done|]. split; [done|].
  split; [apply str_join_split|]. split; [apply str_split_pieces|].
  split; [apply str_split_length|]. apply str_split_trailing.
Qed.

Lemma runenvreport_lines_witness :
  let graph := "six==1.16.0" +:+ String newline ("toml==0.10.2" +:+ String newline EmptyString) in
  let host := script_host (fun _ => Ok graph) in
  let s := demo_state ∅ (demo_venv [] false false) in
  out_res (@tox_runenvreport host "report" s) = Ok ["six==1.16.0"; "toml==0.10.2"; EmptyString].
Proof.
  intros graph host s.
  destruct (@runenvreport_lines host "report" s
              (mk_pcall ["python"; "-m"; "pipenv"; "graph"] ["proj"; ".tox"]
                        "report" None None) graph) as (_ & Hres & _).
  - vm_compute. apply list_elem_of_here.
  - exact Hres.
Defined.

(** * Further properties *)

(** ** The cloning step *)

Lemma ensure_dirs_true (ps : list path) (f : FS) :
  (ensure_dirs ps f).1 = true ->
  forall p, p ∈ ps -> (ensure_dirs ps f).2 !! p = Some Dir.
Proof.
  revert f. induction ps as [|p ps IH]; intros f Hok q Hq; simpl in *.
  - by apply elem_of_nil in Hq.
  - destruct (f !! p) as [[c|]|] eqn:Hp; [done| |].
    + apply elem_of_cons in Hq as [->|Hq]; [by apply ensure_dirs_keeps|by apply IH].
    + apply elem_of_cons in Hq as [->|Hq]; [|by apply IH].
      apply ensure_dirs_keeps. by rewrite lookup_insert_eq.
Qed.

Lemma ensure_dirs_present (ps : list path) (f : FS) :
  (forall p, p ∈ ps -> f !! p = Some Dir) -> ensure_dirs ps f = (true, f).
Proof.
  induction ps as [|p ps IH]; intros Hdirs; simpl; [done|].
  rewrite (Hdirs p) by left. apply IH. intros q Hq. apply Hdirs. by right.
Qed.

Lemma path_exists_is_Some (f : FS) (p : path) :
  p <> [] -> path_exists f p = bool_decide (is_Some (f !! p)).
Proof. by destruct p. Qed.

Lemma touch_returned (p : path) (s : State) :
  p <> [] -> out_res (touch p s) = Ok tt -> is_Some (fs (out_st (touch p s)) !! p).
Proof.
  intros Hne. unfold touch. repeat case_match; simpl; try done.
  all: intros _; rewrite ?lookup_insert_eq; eauto.
Qed.

Lemma below_empty (f : FS) (p : path) :
  below f p = ∅ <-> forall q, p `prefix_of` q -> q <> p -> f !! q = None.
Proof.
  unfold below. rewrite map_empty_filter. split.
  - intros Hall q Hpre Hne. destruct (f !! q) as [n|] eqn:Hq; [|done].
    exfalso. by apply (Hall q n Hq).
  - intros Hnone q n Hq [Hpre Hne]. simpl in *.
    by rewrite (Hnone q Hpre Hne) in Hq.
Qed.

Lemma not_is_dir (f : FS) (p : path) : p <> [] -> f !! p = None -> is_dir f p = false.
Proof. intros Hne Hp. unfold is_dir. destruct p; [done|]. by rewrite Hp, bool_decide_eq_false_2. Qed.

(** A copy to a target that does not exist changes no entry that is
    there. *)
Lemma copy_keeps (src dst : path) (s : State) (q : path) (n : node) :
  dst <> [] -> fs s !! dst = None ->
  fs s !! q = Some n -> fs (out_st (copy src dst s)) !! q = Some n.
Proof.
  intros Hne Hdst Hq. unfold copy. cbv zeta.
  rewrite (not_is_dir _ _ Hne Hdst).
  pose proof (ensure_dirs_keeps (path_prefixes dst) (fs s) q n Hq) as Hkeep.
  destruct (fs s !! src) as [[c|]|] eqn:Hsrc; repeat case_match;
    cbn [out_st with_fs fs]; try done.
  - rewrite lookup_insert_ne; [done|]. intros <-. congruence.
  - by apply lookup_union_Some_l.
Qed.

(** When it returns, the target exists, unless the source is a
    directory with nothing in it. *)
Lemma copy_returned (src dst : path) (s : State) :
  dst <> [] -> fs s !! dst = None ->
  out_res (copy src dst s) = Ok tt ->
  is_Some (fs (out_st (copy src dst s)) !! dst) \/
  empty_dir (fs (out_st (copy src dst s))) src.
Proof.
  intros Hne Hdst. unfold copy. cbv zeta.
  rewrite (not_is_dir _ _ Hne Hdst).
  pose proof (ensure_dirs_true (path_prefixes dst) (fs s)) as Hdirs.
  destruct (fs s !! src) as [[c|]|] eqn:Hsrc; repeat case_match;
    cbn [out_res out_st with_fs fs]; try done; intros _.
  - left. rewrite lookup_insert_eq. eauto.
  - right. split; [done|]. by apply below_empty.
  - left. exists Dir. apply lookup_union_Some_l, Hdirs; [done|].
    apply elem_of_path_prefixes. done.
Qed.

(** The second half of the cloning step changes no entry that is
    there; when it returns, the per-environment Pipfile exists, unless
    the root Pipfile is a directory with nothing in it. *)
Lemma clone_pipfile_copy_run (root vpf : path) (s : State) :
  vpf <> [] ->
  let o := (venv_exists <- exists_ vpf ;;
            (if negb venv_exists then copy root vpf else ret tt) ;;
            ret vpf) s in
  (forall q n, fs s !! q = Some n -> fs (out_st o) !! q = Some n) /\
  (forall p, out_res o = Ok p ->
     p = vpf /\ (is_Some (fs (out_st o) !! vpf) \/ empty_dir (fs (out_st o)) root)).
Proof.
  intros Hne. cbv zeta. unfold exists_.
  cbn [bind after out_res out_st out_evs].
  rewrite (path_exists_is_Some _ _ Hne).
  destruct (fs s !! vpf) as [n|] eqn:Hv.
  - rewrite bool_decide_eq_true_2 by eauto.
    cbn [negb bind ret after out_res out_st out_evs].
    split; [done|]. intros p [= <-]. split; [done|]. left. rewrite Hv. eauto.
  - rewrite bool_decide_eq_false_2 by (by intros [? ?]). cbn [negb].
    pose proof (fun q n => copy_keeps root vpf s q n Hne Hv) as Hkeep.
    pose proof (copy_returned root vpf s Hne Hv) as Hret.
    unfold bind. destruct (copy root vpf s) as [[[]|e] s2 evs2];
      cbn [ret after out_res out_st out_evs] in *.
    + split; [done|]. intros p [= <-]. auto.
    + done.
Qed.

(** X1.  The cloning step removes and changes nothing: whatever it
    ends with, an entry of the file system that was there before is
    there afterwards, as it was. *)
Theorem clone_pipfile_monotone (v : VirtualEnv) (s : State) (q : path) (n : node) :
  fs s !! q = Some n -> fs (out_st (_clone_pipfile v s)) !! q = Some n.
Proof.
  intros Hq. unfold _clone_pipfile.
  set (root := path_join (toxinidir v) "Pipfile").
  set (vpf := path_join (venv_path v) "Pipfile").
  apply (preserves_bind (fun t => fs t !! q = Some n)); [| |done].
  { intros t Ht. by apply ensure_dirs_keeps. }
  intros _. apply preserves_bind; [apply preserves_exists|]. intros root_exists.
  apply preserves_bind.
  { destruct (negb root_exists); [|apply preserves_ret].
    intros t Ht. by apply touch_keeps. }
  intros _ t Ht.
  by apply (clone_pipfile_copy_run root vpf t (path_join_not_root _ _)).
Qed.

Lemma clone_pipfile_monotone_witness :
  let v := demo_venv [] false false in
  let s := with_fs {[ ["proj"] := Dir;
                      ["proj"; ".tox"; "py"; "Pipfile"] := File "[packages]" ]}
             (demo_state ∅ v) in
  fs (out_st (_clone_pipfile v s)) !! ["proj"; ".tox"; "py"; "Pipfile"]
    = Some (File "[packages]").
Proof.
  intros v s. apply (clone_pipfile_monotone v s). reflexivity.
Defined.

Lemma after_inv {A} (evs0 : list event) (o : outcome A) r s evs :
  after evs0 o = Out r s evs -> out_res o = r /\ out_st o = s.
Proof. destruct o. unfold after. simpl. by intros [= -> -> _]. Qed.

Lemma ensure_dir_returned (p : path) (s s1 : State) (evs : list event) :
  ensure_dir p s = Out (Ok tt) s1 evs ->
  (forall q, q ∈ path_prefixes p -> fs s1 !! q = Some Dir) /\
  (forall q n, fs s !! q = Some n -> fs s1 !! q = Some n).
Proof.
  unfold ensure_dir. cbv zeta.
  pose proof (ensure_dirs_true (path_prefixes p) (fs s)) as Hdirs.
  destruct (ensure_dirs (path_prefixes p) (fs s)).1; [|done].
  intros [= <- _]. split; [by apply Hdirs|].
  intros q n Hq. by apply ensure_dirs_keeps.
Qed.

(** What a cloning step that returns leaves behind, whatever the file
    system was: the path it returns is the one of the per-environment
    Pipfile, the environment directory and the directories above it
    exist, and so does the root Pipfile; and so does the per-environment
    Pipfile, unless the root Pipfile is a directory with nothing in
    it. *)
Lemma clone_pipfile_returned_run (v : VirtualEnv) (s s' : State) (p : path)
    (evs : list event) :
  _clone_pipfile v s = Out (Ok p) s' evs ->
  p = path_join (venv_path v) "Pipfile" /\
  (forall q, q ∈ path_prefixes (venv_path v) -> fs s' !! q = Some Dir) /\
  is_Some (fs s' !! path_join (toxinidir v) "Pipfile") /\
  (is_Some (fs s' !! path_join (venv_path v) "Pipfile") \/
   empty_dir (fs s') (path_join (toxinidir v) "Pipfile")).
Proof.
  unfold _clone_pipfile.
  set (root := path_join (toxinidir v) "Pipfile").
  set (vpf := path_join (venv_path v) "Pipfile").
  assert (Hroot_ne : root <> []) by apply path_join_not_root.
  destruct (ensure_dir (venv_path v) s) as [[[]|e] s1 evs1] eqn:Hens.
  2:{ by rewrite (bind_raise _ _ _ _ _ _ Hens). }
  rewrite (bind_ok _ _ _ _ _ _ Hens).
  destruct (ensure_dir_returned _ _ _ _ Hens) as [Hs1 _].
  unfold exists_ at 1. cbn [bind after out_res out_st out_evs].
  set (rest := (venv_exists <- exists_ vpf ;;
                (if negb venv_exists then copy root vpf else ret tt) ;;
                ret vpf)).
  assert (Htail : forall s2,
    (forall q n, fs s1 !! q = Some n -> fs s2 !! q = Some n) ->
    is_Some (fs s2 !! root) ->
    out_res (rest s2) = Ok p ->
    p = vpf /\
    (forall q, q ∈ path_prefixes (venv_path v) -> fs (out_st (rest s2)) !! q = Some Dir) /\
    is_Some (fs (out_st (rest s2)) !! root) /\
    (is_Some (fs (out_st (rest s2)) !! vpf) \/ empty_dir (fs (out_st (rest s2))) root)).
  { intros s2 Hmono [n Hn] Hres.
    destruct (clone_pipfile_copy_run root vpf s2 (path_join_not_root _ _))
      as [Hkeep Hret]. fold rest in Hkeep, Hret.
    destruct (Hret _ Hres) as [-> Hv]. split; [done|].
    split; [|split; [|done]].
    - intros q Hq. by apply Hkeep, Hmono, Hs1.
    - rewrite (Hkeep _ _ Hn). eauto. }
  rewrite (path_exists_is_Some _ _ Hroot_ne).
  destruct (fs s1 !! root) as [n|] eqn:Hr.
  - rewrite bool_decide_eq_true_2 by eauto.
    cbn [negb]. unfold bind at 1. cbn [ret].
    intros [Hres <-]%after_inv. unfold after in *. cbn [out_res out_st] in *.
    apply (Htail s1); [done|by rewrite Hr|done].
  - rewrite bool_decide_eq_false_2 by (by intros [? ?]). cbn [negb].
    unfold bind at 1.
    pose proof (touch_returned root s1 Hroot_ne) as Ht.
    pose proof (fun q n => touch_keeps root s1 q n) as Hk.
    destruct (touch root s1) as [[[]|e] s2 evs2].
    2:{ unfold after. cbn [out_res]. intros [= ]. }
    cbn [out_res out_st] in Ht, Hk.
    intros [Hres <-]%after_inv. unfold after in *. cbn [out_res out_st] in *.
    apply (Htail s2); [done|by apply Ht|done].
Qed.

(** X2.  Whenever the cloning step returns, whatever the file system
    was: it returns the path of the per-environment Pipfile; the
    environment directory and the directories above it exist; the root
    Pipfile exists; and the per-environment Pipfile exists, unless the
    root Pipfile is a directory with nothing in it, of which the copy
    creates nothing. *)
Theorem clone_pipfile_returned (v : VirtualEnv) (s : State) (p : path) :
  let o := _clone_pipfile v s in
  let root := path_join (toxinidir v) "Pipfile" in
  let venv_pipfile := path_join (venv_path v) "Pipfile" in
  out_res o = Ok p ->
  p = venv_pipfile /\
  (forall q, q <> [] -> q `prefix_of` venv_path v -> fs (out_st o) !! q = Some Dir) /\
  is_Some (fs (out_st o) !! root) /\
  (is_Some (fs (out_st o) !! venv_pipfile) \/ empty_dir (fs (out_st o)) root).
Proof.
  cbv zeta. intros Hres.
  destruct (_clone_pipfile v s) as [r s' evs] eqn:Hrun. cbn [out_res out_st] in *.
  subst r. destruct (clone_pipfile_returned_run _ _ _ _ _ Hrun) as (-> & Hd & Hr & Hv).
  repeat split; try done. intros q Hq Hpre. by apply Hd, elem_of_path_prefixes.
Qed.

Lemma clone_pipfile_returned_witness :
  let v := demo_venv [] false false in
  let tree := {[ ["proj"] := Dir; ["proj"; "Pipfile"] := Dir;
                 ["proj"; "Pipfile"; "notes"] := File "x" ]} in
  let fresh := _clone_pipfile v (demo_state ∅ v) in
  let hollow := _clone_pipfile v (with_fs {[ ["proj"] := Dir; ["proj"; "Pipfile"] := Dir ]}
                                    (demo_state ∅ v)) in
  let full := _clone_pipfile v (with_fs tree (demo_state ∅ v)) in
  (fs (out_st fresh) !! ["proj"; ".tox"] = Some Dir /\
   is_Some (fs (out_st fresh) !! ["proj"; "Pipfile"]) /\
   is_Some (fs (out_st fresh) !! ["proj"; ".tox"; "py"; "Pipfile"])) /\
  (out_res hollow = Ok ["proj"; ".tox"; "py"; "Pipfile"] /\
   fs (out_st hollow) !! ["proj"; ".tox"; "py"; "Pipfile"] = None /\
   empty_dir (fs (out_st hollow)) ["proj"; "Pipfile"]) /\
  (is_Some (fs (out_st full) !! ["proj"; ".tox"; "py"; "Pipfile"]) /\
   fs (out_st full) !! ["proj"; ".tox"; "py"; "Pipfile"; "notes"] = Some (File "x")).
Proof.
  intros v tree fresh hollow full. split; [|split].
  - destruct (clone_pipfile_returned v (demo_state ∅ v) ["proj"; ".tox"; "py"; "Pipfile"])
      as (_ & Hd & Hr & [Hv|[Hv _]]).
    + reflexivity.
    + split; [|by split]. apply Hd; [discriminate|]. by exists ["py"].
    + vm_compute in Hv. discriminate Hv.
  - destruct (clone_pipfile_returned v
                (with_fs {[ ["proj"] := Dir; ["proj"; "Pipfile"] := Dir ]}
                   (demo_state ∅ v)) ["proj"; ".tox"; "py"; "Pipfile"])
      as (_ & _ & _ & [Hv|Hv]).
    + reflexivity.
    + exfalso. vm_compute in Hv. by destruct Hv.
    + split; [reflexivity|]. split; [reflexivity|exact Hv].
  - destruct (clone_pipfile_returned v (with_fs tree (demo_state ∅ v))
                ["proj"; ".tox"; "py"; "Pipfile"])
      as (_ & _ & _ & [Hv|[_ Hv]]).
    + reflexivity.
    + split; [exact Hv|]. vm_compute. reflexivity.
    + exfalso.
      assert (Hnone := Hv ["proj"; "Pipfile"; "notes"]
                         ltac:(by exists ["notes"]) ltac:(discriminate)).
      vm_compute in Hnone. discriminate Hnone.
Defined.

(** X3.  The cloning step is idempotent: after a cloning step that
    returned, another one returns the same path and leaves the state as
    it is.  It touches nothing, and it copies nothing: it does not call
    the copy at all, unless the root Pipfile is a directory with nothing
    in it, of which the copy creates nothing. *)
Theorem clone_pipfile_idempotent (v : VirtualEnv) (s : State) (p : path) :
  let o := _clone_pipfile v s in
  let again := _clone_pipfile v (out_st o) in
  let root := path_join (toxinidir v) "Pipfile" in
  let venv_pipfile := path_join (venv_path v) "Pipfile" in
  out_res o = Ok p ->
  out_res again = Ok p /\ out_st again = out_st o /\
  (out_evs again = [EvEnsureDir (venv_path v)] \/
   empty_dir (fs (out_st o)) root /\
   out_evs again = [EvEnsureDir (venv_path v); EvCopy root venv_pipfile]).
Proof.
  cbv zeta. intros Hres.
  destruct (_clone_pipfile v s) as [r s' evs] eqn:Hrun. cbn [out_res out_st] in *.
  subst r. destruct (clone_pipfile_returned_run _ _ _ _ _ Hrun) as (-> & Hd & Hr & Hv).
  assert (Hens : ensure_dir (venv_path v) s'
                 = Out (Ok tt) s' [EvEnsureDir (venv_path v)]).
  { unfold ensure_dir. rewrite (ensure_dirs_present _ _ Hd).
    cbn [fst snd]. by rewrite with_fs_same. }
  set (root := path_join (toxinidir v) "Pipfile") in *.
  set (vpf := path_join (venv_path v) "Pipfile") in *.
  enough (exists evs2, _clone_pipfile v s' = Out (Ok vpf) s' evs2 /\
            (evs2 = [EvEnsureDir (venv_path v)] \/
             empty_dir (fs s') root /\
             evs2 = [EvEnsureDir (venv_path v); EvCopy root vpf])) as Hagain.
  { destruct Hagain as (evs2 & -> & Hevs). cbn [out_res out_st out_evs]. auto. }
  unfold _clone_pipfile. fold root vpf. rewrite (bind_ok _ _ _ _ _ _ Hens).
  unfold exists_ at 1. cbn [bind after out_res out_st out_evs].
  rewrite path_exists_is_Some, bool_decide_eq_true_2
    by first [apply path_join_not_root | done].
  cbn [negb bind ret exists_ after out_res out_st out_evs].
  rewrite path_exists_is_Some by apply path_join_not_root.
  destruct (fs s' !! vpf) as [n|] eqn:Hvpf.
  - rewrite bool_decide_eq_true_2 by eauto.
    cbn [negb out_res out_st out_evs app]. eauto.
  - rewrite bool_decide_eq_false_2 by (by intros [? ?]).
    destruct Hv as [[? [=]]|Hempty].
    assert (Hcopy : copy root vpf s' = Out (Ok tt) s' [EvCopy root vpf]).
    { unfold copy. destruct Hempty as [-> Hnone].
      by rewrite decide_True by (by apply below_empty). }
    cbn [negb]. rewrite (bind_ok _ _ _ _ _ _ Hcopy).
    cbn [ret after out_res out_st out_evs app]. eauto.
Qed.

Lemma clone_pipfile_idempotent_witness :
  let v := demo_venv [] false false in
  let o := _clone_pipfile v (demo_state ∅ v) in
  let again := _clone_pipfile v (out_st o) in
  out_res again = Ok ["proj"; ".tox"; "py"; "Pipfile"] /\
  out_st again = out_st o /\
  out_evs again = [EvEnsureDir ["proj"; ".tox"; "py"]].
Proof.
  intros v o again.
  destruct (clone_pipfile_idempotent v (demo_state ∅ v) ["proj"; ".tox"; "py"; "Pipfile"])
    as (Hres & Hst & [Hevs|[[Hdir _] _]]).
  - reflexivity.
  - by split.
  - vm_compute in Hdir. discriminate Hdir.
Defined.

(** ** The context manager, further *)

Lemma inside_overlay_other (v : VirtualEnv) (pipfile_path : path) (s : State)
    (k : string) :
  k ∉ overlay_vars -> environ (inside_overlay v pipfile_path s) !! k = environ s !! k.
Proof.
  intros Hk. unfold inside_overlay, overlay_vars in *. cbn [with_environ environ].
  rewrite !not_elem_of_cons in Hk. destruct Hk as (? & ? & ? & _).
  by rewrite !lookup_insert_ne.
Qed.

Lemma inside_overlay_value (v : VirtualEnv) (pipfile_path : path) (s : State)
    (k : string) :
  k ∈ overlay_vars ->
  environ (inside_overlay v pipfile_path s) !! k = Some (overlay_value v pipfile_path k).
Proof.
  intros Hk%overlay_vars_cases. unfold overlay_value.
  destruct Hk as [-> | [-> | ->]]; by simplify_map_eq.
Qed.

(** X4.  The context manager touches no other variable: a variable
    that is none of the three and that the body leaves alone is after
    the scope what it was before, whether the scope exits normally or
    by an exception. *)
Theorem overlay_other_variables {A} (v : VirtualEnv) (pipfile_path : path)
    (body : M A) (s : State) (k : string) :
  k ∉ overlay_vars ->
  (forall t, environ (out_st (body t)) !! k = environ t !! k) ->
  environ (out_st (wrap_pipenv_environment v pipfile_path body s)) !! k
    = environ s !! k.
Proof.
  intros Hk Hbody.
  pose proof (Hbody (inside_overlay v pipfile_path s)) as Hin.
  rewrite inside_overlay_other in Hin by done.
  destruct (wrap_enter v pipfile_path body s) as (rest & -> & ->).
  cbn [after out_st]. unfold bind at 1.
  destruct (body (inside_overlay v pipfile_path s)) as [[a|e] s2 evs2];
    cbn [out_st] in *; [|done].
  unfold overlay_vars in Hk. rewrite !not_elem_of_cons in Hk.
  destruct Hk as (? & ? & ? & _).
  repeat case_match;
    cbn [bind ret setenv after out_res out_st out_evs with_environ environ];
    by rewrite ?lookup_insert_ne.
Qed.

Lemma overlay_other_variables_witness :
  let s := demo_state {[ "PATH" := "/usr/bin" ]} (demo_venv [] false false) in
  environ (out_st (wrap_pipenv_environment (venv s) ["proj"; ".tox"; "py"; "Pipfile"]
                     (@raise unit KeyboardInterrupt) s)) !! "PATH"
    = Some "/usr/bin".
Proof.
  intros s.
  rewrite (overlay_other_variables (venv s) ["proj"; ".tox"; "py"; "Pipfile"]
             (@raise unit KeyboardInterrupt) s "PATH").
  - reflexivity.
  - unfold overlay_vars. rewrite !not_elem_of_cons. repeat split; try discriminate.
    apply not_elem_of_nil.
  - intros t. reflexivity.
Defined.

(** X5.  Two scopes in a row: a variable of the three that was absent
    or empty before the first scope holds, after the second scope, the
    value the first scope gave it, since the second scope saves that
    value and puts it back.  (Both scopes exit normally and neither
    body assigns the variable.) *)
Theorem overlay_twice {A B} (v1 v2 : VirtualEnv) (pipfile1 pipfile2 : path)
    (body1 : M A) (body2 : M B) (s : State) (k : string) :
  let o1 := wrap_pipenv_environment v1 pipfile1 body1 s in
  let o2 := wrap_pipenv_environment v2 pipfile2 body2 (out_st o1) in
  k ∈ overlay_vars ->
  (forall t, environ (out_st (body1 t)) !! k = environ t !! k) ->
  (forall t, environ (out_st (body2 t)) !! k = environ t !! k) ->
  (exists a, out_res o1 = Ok a) -> (exists b, out_res o2 = Ok b) ->
  environ s !! k = None \/ environ s !! k = Some EmptyString ->
  environ (out_st o2) !! k = Some (overlay_value v1 pipfile1 k).
Proof.
  cbv zeta. intros Hk Hb1 Hb2 [a Ha] [b Hb] Hold.
  destruct (body1 (inside_overlay v1 pipfile1 s)) as [[a'|e] s2 evs2] eqn:Hrun1.
  2:{ by rewrite (wrap_raise _ _ _ _ _ _ _ Hrun1) in Ha. }
  destruct (wrap_exit _ _ _ _ _ _ _ Hrun1) as (s3 & evs3 & Hw1 & _ & _ & _ & Henv1).
  rewrite Hw1 in *. cbn [out_st] in *.
  assert (H1 : environ s3 !! k = Some (overlay_value v1 pipfile1 k)).
  { rewrite (Henv1 k Hk).
    assert (truthy (environ s !! k) = false) as -> by (by destruct Hold as [-> | ->]).
    pose proof (Hb1 (inside_overlay v1 pipfile1 s)) as Hin. rewrite Hrun1 in Hin.
    cbn [out_st] in Hin. rewrite Hin. by apply inside_overlay_value. }
  destruct (body2 (inside_overlay v2 pipfile2 s3)) as [[b'|e] s4 evs4] eqn:Hrun2.
  2:{ by rewrite (wrap_raise _ _ _ _ _ _ _ Hrun2) in Hb. }
  destruct (wrap_exit _ _ _ _ _ _ _ Hrun2) as (s5 & evs5 & -> & _ & _ & _ & Henv2).
  cbn [out_st]. rewrite (Henv2 k Hk), H1.
  assert (truthy (Some (overlay_value v1 pipfile1 k)) = true) as ->; [|done].
  apply truthy_spec. eexists. split; [done|]. apply overlay_value_not_empty.
Qed.

Lemma overlay_twice_witness :
  let v1 := demo_venv [] false false in
  let v2 := set_status "other" v1 in
  let s := demo_state ∅ v1 in
  let o1 := wrap_pipenv_environment v1 ["proj"; ".tox"; "py"; "Pipfile"] (ret tt) s in
  let o2 := wrap_pipenv_environment v2 ["proj"; ".tox"; "lint"; "Pipfile"] (ret tt)
              (out_st o1) in
  environ (out_st o2) !! "PIPENV_PIPFILE" = Some "/proj/.tox/py/Pipfile".
Proof.
  intros v1 v2 s o1 o2.
  apply (overlay_twice v1 v2 ["proj"; ".tox"; "py"; "Pipfile"]
           ["proj"; ".tox"; "lint"; "Pipfile"] (ret tt) (ret tt) s "PIPENV_PIPFILE").
  - unfold overlay_vars. rewrite !elem_of_cons. auto.
  - intros t. reflexivity.
  - intros t. reflexivity.
  - exists tt. reflexivity.
  - exists tt. reflexivity.
  - left. reflexivity.
Defined.

(** ** The hooks with one call *)

Lemma overlay_environment_inside (v : VirtualEnv) (s : State) :
  flags_set s ->
  overlay_environment v
    (environ (inside_overlay v (path_join (venv_path v) "Pipfile") s)).
Proof.
  intros Hflags. unfold overlay_environment, inside_overlay.
  cbn [with_environ environ].
  repeat split; try by simplify_map_eq.
  all: rewrite !lookup_insert_ne by done; apply Hflags;
    unfold flag_vars; rewrite !elem_of_cons; auto.
Qed.

Lemma calls_cons (ev : event) (evs : list event) :
  calls (ev :: evs) =
    match ev with
    | EvPcall req r => (req, r) :: calls evs
    | _ => calls evs
    end.
Proof. by destruct ev. Qed.

Lemma calls_nil : calls [] = [].
Proof. reflexivity. Qed.

Ltac calls_norm :=
  repeat first [ rewrite calls_app | rewrite calls_nil
               | rewrite calls_cons; cbv beta iota ].

Section OneCall.
Context `{Host}.

(** A scope whose body logs [pre], makes the call [req] and returns
    [g] of its output. *)
Lemma wrap_call {A} (v : VirtualEnv) (pipfile_path : path) (body : M A)
    (req : pcall_request) (pre : list event) (g : string -> A) (s : State) :
  (forall t, body t =
     Out (call_outcome (_pcall req (environ t) (fs t)).1 g)
         (with_fs (_pcall req (environ t) (fs t)).2 t)
         (pre ++ [EvPcall req (_pcall req (environ t) (fs t)).1])) ->
  let s_in := inside_overlay v pipfile_path s in
  let r := (_pcall req (environ s_in) (fs s_in)).1 in
  exists s3 post,
    wrap_pipenv_environment v pipfile_path body s =
      Out (call_outcome r g) s3
          (overlay_events v pipfile_path ++ (pre ++ [EvPcall req r]) ++ post) /\
    Forall not_call post /\ venv s3 = venv s /\
    (forall e, r = Raise e -> post = [] /\ environ s3 = environ s_in).
Proof.
  intros Hbody. cbv zeta. specialize (Hbody (inside_overlay v pipfile_path s)).
  destruct (_pcall req _ _).1 as [out|e] eqn:Hr; cbn [call_outcome] in *.
  - destruct (wrap_exit _ _ _ _ _ _ _ Hbody) as (s3 & post & -> & Hpost & _ & Hv & _).
    exists s3, post. by repeat split.
  - rewrite (wrap_raise _ _ _ _ _ _ _ Hbody). do 2 eexists.
    split; [by rewrite app_nil_r|]. split; [done|]. split; [done|].
    intros e' _. done.
Qed.

Lemma pcall_run (req : pcall_request) (t : State) :
  pcall req t =
    Out (call_outcome (_pcall req (environ t) (fs t)).1 (fun out => out))
        (with_fs (_pcall req (environ t) (fs t)).2 t)
        ([] ++ [EvPcall req (_pcall req (environ t) (fs t)).1]).
Proof. unfold pcall, call_outcome. cbv zeta. by destruct (_pcall _ _ _).1. Qed.

(** A step that makes no call and keeps [P], in front of the rest. *)
Lemma bind_quiet {A B} (P : State -> Prop) (m : M A) (k : A -> M B) (s : State) :
  preserves P m -> emits not_call m -> P s ->
  (exists e s1 evs, bind m k s = Out (Raise e) s1 evs /\ calls evs = [] /\ P s1) \/
  (exists a s1 evs, bind m k s = after evs (k a s1) /\ calls evs = [] /\ P s1).
Proof.
  intros Hp He Hs. specialize (Hp s Hs). specialize (He s).
  apply calls_not_call in He. unfold bind.
  destruct (m s) as [[a|e] s1 evs]; cbn [out_st out_evs] in *; [right|left]; eauto 10.
Qed.

Lemma elem_of_calls_after {A} (evs : list event) (o : outcome A)
    (c : pcall_request * result string) :
  calls evs = [] -> c ∈ calls (out_evs (after evs o)) -> c ∈ calls (out_evs o).
Proof. intros Hevs. cbn [after out_evs]. by rewrite calls_app, Hevs. Qed.

Lemma calls_after {A} (evs : list event) (o : outcome A) :
  calls evs = [] -> calls (out_evs (after evs o)) = calls (out_evs o).
Proof. intros Hevs. cbn [after out_evs]. by rewrite calls_app, Hevs. Qed.

(** X6.  The creation hook makes at most one call.  When it makes it:
    the interpreter was resolved; the argument vector is the Python
    executable, "-m", "pipenv", then "--site-packages" when site
    packages are enabled, then "--python" and the interpreter; the
    working directory is the parent of the environment directory; the
    call runs in the overlay of the environment; the hook returns True
    when the call returns and raises what the call raises, and then the
    overlay is still in force when the hook ends. *)
Theorem create_call (action : string) (s : State) (req : pcall_request)
    (r : result string) :
  let o := tox_testenv_create action s in
  (req, r) ∈ calls (out_evs o) ->
  calls (out_evs o) = [(req, r)] /\
  (exists interpreter,
     getsupportedinterpreter (venv s) = Ok interpreter /\
     req = mk_pcall (create_args (venv s) interpreter)
                    (dirpath (venv_path (venv s))) action None None) /\
  (exists env f, overlay_environment (venv s) env /\ r = (_pcall req env f).1) /\
  out_res o = call_outcome r (fun _ => true) /\
  (forall e, r = Raise e -> overlay_environment (venv s) (environ (out_st o))).
Proof.
  cbv zeta. destruct (tox_testenv_create action s) as [R S E] eqn:Hrun.
  cbn [out_res out_st out_evs]. revert Hrun. unfold tox_testenv_create.
  destruct (init_pipenv_environ_run s) as (s0 & Hinit & Hflags & _ & Hv0).
  rewrite (bind_ok _ _ _ _ _ _ Hinit).
  cbn [bind get_venv after out_res out_st out_evs]. rewrite Hv0.
  destruct (getsupportedinterpreter (venv s)) as [interpreter|e] eqn:Hint;
    cbn [bind lift_result after out_res out_st out_evs].
  2:{ intros [= <- <- <-] Hin. by apply elem_of_nil in Hin. }
  cbn [bind session_make_emptydir after out_res out_st out_evs].
  set (args := (if sitepackages (venv s)
                then [sys_executable; "-m"; "pipenv"] ++ ["--site-packages"]
                else [sys_executable; "-m"; "pipenv"]) ++ ["--python"; interpreter]).
  assert (Hargs : args = create_args (venv s) interpreter).
  { unfold args, create_args. by destruct (sitepackages (venv s)). }
  set (basepath := dirpath (venv_path (venv s))).
  set (call := mk_pcall args basepath action None None).
  assert (Hcall : call = mk_pcall (create_args (venv s) interpreter) basepath action
                           None None) by (unfold call; by rewrite Hargs).
  clearbody call. clear Hargs.
  set (P := fun t : State => flags_set t /\ venv t = venv s).
  assert (HP0 : P (with_fs (make_emptydir (venv_path (venv s)) (fs s0)) s0)) by done.
  generalize dependent (with_fs (make_emptydir (venv_path (venv s)) (fs s0)) s0).
  intros s1 HP1.
  destruct (bind_quiet P (ensure_dir basepath)
              (fun _ => pipfile_path <- _clone_pipfile (venv s) ;;
                        wrap_pipenv_environment (venv s) pipfile_path (pcall call) ;;
                        ret true) s1)
    as [(e & s2 & evs2 & -> & Hc2 & _)|(a & s2 & evs2 & -> & Hc2 & HP2)];
    [apply preserves_ensure_dir; blind|by apply emits_ensure_dir|done| |].
  { cbn [out_res out_st out_evs]. intros [= <- <- <-].
    calls_norm. rewrite Hc2. intros Hin. by apply elem_of_nil in Hin. }
  unfold bind at 1.
  pose proof (clone_pipfile_no_calls (venv s) s2) as Hc3.
  pose proof (preserves_clone_pipfile P (venv s) ltac:(blind) s2 HP2) as HP3.
  destruct (_clone_pipfile (venv s) s2) as [[pipfile_path|e] s3 evs3] eqn:Hclone;
    cbn [out_st out_evs] in Hc3, HP3.
  2:{ cbn [after out_res out_st out_evs]. intros [= <- <- <-].
      calls_norm. rewrite Hc2, Hc3. intros Hin. by apply elem_of_nil in Hin. }
  destruct (clone_pipfile_returned_run _ _ _ _ _ Hclone) as (-> & _).
  destruct HP3 as [Hflags3 Hv3].
  destruct (wrap_call (venv s) (path_join (venv_path (venv s)) "Pipfile")
              (pcall call) call [] (fun out => out) s3 (pcall_run _))
    as (s4 & post & Hwrap & Hpost & Hv4 & Hraise).
  cbv zeta in Hwrap, Hraise.
  pose proof (overlay_environment_inside (venv s) s3 Hflags3) as Henv.
  set (s_in := inside_overlay (venv s) (path_join (venv_path (venv s)) "Pipfile") s3)
    in *.
  unfold bind at 1. rewrite Hwrap.
  apply calls_not_call in Hpost.
  destruct (_pcall call (environ s_in) (fs s_in)).1 as [out|e] eqn:Hr0;
    cbn [call_outcome ret after out_res out_st out_evs];
    intros [= <- <- <-]; unfold overlay_events; calls_norm;
    rewrite Hc2, Hc3, Hpost; cbn [app];
    intros Hin%list_elem_of_singleton; injection Hin as -> ->;
    (split; [done|]); (split; [by exists interpreter|]);
    (split; [exists (environ s_in), (fs s_in); by rewrite Hr0|]);
    (split; [done|]).
  - done.
  - intros e' _. destruct (Hraise e eq_refl) as [_ ->]. done.
Qed.

(** X7.  When the interpreter cannot be resolved, the creation hook
    raises what the host raised, right after setting the flags: the
    environment directory is not emptied, nothing is cloned, nothing is
    invoked.  The installation hook does the same when the dependencies
    cannot be resolved. *)
Theorem unresolved_raises (action : string) (s : State) (e : exn) :
  (getsupportedinterpreter (venv s) = Raise e ->
   let o := tox_testenv_create action s in
   out_res o = Raise e /\ out_evs o = init_events /\
   fs (out_st o) = fs s /\ venv (out_st o) = venv s) /\
  (_getresolvedeps (venv s) = Raise e ->
   let o := tox_testenv_install_deps action s in
   out_res o = Raise e /\ out_evs o = init_events /\
   fs (out_st o) = fs s /\ venv (out_st o) = venv s).
Proof.
  destruct (init_pipenv_environ_run s) as (s0 & Hinit & _ & Hfs0 & Hv0).
  split; intros Hraise; cbv zeta.
  - unfold tox_testenv_create. rewrite (bind_ok _ _ _ _ _ _ Hinit).
    cbn [bind get_venv after out_res out_st out_evs]. rewrite Hv0, Hraise.
    cbn [bind lift_result after out_res out_st out_evs]. by rewrite !app_nil_r.
  - unfold tox_testenv_install_deps. rewrite (bind_ok _ _ _ _ _ _ Hinit).
    cbn [bind get_venv after out_res out_st out_evs]. rewrite Hv0, Hraise.
    cbn [bind lift_result after out_res out_st out_evs]. by rewrite !app_nil_r.
Qed.

(** X8.  The installation hook makes at most one call.  When it makes
    it: the dependencies were resolved; the argument vector is the
    Python executable, "-m", "pipenv", "install", "--dev", then "--pre"
    when pre-releases are enabled, then the dependencies; the activity
    "installdeps" is logged just before, with the dependencies joined by
    commas, or "[]" when there are none; the call runs in the overlay of
    the environment; the hook returns True when the call returns and
    raises what the call raises, the overlay still in force. *)
Theorem install_deps_call (action : string) (s : State) (req : pcall_request)
    (r : result string) :
  let o := tox_testenv_install_deps action s in
  (req, r) ∈ calls (out_evs o) ->
  calls (out_evs o) = [(req, r)] /\
  (exists deps,
     _getresolvedeps (venv s) = Ok deps /\
     req = mk_pcall (install_args (venv s) deps)
                    (dirpath (venv_path (venv s))) action None None /\
     exists pre post,
       out_evs o =
         pre ++ [EvSetActivity action "installdeps"
                   (match deps with [] => "[]" | _ => str_join "," deps end);
                 EvPcall req r] ++ post) /\
  (exists env f, overlay_environment (venv s) env /\ r = (_pcall req env f).1) /\
  out_res o = call_outcome r (fun _ => true) /\
  (forall e, r = Raise e -> overlay_environment (venv s) (environ (out_st o))).
Proof.
  cbv zeta. destruct (tox_testenv_install_deps action s) as [R S E] eqn:Hrun.
  cbn [out_res out_st out_evs]. revert Hrun. unfold tox_testenv_install_deps.
  destruct (init_pipenv_environ_run s) as (s0 & Hinit & Hflags & _ & Hv0).
  rewrite (bind_ok _ _ _ _ _ _ Hinit).
  cbn [bind get_venv after out_res out_st out_evs]. rewrite Hv0.
  destruct (_getresolvedeps (venv s)) as [deps|e] eqn:Hdeps;
    cbn [bind lift_result after out_res out_st out_evs].
  2:{ intros [= <- <- <-] Hin. by apply elem_of_nil in Hin. }
  set (args := if pip_pre (venv s)
               then [sys_executable; "-m"; "pipenv"; "install"; "--dev"] ++ ["--pre"]
               else [sys_executable; "-m"; "pipenv"; "install"; "--dev"]).
  set (basepath := dirpath (venv_path (venv s))).
  set (msg := match deps with [] => "[]" | _ => str_join "," deps end).
  set (call := mk_pcall (install_args (venv s) deps) basepath action None None).
  set (body := (args0 <- match deps with
                         | [] => setactivity action "installdeps" "[]" ;; ret args
                         | _ => setactivity action "installdeps" (str_join "," deps) ;;
                                ret (args ++ deps)
                         end ;;
                pcall (mk_pcall args0 basepath action None None))).
  assert (Hbody : forall t, body t =
     Out (call_outcome (_pcall call (environ t) (fs t)).1 (fun out => out))
         (with_fs (_pcall call (environ t) (fs t)).2 t)
         ([EvSetActivity action "installdeps" msg]
            ++ [EvPcall call (_pcall call (environ t) (fs t)).1])).
  { intros t. unfold body, msg, call, install_args, args, pcall, call_outcome.
    destruct deps as [|d deps]; destruct (pip_pre (venv s));
      cbn [bind setactivity emit ret after out_res out_st out_evs app];
      rewrite ?app_nil_r; by destruct (_pcall _ _ _).1. }
  assert (Hcall : call = mk_pcall (install_args (venv s) deps) basepath action
                           None None) by done.
  clearbody body call. clear args.
  set (P := fun t : State => flags_set t /\ venv t = venv s).
  assert (HP0 : P s0) by done.
  destruct (bind_quiet P (ensure_dir basepath)
              (fun _ => pipfile_path <- _clone_pipfile (venv s) ;;
                        wrap_pipenv_environment (venv s) pipfile_path body ;;
                        ret true) s0)
    as [(e & s2 & evs2 & -> & Hc2 & _)|(a & s2 & evs2 & -> & Hc2 & HP2)];
    [apply preserves_ensure_dir; blind|by apply emits_ensure_dir|done| |].
  { cbn [out_res out_st out_evs]. intros [= <- <- <-].
    calls_norm. rewrite Hc2. intros Hin. by apply elem_of_nil in Hin. }
  unfold bind at 1.
  pose proof (clone_pipfile_no_calls (venv s) s2) as Hc3.
  pose proof (preserves_clone_pipfile P (venv s) ltac:(blind) s2 HP2) as HP3.
  destruct (_clone_pipfile (venv s) s2) as [[pipfile_path|e] s3 evs3] eqn:Hclone;
    cbn [out_st out_evs] in Hc3, HP3.
  2:{ cbn [after out_res out_st out_evs]. intros [= <- <- <-].
      calls_norm. rewrite Hc2, Hc3. intros Hin. by apply elem_of_nil in Hin. }
  destruct (clone_pipfile_returned_run _ _ _ _ _ Hclone) as (-> & _).
  destruct HP3 as [Hflags3 Hv3].
  destruct (wrap_call (venv s) (path_join (venv_path (venv s)) "Pipfile")
              body call _ (fun out => out) s3 Hbody)
    as (s4 & post & Hwrap & Hpost & Hv4 & Hraise).
  cbv zeta in Hwrap, Hraise.
  pose proof (overlay_environment_inside (venv s) s3 Hflags3) as Henv.
  set (s_in := inside_overlay (venv s) (path_join (venv_path (venv s)) "Pipfile") s3)
    in *.
  unfold bind at 1. rewrite Hwrap.
  apply calls_not_call in Hpost.
  destruct (_pcall call (environ s_in) (fs s_in)).1 as [out|e] eqn:Hr0;
    cbn [call_outcome ret after out_res out_st out_evs];
    intros [= <- <- <-] Hin;
    match goal with
    | |- calls ?E = _ /\ _ =>
        assert (Hcalls : calls E = [(call, (_pcall call (environ s_in) (fs s_in)).1)])
          by (unfold overlay_events; calls_norm; rewrite Hc2, Hc3, Hpost, Hr0; done)
    end;
    rewrite Hcalls in Hin |- *; rewrite Hr0 in Hin |- *;
    apply list_elem_of_singleton in Hin; injection Hin as -> ->;
    (split; [done|]); (split; [|split; [|split; [done|]]]).
  - exists deps. split; [done|]. split; [done|].
    exists (init_events ++ evs2 ++ evs3
              ++ overlay_events (venv s) (path_join (venv_path (venv s)) "Pipfile")),
      (post ++ []).
    rewrite <- !app_assoc. reflexivity.
  - exists (environ s_in), (fs s_in). by rewrite Hr0.
  - done.
  - exists deps. split; [done|]. split; [done|].
    exists (init_events ++ evs2 ++ evs3
              ++ overlay_events (venv s) (path_join (venv_path (venv s)) "Pipfile")),
      post.
    rewrite <- !app_assoc. reflexivity.
  - exists (environ s_in), (fs s_in). by rewrite Hr0.
  - intros e' _. destruct (Hraise e eq_refl) as [_ ->]. done.
Qed.

(** X9.  The report hook makes at most one call.  When it makes it,
    the call runs in the overlay of the environment; the hook returns
    the lines of the output when the call returns, and raises what the
    call raises, the overlay still in force. *)
Theorem runenvreport_call (action : string) (s : State) (req : pcall_request)
    (r : result string) :
  let o := tox_runenvreport action s in
  (req, r) ∈ calls (out_evs o) ->
  calls (out_evs o) = [(req, r)] /\
  (exists env f, overlay_environment (venv s) env /\ r = (_pcall req env f).1) /\
  out_res o = call_outcome r (str_split newline) /\
  (forall e, r = Raise e -> overlay_environment (venv s) (environ (out_st o))).
Proof.
  cbv zeta. destruct (tox_runenvreport action s) as [R S E] eqn:Hrun.
  cbn [out_res out_st out_evs]. revert Hrun. unfold tox_runenvreport.
  destruct (init_pipenv_environ_run s) as (s0 & Hinit & Hflags & _ & Hv0).
  rewrite (bind_ok _ _ _ _ _ _ Hinit).
  cbn [bind get_venv after out_res out_st out_evs]. rewrite Hv0.
  set (basepath := dirpath (venv_path (venv s))).
  set (call := mk_pcall [sys_executable; "-m"; "pipenv"; "graph"] basepath action
                        None None).
  set (body := (setactivity action "runenvreport" "" ;;
                output <- pcall call ;;
                ret (str_split newline output))).
  assert (Hbody : forall t, body t =
     Out (call_outcome (_pcall call (environ t) (fs t)).1 (str_split newline))
         (with_fs (_pcall call (environ t) (fs t)).2 t)
         ([EvSetActivity action "runenvreport" ""]
            ++ [EvPcall call (_pcall call (environ t) (fs t)).1])).
  { intros t. unfold body, pcall, call_outcome.
    cbn [bind setactivity emit ret after out_res out_st out_evs app].
    by destruct (_pcall _ _ _).1. }
  clearbody body call.
  set (P := fun t : State => flags_set t /\ venv t = venv s).
  assert (HP0 : P s0) by done.
  unfold bind at 1.
  pose proof (clone_pipfile_no_calls (venv s) s0) as Hc2.
  pose proof (preserves_clone_pipfile P (venv s) ltac:(blind) s0 HP0) as HP2.
  destruct (_clone_pipfile (venv s) s0) as [[pipfile_path|e] s2 evs2] eqn:Hclone;
    cbn [out_st out_evs] in Hc2, HP2.
  2:{ cbn [after out_res out_st out_evs]. intros [= <- <- <-].
      calls_norm. rewrite Hc2. intros Hin. by apply elem_of_nil in Hin. }
  destruct (clone_pipfile_returned_run _ _ _ _ _ Hclone) as (-> & _).
  destruct (bind_quiet P (ensure_dir basepath)
              (fun _ => wrap_pipenv_environment (venv s)
                          (path_join (venv_path (venv s)) "Pipfile") body) s2)
    as [(e & s3 & evs3 & -> & Hc3 & _)|(a & s3 & evs3 & -> & Hc3 & HP3)];
    [apply preserves_ensure_dir; blind|by apply emits_ensure_dir|done| |].
  { cbn [after out_res out_st out_evs]. intros [= <- <- <-].
    calls_norm. rewrite Hc2, Hc3. intros Hin. by apply elem_of_nil in Hin. }
  destruct HP3 as [Hflags3 Hv3].
  destruct (wrap_call (venv s) (path_join (venv_path (venv s)) "Pipfile")
              body call _ (str_split newline) s3 Hbody)
    as (s4 & post & Hwrap & Hpost & Hv4 & Hraise).
  cbv zeta in Hwrap, Hraise.
  pose proof (overlay_environment_inside (venv s) s3 Hflags3) as Henv.
  set (s_in := inside_overlay (venv s) (path_join (venv_path (venv s)) "Pipfile") s3)
    in *.
  rewrite Hwrap. apply calls_not_call in Hpost.
  destruct (_pcall call (environ s_in) (fs s_in)).1 as [out|e] eqn:Hr0;
    cbn [call_outcome ret after out_res out_st out_evs];
    intros [= <- <- <-] Hin;
    match goal with
    | |- calls ?E = _ /\ _ =>
        assert (Hcalls : calls E = [(call, (_pcall call (environ s_in) (fs s_in)).1)])
          by (unfold overlay_events; calls_norm; rewrite Hc2, Hc3, Hpost, Hr0; done)
    end;
    rewrite Hcalls in Hin |- *; rewrite Hr0 in Hin |- *;
    apply list_elem_of_singleton in Hin; injection Hin as -> ->;
    (split; [done|]);
    (split; [exists (environ s_in), (fs s_in); by rewrite Hr0|]);
    (split; [done|]).
  - done.
  - intros e' _. destruct (Hraise e eq_refl) as [_ ->]. done.
Qed.

End OneCall.

Lemma create_call_witness :
  let host := script_host (fun _ => Raise (InvocationError "pipenv")) in
  let s := demo_state ∅ (demo_venv [] false false) in
  let o := @tox_testenv_create host "create" s in
  out_res o = Raise (InvocationError "pipenv") /\
  overlay_environment (venv s) (environ (out_st o)).
Proof.
  intros host s o.
  destruct (@create_call host "create" s
              (mk_pcall ["python"; "-m"; "pipenv"; "--python"; "/usr/bin/python3"]
                        ["proj"; ".tox"] "create" None None)
              (Raise (InvocationError "pipenv")))
    as (_ & _ & _ & Hres & Henv).
  - vm_compute. apply list_elem_of_here.
  - split; [exact Hres|]. by apply (Henv (InvocationError "pipenv")).
Defined.

Lemma unresolved_raises_witness :
  let host := unresolved_host (OtherError "InterpreterNotFound") in
  let s := demo_state ∅ (demo_venv [] false false) in
  out_evs (@tox_testenv_create host "create" s) = init_events /\
  out_evs (@tox_testenv_install_deps host "install" s) = init_events.
Proof.
  intros host s.
  destruct (@unresolved_raises host "create" s (OtherError "InterpreterNotFound"))
    as [Hcreate _].
  destruct (@unresolved_raises host "install" s (OtherError "InterpreterNotFound"))
    as [_ Hinstall].
  split.
  - apply Hcreate. reflexivity.
  - apply Hinstall. reflexivity.
Defined.

Lemma install_deps_call_witness :
  let host := deps_host ["pytest"; "six"] (fun _ => Ok EmptyString) in
  let s := demo_state ∅ (demo_venv [] false false) in
  let o := @tox_testenv_install_deps host "install" s in
  out_res o = Ok true /\
  calls (out_evs o) =
    [(mk_pcall ["python"; "-m"; "pipenv"; "install"; "--dev"; "pytest"; "six"]
               ["proj"; ".tox"] "install" None None, Ok EmptyString)].
Proof.
  intros host s o.
  destruct (@install_deps_call host "install" s
              (mk_pcall ["python"; "-m"; "pipenv"; "install"; "--dev"; "pytest"; "six"]
                        ["proj"; ".tox"] "install" None None) (Ok EmptyString))
    as (Hcalls & _ & _ & Hres & _).
  - vm_compute. apply list_elem_of_here.
  - by split.
Defined.

Lemma runenvreport_call_witness :
  let host := script_host (fun _ => Raise (InvocationError "pipenv graph")) in
  let s := demo_state ∅ (demo_venv [] false false) in
  let o := @tox_runenvreport host "report" s in
  out_res o = Raise (InvocationError "pipenv graph") /\
  overlay_environment (venv s) (environ (out_st o)).
Proof.
  intros host s o.
  destruct (@runenvreport_call host "report" s
              (mk_pcall ["python"; "-m"; "pipenv"; "graph"]
                        ["proj"; ".tox"] "report" None None)
              (Raise (InvocationError "pipenv graph")))
    as (_ & _ & Hres & Henv).
  - vm_compute. apply list_elem_of_here.
  - split; [exact Hres|]. by apply (Henv (InvocationError "pipenv graph")).
Defined.

(** ** What the hooks leave alone *)

Lemma preserves_lookup_setenv (k k' v : string) (val : option string) :
  k' <> k -> preserves (fun t => environ t !! k = val) (setenv k' v).
Proof. intros Hne t Ht. cbn [setenv out_st with_environ environ]. by rewrite lookup_insert_ne. Qed.

Section Frames.
Context `{Host}.

Lemma preserves_except_blind (P : State -> Prop) (r : result string) :
  venv_blind P -> preserves P (runtest_except r).
Proof. intros HP. unfold runtest_except, report. frame. Qed.

Lemma preserves_command_blind (P : State -> Prop) redirect action i argv :
  fs_blind P -> venv_blind P -> preserves P (runtest_command redirect action i argv).
Proof.
  intros Hfs Hvenv. unfold runtest_command, runtest_argv, setactivity.
  frame; first [by apply preserves_pcall | by apply preserves_except_blind].
Qed.

Lemma preserves_loop_blind (P : State -> Prop) redirect action pending :
  fs_blind P -> venv_blind P ->
  forall i, preserves P (runtest_loop redirect action i pending).
Proof.
  intros Hfs Hvenv. induction pending as [|argv rest IH]; intros i; simpl.
  - apply preserves_ret.
  - apply preserves_bind; [by apply preserves_command_blind|].
    intros []; [apply IH|apply preserves_ret].
Qed.

(** X10.  The creation, installation and report hooks assign nothing
    of [venv]: it is at the end what it was, whether the hook returns
    or raises. *)
Theorem hooks_leave_venv (action : string) (s : State) :
  venv (out_st (tox_testenv_create action s)) = venv s /\
  venv (out_st (tox_testenv_install_deps action s)) = venv s /\
  venv (out_st (tox_runenvreport action s)) = venv s.
Proof.
  set (P := fun t : State => venv t = venv s).
  assert (forall A (m : M A), preserves P m -> venv (out_st (m s)) = venv s)
    as Hend by (intros A m Hm; by apply Hm).
  split; [|split]; apply Hend.
  all: unfold tox_testenv_create, tox_testenv_install_deps, tox_runenvreport,
         _init_pipenv_environ, wrap_pipenv_environment, setactivity; frame.
  all: first [ apply preserves_clone_pipfile; blind
             | apply preserves_make_emptydir; blind
             | apply preserves_pcall; blind ].
Qed.

(** X11.  The four hooks assign six variables of the process
    environment and no other: a variable that is none of them is at the
    end of a hook what it was, absent if it was absent. *)
Theorem hooks_other_variables (action : string) (redirect : bool) (s : State)
    (k : string) :
  k ∉ flag_vars -> k ∉ overlay_vars ->
  environ (out_st (tox_testenv_create action s)) !! k = environ s !! k /\
  environ (out_st (tox_testenv_install_deps action s)) !! k = environ s !! k /\
  environ (out_st (tox_runtest redirect s)) !! k = environ s !! k /\
  environ (out_st (tox_runenvreport action s)) !! k = environ s !! k.
Proof.
  intros Hflag Hoverlay.
  unfold flag_vars in Hflag. unfold overlay_vars in Hoverlay.
  rewrite !not_elem_of_cons in Hflag, Hoverlay.
  destruct Hflag as (? & ? & ? & _). destruct Hoverlay as (? & ? & ? & _).
  set (P := fun t : State => environ t !! k = environ s !! k).
  assert (forall A (m : M A), preserves P m ->
            environ (out_st (m s)) !! k = environ s !! k)
    as Hend by (intros A m Hm; by apply Hm).
  split; [|split; [|split]]; apply Hend.
  all: unfold tox_testenv_create, tox_testenv_install_deps, tox_runtest,
         tox_runenvreport, _init_pipenv_environ, wrap_pipenv_environment,
         setactivity; frame.
  all: first [ apply preserves_lookup_setenv; congruence
             | apply preserves_clone_pipfile; blind
             | apply preserves_make_emptydir; blind
             | apply preserves_pcall; blind
             | apply preserves_loop_blind; blind ].
Qed.

End Frames.

Lemma hooks_other_variables_witness :
  let host := script_host (fun _ => Raise KeyboardInterrupt) in
  let s := demo_state {[ "PATH" := "/usr/bin" ]} (demo_venv [["pytest"]] false false) in
  environ (out_st (@tox_runtest host true s)) !! "PATH" = Some "/usr/bin".
Proof.
  intros host s.
  destruct (@hooks_other_variables host "act" true s "PATH") as (_ & _ & Hrun & _).
  - unfold flag_vars. rewrite !not_elem_of_cons. repeat split; try discriminate.
    apply not_elem_of_nil.
  - unfold overlay_vars. rewrite !not_elem_of_cons. repeat split; try discriminate.
    apply not_elem_of_nil.
  - rewrite Hrun. reflexivity.
Defined.

(** ** The test hook, further *)

Section Raises.
Context {A B : Type}.
Implicit Types (Q : exn -> Prop).

Lemma raises_bind Q (m : M A) (k : A -> M B) :
  raises Q m -> (forall a, raises Q (k a)) -> raises Q (bind m k).
Proof.
  intros Hm Hk s e. unfold bind. specialize (Hm s).
  destruct (m s) as [[a|e'] s1 evs]; cbn [after out_res] in *.
  - apply Hk.
  - intros [= <-]. by apply Hm.
Qed.

Lemma raises_never Q (m : M A) : (forall s, exists a, out_res (m s) = Ok a) -> raises Q m.
Proof. intros Hm s e He. destruct (Hm s) as [a Ha]. congruence. Qed.

End Raises.

Lemma raises_ensure_dir p : raises not_invocation_error (ensure_dir p).
Proof. intros s e. unfold ensure_dir. cbv zeta. case_match; by intros [= <-]. Qed.

Lemma raises_touch p : raises not_invocation_error (touch p).
Proof. intros s e. unfold touch. repeat case_match; by intros [= <-]. Qed.

Lemma raises_copy src dst : raises not_invocation_error (copy src dst).
Proof. intros s e. unfold copy. repeat case_match; by intros [= <-]. Qed.

Ltac never_raises := apply raises_never; intros ?; eexists; reflexivity.

Lemma raises_clone_pipfile v : raises not_invocation_error (_clone_pipfile v).
Proof.
  unfold _clone_pipfile.
  repeat first [ apply raises_bind; [|intros ?]
               | apply raises_ensure_dir | apply raises_touch | apply raises_copy
               | never_raises
               | progress case_match ].
Qed.

Lemma raises_wrap {A} Q v pipfile_path (body : M A) :
  raises Q body -> raises Q (wrap_pipenv_environment v pipfile_path body).
Proof.
  intros Hbody. unfold wrap_pipenv_environment.
  repeat first [ apply raises_bind; [|intros ?]
               | assumption
               | never_raises
               | progress case_match ].
Qed.

Section RunTestFurther.
Context `{Host}.

Lemma raises_except (r : result string) : raises not_invocation_error (runtest_except r).
Proof.
  intros s e. rewrite except_run. cbn [out_res].
  destruct r as [out|[]]; simpl; try done; by intros [= <-].
Qed.

Lemma raises_command redirect action i argv :
  raises not_invocation_error (runtest_command redirect action i argv).
Proof.
  unfold runtest_command, runtest_argv, setactivity.
  repeat first [ apply raises_bind; [|intros ?]
               | apply raises_except
               | never_raises
               | progress case_match ].
  by intros s e [= <-].
Qed.

Lemma raises_loop redirect action pending :
  forall i, raises not_invocation_error (runtest_loop redirect action i pending).
Proof.
  induction pending as [|argv rest IH]; intros i; simpl.
  - never_raises.
  - apply raises_bind; [apply raises_command|].
    intros []; [apply IH|never_raises].
Qed.

(** X12.  The test hook never raises an invocation error: those of its
    calls are all caught.  Whatever it raises is something else. *)
Theorem runtest_no_invocation_error (redirect : bool) (s : State) (e : exn) :
  out_res (tox_runtest redirect s) = Raise e -> not_invocation_error e.
Proof.
  revert s e. change (raises not_invocation_error (tox_runtest redirect)).
  unfold tox_runtest. cbv zeta.
  apply raises_bind; [never_raises|intros _].
  apply raises_bind; [never_raises|intros v].
  apply raises_bind; [apply raises_clone_pipfile|intros pipfile_path].
  apply raises_bind; [never_raises|intros _].
  apply raises_bind; [|intros _; never_raises].
  apply raises_wrap.
  apply raises_bind; [never_raises|intros seed].
  apply raises_bind; [never_raises|intros _].
  apply raises_loop.
Qed.

End RunTestFurther.

Lemma runtest_no_invocation_error_witness :
  let host := script_host (fails_on "flake8" true) in
  let s := demo_state ∅ (demo_venv [["pytest"]; ["flake8"]] false false) in
  out_res (@tox_runtest host true s) = Raise KeyboardInterrupt /\
  not_invocation_error KeyboardInterrupt.
Proof.
  intros host s. split; [vm_compute; reflexivity|].
  apply (@runtest_no_invocation_error host true s KeyboardInterrupt).
  vm_compute. reflexivity.
Defined.

Section RunTestCalls.
Context `{Host}.

Lemma argv_state_environ (i : nat) (argv : list string) (s : State) :
  environ (argv_state i argv s) = environ s.
Proof. unfold argv_state. by destruct (ignore_ret_of argv). Qed.

Lemma command_state_environ redirect action (i : nat) (argv : list string) (s : State) :
  environ (command_state redirect action i argv s) = environ s.
Proof. unfold command_state. cbn [with_venv with_fs environ]. apply argv_state_environ. Qed.

(** Every call of the loop is made in the environment the loop starts
    in. *)
Lemma run_environment redirect action i pending s o :
  loop_run redirect action i pending s o ->
  forall k req r, calls (out_evs o) !! k = Some (req, r) ->
  exists f, r = (_pcall req (environ s) f).1.
Proof.
  induction 1 as [i s|i rest s|i tok tl rest s o Hctl Hrun IH|i tok tl rest s Hctl
                 |i tok tl rest s e Hctl];
    intros k req r Hk; cbn [after out_res out_st out_evs] in *;
    rewrite ?calls_app, ?command_calls in *; try done.
  - destruct k as [|k]; simpl in Hk.
    + injection Hk as <- <-. unfold command_result. cbv zeta.
      rewrite argv_state_environ. eauto.
    + destruct (IH _ _ _ Hk) as [f Hf]. rewrite command_state_environ in Hf. eauto.
  - destruct k as [|k]; [|done]. injection Hk as <- <-.
    unfold command_result. cbv zeta. rewrite argv_state_environ. eauto.
  - destruct k as [|k]; [|done]. injection Hk as <- <-.
    unfold command_result. cbv zeta. rewrite argv_state_environ. eauto.
Qed.

(** The loop assigns no environment variable. *)
Lemma run_environ redirect action i pending s o :
  loop_run redirect action i pending s o -> environ (out_st o) = environ s.
Proof.
  induction 1 as [i s|i rest s|i tok tl rest s o Hctl Hrun IH|i tok tl rest s Hctl
                 |i tok tl rest s e Hctl]; cbn [after out_st];
    rewrite ?IH; by rewrite ?command_state_environ.
Qed.

(** The loop of the hook starts in the overlay of the environment. *)
Lemma tox_runtest_overlay (redirect : bool) (s : State) (i : nat)
    (c : pcall_request * result string) :
  let o := tox_runtest redirect s in
  calls (out_evs o) !! i = Some c ->
  exists s1 ol,
    loop_run redirect "runtests" 0 (commands (venv s)) s1 ol /\
    overlay_environment (venv s) (environ s1) /\
    calls (out_evs o) = calls (out_evs ol) /\
    (forall e, out_res o = Raise e -> environ (out_st o) = environ (out_st ol)).
Proof.
  cbv zeta. destruct (tox_runtest redirect s) as [R S E] eqn:Hrun.
  cbn [out_res out_st out_evs]. revert Hrun. unfold tox_runtest.
  destruct (init_pipenv_environ_run s) as (s0 & Hinit & Hflags & _ & Hv0).
  rewrite (bind_ok _ _ _ _ _ _ Hinit).
  cbn [bind get_venv after out_res out_st out_evs]. rewrite Hv0.
  pose proof (clone_pipfile_no_calls (venv s) s0) as Hc1.
  pose proof (preserves_clone_pipfile flags_set (venv s) ltac:(blind) s0 Hflags) as Hf1.
  destruct (_clone_pipfile (venv s) s0) as [[pipfile_path|e] s1 evs1] eqn:Hclone;
    cbn [out_res out_st out_evs] in *.
  2:{ rewrite (bind_raise _ _ _ _ _ _ Hclone). intros [= <- <- <-].
      calls_norm. by rewrite Hc1. }
  destruct (clone_pipfile_returned_run _ _ _ _ _ Hclone) as (-> & _).
  rewrite (bind_ok _ _ _ _ _ _ Hclone).
  cbn [bind emit after out_res out_st out_evs].
  set (body := (seed <- getenv "PYTHONHASHSEED" ;;
                setactivity "runtests" "runtests" ("PYTHONHASHSEED=" +:+ py_repr seed) ;;
                runtest_loop redirect "runtests" 0 (commands (venv s)))).
  set (s_in := inside_overlay (venv s) (path_join (venv_path (venv s)) "Pipfile") s1).
  set (hashseed := EvSetActivity "runtests" "runtests"
                     ("PYTHONHASHSEED=" +:+ py_repr (environ s_in !! "PYTHONHASHSEED"))).
  pose proof (loop_runs redirect "runtests" (commands (venv s)) 0 s_in) as Hloop.
  intros Hrun Hi. exists s_in, (runtest_loop redirect "runtests" 0 (commands (venv s)) s_in).
  split; [done|]. split; [by apply overlay_environment_inside|].
  clear Hi Hloop. revert Hrun.
  destruct (runtest_loop redirect "runtests" 0 (commands (venv s)) s_in)
    as [[[]|e] s2 evs2] eqn:Hl; cbn [out_st out_evs].
  - assert (Hbody : body s_in = Out (Ok tt) s2 ([hashseed] ++ evs2)).
    { unfold body. cbn [bind getenv setactivity emit after out_res out_st out_evs].
      by rewrite Hl. }
    destruct (wrap_exit _ _ _ _ _ _ _ Hbody) as (s3 & evs3 & Hwrap & Hevs3 & _).
    rewrite (bind_ok _ _ _ _ _ _ Hwrap).
    cbn [ret after out_res out_st out_evs]. intros [= <- <- <-].
    split; [|done]. unfold overlay_events, hashseed. calls_norm.
    by rewrite Hc1, (calls_not_call _ Hevs3), !app_nil_r.
  - assert (Hbody : body s_in = Out (Raise e) s2 ([hashseed] ++ evs2)).
    { unfold body. cbn [bind getenv setactivity emit after out_res out_st out_evs].
      by rewrite Hl. }
    rewrite (bind_raise _ _ _ _ _ _ (wrap_raise _ _ _ _ _ _ _ Hbody)).
    intros [= <- <- <-]. split; [|done]. unfold overlay_events, hashseed. calls_norm.
    by rewrite Hc1.
Qed.

(** X13.  When every call of the test hook returns and no command is
    empty, the hook leaves the status as it was; and it either raised
    before any call, in the cloning step, or returns True having invoked
    every command, in order. *)
Theorem runtest_all_returned (redirect : bool) (s : State) :
  let o := tox_runtest redirect s in
  Forall (fun argv => argv <> []) (commands (venv s)) ->
  Forall (fun c => returned c.2) (calls (out_evs o)) ->
  status (venv (out_st o)) = status (venv s) /\
  ((exists e, out_res o = Raise e /\ calls (out_evs o) = []) \/
   (out_res o = Ok true /\
    forall j argv, commands (venv s) !! j = Some argv ->
      exists out, calls (out_evs o) !! j =
                    Some (run_request redirect "runtests" (venv s) argv, Ok out))).
Proof.
  cbv zeta. intros Hne Hret.
  destruct (tox_runtest_view redirect s)
    as [(e & Hres & Hnone & Hv)|(s1 & pre & post & Hv & Hevs & Hpre & Hpost & Hvenv
                                 & Hres & _)].
  { split; [by rewrite Hv|]. left. eauto. }
  pose proof (loop_runs redirect "runtests" (commands (venv s)) 0 s1) as Hrun.
  assert (Hcalls : calls (out_evs (tox_runtest redirect s)) =
                   calls (out_evs (runtest_loop redirect "runtests" 0
                                     (commands (venv s)) s1)))
    by (by rewrite Hevs, !calls_app, Hpre, Hpost, app_nil_r).
  rewrite Hcalls in *.
  destruct (run_returned _ _ _ _ _ _ Hrun Hne Hret) as (Hok & Hlen & Hst).
  split; [by rewrite Hvenv, Hst, Hv|]. right.
  split; [by rewrite Hres, Hok|]. intros j argv Hj.
  destruct (lookup_lt_is_Some_2
              (calls (out_evs (runtest_loop redirect "runtests" 0
                                 (commands (venv s)) s1))) j) as [[req r] Hc].
  { rewrite Hlen. by apply lookup_lt_Some in Hj. }
  destruct (run_requests _ _ _ _ _ _ Hrun _ _ _ Hc) as (argv' & Hargv' & ->).
  rewrite Forall_lookup in Hret. pose proof (Hret _ _ Hc) as Hr. cbn [snd] in Hr.
  destruct r as [out|e]; [|done]. exists out. rewrite Hc, Hv. congruence.
Qed.

(** X14.  After the test hook, the commands it has invoked are stored
    stripped of their dash prefix, and the commands it has not reached
    are stored as they were. *)
Theorem runtest_stored_commands (redirect : bool) (s : State) :
  let o := tox_runtest redirect s in
  let invoked := length (calls (out_evs o)) in
  commands (venv (out_st o)) =
    (stripped <$> take invoked (commands (venv s)))
      ++ drop invoked (commands (venv s)).
Proof.
  cbv zeta.
  destruct (tox_runtest_view redirect s)
    as [(e & _ & -> & ->)|(s1 & pre & post & Hv & Hevs & Hpre & Hpost & -> & _)].
  - done.
  - pose proof (loop_runs redirect "runtests" (commands (venv s)) 0 s1) as Hrun.
    rewrite Hevs, !calls_app, Hpre, Hpost, app_nil_r. cbn [app].
    apply (run_commands_calls _ _ _ _ _ _ Hrun []); [by rewrite Hv|done].
Qed.

(** X15.  Running the test hook again on the same environment loses
    the dash prefix: a command whose first token starts with a dash and
    is longer is called with [ignore_ret] true by the first run and,
    with the same argument vector, with [ignore_ret] false by the
    second. *)
Theorem runtest_rerun (redirect : bool) (s : State) (j : nat) (tok : string)
    (rest : list string) (req1 req2 : pcall_request) (r1 r2 : result string) :
  let o1 := tox_runtest redirect s in
  let o2 := tox_runtest redirect (out_st o1) in
  commands (venv s) !! j = Some (tok :: rest) ->
  startswith tok "-" = true -> tok <> "-" ->
  calls (out_evs o1) !! j = Some (req1, r1) ->
  calls (out_evs o2) !! j = Some (req2, r2) ->
  pc_ignore_ret req1 = Some true /\
  pc_ignore_ret req2 = Some false /\
  pc_args req2 = pc_args req1.
Proof.
  cbv zeta. intros Hj Hdash Hne H1 H2.
  assert (Hstored : commands (venv (out_st (tox_runtest redirect s))) !! j
                    = Some (lstrip dash tok :: rest)).
  { rewrite tox_runtest_stored. apply lookup_lt_Some in H1.
    pose proof (lookup_lt_Some _ _ _ Hj) as Hlt.
    rewrite lookup_app_l by (rewrite length_fmap, length_take; lia).
    rewrite list_lookup_fmap, lookup_take_lt, Hj by done.
    cbn [fmap option_fmap option_map stripped]. by rewrite Hdash, decide_False. }
  assert (Hreq : forall t i req r argv,
    calls (out_evs (tox_runtest redirect t)) !! i = Some (req, r) ->
    commands (venv t) !! i = Some argv ->
    req = run_request redirect "runtests" (venv t) argv).
  { intros t i req r argv Hi Hargv.
    destruct (tox_runtest_loop _ _ _ _ Hi)
      as (s1 & pre & post & ol & Hrun & Hv & _ & _ & _ & Hcalls & _).
    rewrite Hcalls in Hi.
    destruct (run_requests _ _ _ _ _ _ Hrun _ _ _ Hi) as (argv' & Hargv' & ->).
    rewrite Hv. congruence. }
  rewrite (Hreq _ _ _ _ _ H1 Hj), (Hreq _ _ _ _ _ H2 Hstored).
  unfold run_request, mk_pcall. cbn [pc_ignore_ret pc_args].
  assert (Hclean : startswith (lstrip dash tok) "-" = false).
  { destruct (lstrip_spec dash tok) as (n & _ & Hstrip).
    destruct (lstrip dash tok) as [|a t] eqn:E; [done|].
    rewrite startswith_dash_cons. apply bool_decide_eq_false_2.
    intros ->. by apply (Hstrip t). }
  cbn [ignore_ret_of stripped].
  by rewrite Hdash, Hclean, decide_False.
Qed.

(** X16.  Every call of the test hook runs in the overlay of the
    environment: the overlay variables name its Pipfile and its
    directory, the flag variables are ["1"]. *)
Theorem runtest_calls_environment (redirect : bool) (s : State) (i : nat)
    (req : pcall_request) (r : result string) :
  calls (out_evs (tox_runtest redirect s)) !! i = Some (req, r) ->
  exists env f, overlay_environment (venv s) env /\ r = (_pcall req env f).1.
Proof.
  intros Hi.
  destruct (tox_runtest_overlay _ _ _ _ Hi) as (s1 & ol & Hrun & Henv & Hcalls & _).
  rewrite Hcalls in Hi.
  destruct (run_environment _ _ _ _ _ _ Hrun _ _ _ Hi) as [f ->]. eauto.
Qed.

(** X17.  When the test hook raises after it has made a call, as it
    does on an interrupt, the overlay of the environment is still in
    force when the hook ends. *)
Theorem runtest_raise_overlay (redirect : bool) (s : State) (e : exn) :
  let o := tox_runtest redirect s in
  out_res o = Raise e -> calls (out_evs o) <> [] ->
  overlay_environment (venv s) (environ (out_st o)).
Proof.
  cbv zeta. intros Hres Hcalls.
  destruct (calls (out_evs (tox_runtest redirect s))) as [|c l] eqn:Hc; [done|].
  destruct (tox_runtest_overlay redirect s 0 c) as (s1 & ol & Hrun & Henv & _ & Hst).
  { by rewrite Hc. }
  by rewrite (Hst _ Hres), (run_environ _ _ _ _ _ _ Hrun).
Qed.

End RunTestCalls.

Lemma runtest_all_returned_witness :
  let host := script_host (fun _ => Ok EmptyString) in
  let s := demo_state ∅ (demo_venv [["pytest"]; ["-"; "flake8"]] false false) in
  let o := @tox_runtest host true s in
  status (venv (out_st o)) = EmptyString /\
  out_res o = Ok true /\
  exists out, calls (out_evs o) !! 1 =
                Some (@run_request host true "runtests" (venv s) ["-"; "flake8"], Ok out).
Proof.
  intros host s o.
  destruct (@runtest_all_returned host true s) as (Hst & [(e & He & _)|(Hres & Hall)]).
  - repeat constructor; discriminate.
  - vm_compute. repeat constructor.
  - vm_compute in He. discriminate He.
  - split; [exact Hst|]. split; [exact Hres|]. apply (Hall 1). reflexivity.
Defined.

Lemma runtest_rerun_witness :
  let host := script_host (fun _ => Ok EmptyString) in
  let s := demo_state ∅ (demo_venv [["--flake8"; "x"]] false false) in
  let o1 := @tox_runtest host true s in
  let req1 := @run_request host true "runtests" (venv s) ["--flake8"; "x"] in
  let req2 := @run_request host true "runtests" (venv (out_st o1)) ["flake8"; "x"] in
  pc_ignore_ret req1 = Some true /\
  pc_ignore_ret req2 = Some false /\
  pc_args req2 = pc_args req1.
Proof.
  intros host s o1 req1 req2.
  apply (@runtest_rerun host true s 0 "--flake8" ["x"] req1 req2
           (Ok EmptyString) (Ok EmptyString)).
  - reflexivity.
  - reflexivity.
  - discriminate.
  - vm_compute. reflexivity.
  - vm_compute. reflexivity.
Defined.

Lemma runtest_calls_environment_witness :
  let host := script_host (fun _ => Ok EmptyString) in
  let s := demo_state ∅ (demo_venv [["pytest"]] false false) in
  let req := @run_request host true "runtests" (venv s) ["pytest"] in
  exists env f, overlay_environment (venv s) env /\
                Ok EmptyString = (@_pcall host req env f).1.
Proof.
  intros host s req.
  apply (@runtest_calls_environment host true s 0). vm_compute. reflexivity.
Defined.

Lemma runtest_raise_overlay_witness :
  let host := script_host (fails_on "flake8" true) in
  let s := demo_state ∅ (demo_venv [["pytest"]; ["flake8"]] false false) in
  overlay_environment (venv s) (environ (out_st (@tox_runtest host true s))).
Proof.
  intros host s. apply (@runtest_raise_overlay host true s KeyboardInterrupt).
  - vm_compute. reflexivity.
  - vm_compute. discriminate.
Defined.
